(** * EEPROM 25LC040A over a bit-banged SPI bus

    A shallow embedding of the three layers of the driver:
    - the signal driver interface [SPIBitBangingDriver]
      (spi_bit_banging_driver.hpp),
    - the byte transfer engine [transferByte]
      (spi_bit_banging_helper.hpp),
    - the EEPROM command layer (eeprom_25lc040a.hpp and its
      implementation).

    Machine integers are [Z] with the wrap-around written out:
    [uint8_t] is reduced modulo 2^8, [uint32_t] and [unsigned] modulo 2^32,
    and [std::size_t] modulo 2^[size_bits], the width being a parameter of the
    functions that increment an address.  The driver object is a state of
    an arbitrary type [D]; every method takes the state and returns the new
    one.  The [while] loops of the source take a [fuel]: a round of a loop
    takes one unit, gives what is left to the loops it calls, and the
    function returns [None] when the fuel runs out.  [waitUntilWriteComplete]
    is [while (true)] and may indeed never return; the other loops end by
    themselves on the arguments the interface documents, which is proved
    below. *)

From Stdlib Require Import ZArith List Bool Lia.
Import ListNotations.
Local Open Scope Z_scope.

(** ** Machine integers *)

Definition u8 (x : Z) : Z := x mod 2 ^ 8.
Definition u32 (x : Z) : Z := x mod 2 ^ 32.
Definition usize (size_bits : Z) (x : Z) : Z := x mod 2 ^ size_bits.

(** ** The signal driver interface (class SPIBitBangingDriver) *)

Class SPIBitBangingDriver (D : Type) : Type := {
  cs_low : D -> D;
  cs_high : D -> D;
  write_mosi : bool -> D -> D;
  read_miso : D -> bool * D;
  pulse_clock : D -> D;
  delay_us : Z -> D -> D
}.

(** ** The byte transfer engine (class SPIBitBangingHelper) *)

Section Helper.
Context {D : Type} `{SPIBitBangingDriver D}.

(** One iteration of the [for] loop of [transferByte]. *)
Definition transferByte_body (tx_byte : Z) (acc : Z * D) (bit : Z) : Z * D :=
  let '(rx_byte, s) := acc in
  let mosi_value := negb (Z.land (Z.shiftr tx_byte bit) 1 =? 0) in
  let s := write_mosi mosi_value s in
  let s := pulse_clock s in
  let '(miso_value, s) := read_miso s in
  (u8 (Z.lor (Z.shiftl rx_byte 1) (if miso_value then 1 else 0)), s).

(** [for (int bit = 7; bit >= 0; --bit)] *)
Definition transferByte (tx_byte : Z) (s : D) : Z * D :=
  fold_left (transferByte_body tx_byte) [7; 6; 5; 4; 3; 2; 1; 0] (0, s).
End Helper.

(** ** The EEPROM command layer (class EEPROM25LC040A) *)

Definition CAPACITY_BYTES : Z := 512.
Definition PAGE_SIZE : Z := 16.

(** [enum class Opcode : uint8_t] *)
Inductive Opcode : Type := READ | WRITE | WREN | RDSR.

Definition opcode_byte (o : Opcode) : Z :=
  match o with
  | READ => 0x03
  | WRITE => 0x02
  | WREN => 0x06
  | RDSR => 0x05
  end.

(** The integers [0; 1; ...; n-1], the values of a [for (i = 0; i < n; ++i)]
    counter. *)
Definition upto (n : Z) : list Z := map Z.of_nat (seq 0 (Z.to_nat n)).

(** [buffer[i]] as an rvalue; the source reads no index past the caller's
    [length], and a read past the list (undefined in C++) gives 0 here. *)
Definition load (buffer : list Z) (i : Z) : Z := nth (Z.to_nat i) buffer 0.

(** [buffer[i] = v]; a store past the list (undefined in C++) changes
    nothing here. *)
Fixpoint store_nat (buffer : list Z) (i : nat) (v : Z) : list Z :=
  match buffer, i with
  | [], _ => []
  | _ :: rest, O => v :: rest
  | b :: rest, S i' => b :: store_nat rest i' v
  end.

Definition store (buffer : list Z) (i : Z) (v : Z) : list Z :=
  store_nat buffer (Z.to_nat i) v.

Section CommandLayer.
Context {D : Type} `{SPIBitBangingDriver D}.

(** Width of [std::size_t] in bits. *)
Variable size_bits : Z.

Definition readByte (address : Z) (s : D) : Z * D :=
  let s := cs_low s in
  let '(_, s) := transferByte (opcode_byte READ) s in
  let '(_, s) := transferByte (u8 (Z.land (Z.shiftr address 8) 0xFF)) s in
  let '(_, s) := transferByte (u8 (Z.land address 0xFF)) s in
  let '(value, s) := transferByte 0xFF s in
  let s := cs_high s in
  (value, s).

Definition writeEnable (s : D) : D :=
  let s := cs_low s in
  let '(_, s) := transferByte (opcode_byte WREN) s in
  cs_high s.

Definition readStatus (s : D) : Z * D :=
  let s := cs_low s in
  let '(_, s) := transferByte (opcode_byte RDSR) s in
  let '(status, s) := transferByte 0xFF s in
  let s := cs_high s in
  (status, s).

Definition WIP_MASK : Z := 0x01.

(** [while (true)]: one unit of fuel per status poll. *)
Fixpoint waitUntilWriteComplete (fuel : nat) (s : D) : option D :=
  match fuel with
  | O => None
  | S fuel' =>
      let '(status, s) := readStatus s in
      if Z.land status WIP_MASK =? 0
      then Some s
      else waitUntilWriteComplete fuel' (delay_us 10 s)
  end.

Definition writeByte (fuel : nat) (address : Z) (value : Z) (s : D)
  : option D :=
  let s := writeEnable s in
  let s := cs_low s in
  let '(_, s) := transferByte (opcode_byte WRITE) s in
  let '(_, s) := transferByte (u8 (Z.land (Z.shiftr address 8) 0xFF)) s in
  let '(_, s) := transferByte (u8 (Z.land address 0xFF)) s in
  let '(_, s) := transferByte value s in
  let s := cs_high s in
  waitUntilWriteComplete fuel s.

(** [for (i = 0; i < length; ++i) buffer[i] = transferByte(0xFF)] *)
Definition readArray_body (acc : list Z * D) (i : Z) : list Z * D :=
  let '(buffer, s) := acc in
  let '(v, s) := transferByte 0xFF s in
  (store buffer i v, s).

(** A null [buffer] is [None]; the result carries the buffer after the
    call. *)
Definition readArray (address : Z) (buffer : option (list Z)) (length : Z)
    (s : D) : option (list Z) * D :=
  match buffer with
  | None => (None, s)
  | Some buf =>
      if length =? 0 then (Some buf, s)
      else
        let s := cs_low s in
        let '(_, s) := transferByte (opcode_byte READ) s in
        let '(_, s) :=
          transferByte (u8 (Z.land (Z.shiftr address 8) 0xFF)) s in
        let '(_, s) := transferByte (u8 (Z.land address 0xFF)) s in
        let '(buf, s) := fold_left readArray_body (upto length) (buf, s) in
        let s := cs_high s in
        (Some buf, s)
  end.

(** [for (i = 0; i < chunk; ++i) transferByte(buffer[offset + i])] *)
Definition writeArray_body (buffer : list Z) (offset : Z) (s : D) (i : Z)
  : D :=
  snd (transferByte (load buffer (usize size_bits (offset + i))) s).

(** [while (remaining > 0)]: one unit of fuel per page chunk. *)
Fixpoint writeArray_loop (fuel : nat) (address : Z) (buffer : list Z)
    (offset remaining : Z) (s : D) : option D :=
  if 0 <? remaining then
    match fuel with
    | O => None
    | S fuel' =>
        let page_offset := address mod PAGE_SIZE in
        let bytes_in_page := PAGE_SIZE - page_offset in
        let chunk :=
          if remaining <? bytes_in_page then remaining else bytes_in_page in
        let s := writeEnable s in
        let s := cs_low s in
        let '(_, s) := transferByte (opcode_byte WRITE) s in
        let '(_, s) :=
          transferByte (u8 (Z.land (Z.shiftr address 8) 0xFF)) s in
        let '(_, s) := transferByte (u8 (Z.land address 0xFF)) s in
        let s := fold_left (writeArray_body buffer offset) (upto chunk) s in
        let s := cs_high s in
        match waitUntilWriteComplete fuel' s with
        | None => None
        | Some s =>
            writeArray_loop fuel' (usize size_bits (address + chunk)) buffer
              (usize size_bits (offset + chunk))
              (usize size_bits (remaining - chunk)) s
        end
    end
  else Some s.

Definition writeArray (fuel : nat) (address : Z) (buffer : option (list Z))
    (length : Z) (s : D) : option D :=
  match buffer with
  | None => Some s
  | Some buf =>
      if length =? 0 then Some s
      else writeArray_loop fuel address buf 0 length s
  end.

(** The part of an iteration of the bit loops that [readBits] and
    [writeBits] share: where the field starts in the current byte, how
    many of its bits lie there, and the byte-local mask.  [unsigned] is
    32 bits wide; a shift by 32 or more, undefined in C++, is the shift of
    [Z] reduced to the width here, and arises with no argument in the
    documented ranges. *)
Definition start_bit_of (bitOffset bits_done : Z) : Z :=
  if bits_done =? 0 then bitOffset else 0.

Definition bits_in_byte_of (start_bit bitCount bits_done : Z) : Z :=
  Z.min (u32 (8 - start_bit)) (u32 (bitCount - bits_done)).

Definition mask_of (start_bit bits_in_byte : Z) : Z :=
  u8 (u32 (Z.shiftl (u32 (u32 (Z.shiftl 1 bits_in_byte) - 1)) start_bit)).

(** [while (bits_read < bitCount)]: one unit of fuel per byte. *)
Fixpoint readBits_loop (fuel : nat) (bitOffset bitCount : Z)
    (bits_read byte_addr result : Z) (s : D) : option (Z * D) :=
  if bits_read <? bitCount then
    match fuel with
    | O => None
    | S fuel' =>
        let '(byte, s) := readByte byte_addr s in
        let start_bit := start_bit_of bitOffset bits_read in
        let bits_in_byte := bits_in_byte_of start_bit bitCount bits_read in
        let mask := mask_of start_bit bits_in_byte in
        let val := u8 (Z.shiftr (Z.land byte mask) start_bit) in
        let result := Z.lor result (u32 (Z.shiftl val bits_read)) in
        readBits_loop fuel' bitOffset bitCount
          (u32 (bits_read + bits_in_byte)) (usize size_bits (byte_addr + 1))
          result s
    end
  else Some (result, s).

Definition readBits (fuel : nat) (address bitOffset bitCount : Z) (s : D)
  : option (Z * D) :=
  if (bitCount =? 0) || (32 <? bitCount) then Some (0, s)
  else readBits_loop fuel bitOffset bitCount 0 address 0 s.

(** [while (bits_written < bitCount)]: one unit of fuel per byte. *)
Fixpoint writeBits_loop (fuel : nat) (bitOffset bitCount value : Z)
    (bits_written byte_addr : Z) (s : D) : option D :=
  if bits_written <? bitCount then
    match fuel with
    | O => None
    | S fuel' =>
        let '(byte, s) := readByte byte_addr s in
        let start_bit := start_bit_of bitOffset bits_written in
        let bits_in_byte :=
          bits_in_byte_of start_bit bitCount bits_written in
        let mask := mask_of start_bit bits_in_byte in
        let byte :=
          u8 (Z.lor (Z.land byte (Z.lnot mask))
                (Z.land
                   (u32 (Z.shiftl (Z.shiftr value bits_written) start_bit))
                   mask)) in
        match writeByte fuel' byte_addr byte s with
        | None => None
        | Some s =>
            writeBits_loop fuel' bitOffset bitCount value
              (u32 (bits_written + bits_in_byte))
              (usize size_bits (byte_addr + 1)) s
        end
    end
  else Some s.

Definition writeBits (fuel : nat) (address bitOffset bitCount value : Z)
    (s : D) : option D :=
  if (bitCount =? 0) || (32 <? bitCount) then Some s
  else writeBits_loop fuel bitOffset bitCount value 0 address s.

Definition readBit (fuel : nat) (address bit : Z) (s : D)
  : option (bool * D) :=
  match readBits fuel address bit 1 s with
  | None => None
  | Some (r, s) => Some (negb (r =? 0), s)
  end.

Definition writeBit (fuel : nat) (address bit : Z) (value : bool) (s : D)
  : option D :=
  writeBits fuel address bit 1 (if value then 1 else 0) s.
End CommandLayer.

(** ** Recording the driver calls

    [Logged D] wraps any driver state with the list of the calls made on
    it, the most recent call first; [trace] gives them in the order they
    were made. *)

Inductive Event : Type :=
| EvCsLow
| EvCsHigh
| EvMosi (level : bool)
| EvClock
| EvMiso (level : bool)
| EvDelay (us : Z).

Definition Logged (D : Type) : Type := (D * list Event)%type.

#[export] Instance LoggedDriver {D : Type} `{SPIBitBangingDriver D}
  : SPIBitBangingDriver (Logged D) := {
  cs_low s := (cs_low (fst s), EvCsLow :: snd s);
  cs_high s := (cs_high (fst s), EvCsHigh :: snd s);
  write_mosi b s := (write_mosi b (fst s), EvMosi b :: snd s);
  read_miso s :=
    let r := read_miso (fst s) in
    (fst r, (snd r, EvMiso (fst r) :: snd s));
  pulse_clock s := (pulse_clock (fst s), EvClock :: snd s);
  delay_us us s := (delay_us us (fst s), EvDelay us :: snd s)
}.

(** What the statements about logs need of a driver: a log, to which each
    call adds its event.  [Logged D] is the instance in use; the lemmas are
    proved for any. *)
Class Logging (L : Type) `{SPIBitBangingDriver L} : Type := {
  log_of : L -> list Event;
  log_cs_low : forall s, log_of (cs_low s) = EvCsLow :: log_of s;
  log_cs_high : forall s, log_of (cs_high s) = EvCsHigh :: log_of s;
  log_write_mosi :
    forall b s, log_of (write_mosi b s) = EvMosi b :: log_of s;
  log_read_miso :
    forall s,
      log_of (snd (read_miso s)) = EvMiso (fst (read_miso s)) :: log_of s;
  log_pulse_clock : forall s, log_of (pulse_clock s) = EvClock :: log_of s;
  log_delay_us : forall us s, log_of (delay_us us s) = EvDelay us :: log_of s
}.

#[export] Instance LoggedLogging {D : Type} `{SPIBitBangingDriver D}
  : Logging (Logged D) := {
  log_of := snd;
  log_cs_low _ := eq_refl;
  log_cs_high _ := eq_refl;
  log_write_mosi _ _ := eq_refl;
  log_read_miso _ := eq_refl;
  log_pulse_clock _ := eq_refl;
  log_delay_us _ _ := eq_refl
}.

(** The calls in the order they were made. *)
Definition trace {L : Type} `{Logging L} (s : L) : list Event :=
  rev (log_of s).

(** ** Reading a log as bus traffic

    A bus monitor: between a [cs_low] and the next [cs_high] every clock
    pulse samples the MOSI level, most significant bit first, and eight
    samples make a byte of the command frame.  [bus_ok] falls when the
    chip select is asserted twice, released while it is not asserted, or
    the bus is driven or clocked outside a frame. *)

Inductive Item : Type :=
| Frame (bytes : list Z)
| Delay (us : Z).

Record Bus : Type := mkBus {
  bus_items : list Item;   (* completed frames and delays, oldest first *)
  bus_sel : bool;          (* chip select asserted *)
  bus_line : bool;         (* level of MOSI *)
  bus_bits : list bool;    (* samples of the current byte *)
  bus_bytes : list Z;      (* bytes of the current frame *)
  bus_ok : bool
}.

Definition byte_of_bits (bits : list bool) : Z :=
  fold_left (fun acc (b : bool) => 2 * acc + (if b then 1 else 0)) bits 0.

Definition bits_of_byte (v : Z) : list bool :=
  map (Z.testbit v) [7; 6; 5; 4; 3; 2; 1; 0].

Definition bus_init : Bus := mkBus [] false false [] [] true.

Definition bus_step (st : Bus) (e : Event) : Bus :=
  let '(mkBus items sel line bits bytes ok) := st in
  match e with
  | EvCsLow =>
      if sel then mkBus items sel line bits bytes false
      else mkBus items true line [] [] ok
  | EvCsHigh =>
      if sel then mkBus (items ++ [Frame bytes]) false line [] [] ok
      else mkBus items sel line bits bytes false
  | EvMosi b =>
      mkBus items sel b bits bytes (ok && sel)
  | EvClock =>
      if sel then
        let bits := bits ++ [line] in
        if (length bits =? 8)%nat
        then mkBus items sel line [] (bytes ++ [byte_of_bits bits]) ok
        else mkBus items sel line bits bytes ok
      else mkBus items sel line bits bytes false
  | EvMiso _ => mkBus items sel line bits bytes (ok && sel)
  | EvDelay us => mkBus (items ++ [Delay us]) sel line bits bytes ok
  end.

(** The monitor after a log (kept most recent call first). *)
Fixpoint decode (log : list Event) : Bus :=
  match log with
  | [] => bus_init
  | e :: earlier => bus_step (decode earlier) e
  end.

Definition is_write (it : Item) : bool :=
  match it with
  | Frame (op :: _) => op =? opcode_byte WRITE
  | _ => false
  end.

Definition is_wren (it : Item) : bool :=
  match it with
  | Frame [op] => op =? opcode_byte WREN
  | _ => false
  end.

(** Every WRITE frame of [items] comes right after a complete WREN frame;
    [prev] tells whether the item before the list is one. *)
Fixpoint guarded (prev : bool) (items : list Item) : bool :=
  match items with
  | [] => true
  | it :: rest => (negb (is_write it) || prev) && guarded (is_wren it) rest
  end.

Definition wren_guarded (items : list Item) : bool := guarded false items.

(** The frames of the command layer. *)
Definition addr_hi (address : Z) : Z := u8 (Z.land (Z.shiftr address 8) 0xFF).
Definition addr_lo (address : Z) : Z := u8 (Z.land address 0xFF).

Definition wren_frame : Item := Frame [opcode_byte WREN].
Definition rdsr_frame : Item := Frame [opcode_byte RDSR; 0xFF].
Definition write_frame (address : Z) (data : list Z) : Item :=
  Frame (opcode_byte WRITE :: addr_hi address :: addr_lo address
           :: map u8 data).
Definition read_frame (address : Z) (count : nat) : Item :=
  Frame (opcode_byte READ :: addr_hi address :: addr_lo address
           :: repeat 0xFF count).

(** A run of status polls that saw the device busy [k] times: each busy
    observation is followed by a delay of 10 microseconds. *)
Fixpoint poll_items (k : nat) : list Item :=
  match k with
  | O => [rdsr_frame]
  | S k' => rdsr_frame :: Delay 10 :: poll_items k'
  end.

(** ** The page chunks of a write, in the spec's words

    While bytes remain: [chunk = min(remaining, 16 - address mod 16)];
    one page write of [chunk] bytes at [address]; advance the address and
    the source by [chunk]. *)
Fixpoint page_chunks_from (steps : nat) (address : Z) (data : list Z)
  : list (Z * list Z) :=
  match steps, data with
  | O, _ => []
  | _, [] => []
  | S steps', _ =>
      let chunk := Z.min (Z.of_nat (length data)) (16 - address mod 16) in
      (address, firstn (Z.to_nat chunk) data)
        :: page_chunks_from steps' (address + chunk)
             (skipn (Z.to_nat chunk) data)
  end.

Definition page_chunks (address : Z) (data : list Z) : list (Z * list Z) :=
  page_chunks_from (length data) address data.

(** What one chunk puts on the bus when its status polls see the device
    busy [k] times. *)
Definition chunk_items (c : Z * list Z * nat) : list Item :=
  let '(address, data, k) := c in
  wren_frame :: write_frame address data :: poll_items k.


Definition is_rdsr (it : Item) : bool :=
  match it with
  | Frame (op :: _) => op =? opcode_byte RDSR
  | _ => false
  end.

Definition is_delay (it : Item) : bool :=
  match it with
  | Delay _ => true
  | Frame _ => false
  end.

Definition status_reads (items : list Item) : nat :=
  length (filter is_rdsr items).

Definition delays (items : list Item) : nat :=
  length (filter is_delay items).

(** ** The successive polls of [waitUntilWriteComplete]

    [poll_state k s] is the driver state on which the poll number [k]
    (from 0) starts when all the polls before it saw the device busy;
    [wip_at k s] is the WIP bit that poll observes. *)
Section Polls.
Context {D : Type} `{SPIBitBangingDriver D}.

Fixpoint poll_state (k : nat) (s : D) : D :=
  match k with
  | O => s
  | S k' => delay_us 10 (snd (readStatus (poll_state k' s)))
  end.

Definition wip_at (k : nat) (s : D) : bool :=
  Z.testbit (fst (readStatus (poll_state k s))) 0.
End Polls.

(** ** Test doubles of the signal driver *)

(** A driver whose MISO line repeats the level last driven on MOSI. *)
Definition Echo : Type := bool.

#[export] Instance EchoDriver : SPIBitBangingDriver Echo := {
  cs_low s := s;
  cs_high s := s;
  write_mosi b _ := b;
  read_miso s := (s, s);
  pulse_clock s := s;
  delay_us _ s := s
}.

(** A driver whose MISO line is always low: every status byte it gives
    is 0, so no wait ever polls twice. *)
Definition Quiet : Type := unit.

#[export] Instance QuietDriver : SPIBitBangingDriver Quiet := {
  cs_low s := s;
  cs_high s := s;
  write_mosi _ s := s;
  read_miso s := (false, s);
  pulse_clock s := s;
  delay_us _ s := s
}.

(** A driver that answers the second byte of each frame with the next
    status byte of a script, most significant bit first, and with 0 once
    the script is used up. *)
Record StatusStub : Type := mkStatusStub {
  stub_script : list Z;
  stub_clocks : nat        (* clock pulses since the last [cs_low] *)
}.

#[export] Instance StatusStubDriver : SPIBitBangingDriver StatusStub := {
  cs_low s := mkStatusStub (stub_script s) 0;
  cs_high s :=
    mkStatusStub
      (if (16 <=? stub_clocks s)%nat then tl (stub_script s)
       else stub_script s)
      0;
  write_mosi _ s := s;
  read_miso s :=
    (if (9 <=? stub_clocks s)%nat && (stub_clocks s <=? 16)%nat
     then Z.testbit (hd 0 (stub_script s)) (Z.of_nat (16 - stub_clocks s))
     else false,
     s);
  pulse_clock s := mkStatusStub (stub_script s) (S (stub_clocks s));
  delay_us _ s := s
}.

(** ** A model of the memory chip

    The chip is hardware on the other end of the bus; the repository holds
    no code for it.  The model below follows the spec's account of the
    wire protocol, at the level of the lines the driver toggles. *)

(** Modelled from the spec: the memory chip, which the repository does not
    contain.  A flat array of 512 byte cells; opcodes READ 0x03, WRITE
    0x02, WREN 0x06, RDSR 0x05; a two-byte big-endian address of which the
    9 low bits are significant; a sequential read whose address pointer
    advances by itself; a write that is latched while chip select is
    asserted, wraps inside its 16-byte page, is committed when chip select
    is released and needs the write-enable latch, which it clears; a
    status byte with WIP in bit 0 and the write-enable latch in bit 1.
    While a write cycle is in progress only RDSR is answered.  Time passes
    in [delay_us] only: a write cycle lasts [dev_twc] microseconds.  On
    each clock pulse the chip either samples MOSI or, in the data phase of
    READ and RDSR, drives the next bit on MISO, so that the master reads
    it after the pulse, as [transferByte] does.

    [Phase] is where the chip stands in the command being clocked in. *)
Inductive Phase : Type :=
| PhOpcode
| PhAddrHi (wr : bool)
| PhAddrLo (wr : bool) (hi : Z)
| PhRead (addr : Z)
| PhWrite (addr : Z) (latch : Z -> Z) (count : Z)
| PhWren
| PhStatus
| PhDone.

(** Modelled from the spec: the state of the chip and of its pins. *)
Record Device : Type := mkDevice {
  dev_mem : Z -> Z;        (* the cells, at addresses 0..511 *)
  dev_twc : Z;             (* duration of a write cycle, microseconds *)
  dev_busy : Z;            (* time left of the write cycle in progress *)
  dev_wel : bool;          (* write-enable latch *)
  dev_sel : bool;          (* chip select asserted *)
  dev_mosi : bool;
  dev_miso : bool;
  dev_phase : Phase;
  dev_in : list bool;      (* bits sampled of the current byte *)
  dev_out : list bool      (* bits still to drive of the current byte *)
}.

(** The cells [m] with [v] stored at [a]. *)
Definition upd (m : Z -> Z) (a v : Z) : Z -> Z :=
  fun x => if x =? a then v else m x.

(** Modelled from the spec: the address after [addr] in a page write,
    which wraps inside the 16-byte page. *)
Definition next_in_page (addr : Z) : Z :=
  PAGE_SIZE * (addr / PAGE_SIZE) + (addr + 1) mod PAGE_SIZE.

(** Modelled from the spec: the status register, WIP in bit 0 and the
    write-enable latch in bit 1. *)
Definition status_byte (busy : Z) (wel : bool) : Z :=
  (if 0 <? busy then 1 else 0) + (if wel then 2 else 0).

(** Modelled from the spec: the falling edge of chip select opens a
    command. *)
Definition dev_cs_low (d : Device) : Device :=
  let '(mkDevice mem twc busy wel sel mosi miso ph ibits obits) := d in
  if sel then d
  else mkDevice mem twc busy wel true mosi miso PhOpcode [] [].

(** Modelled from the spec: the rising edge of chip select closes the
    command; it sets the write-enable latch after a complete WREN, and
    after a WRITE with at least one whole data byte it commits the latched
    bytes, starts the write cycle and clears the latch. *)
Definition dev_cs_high (d : Device) : Device :=
  let '(mkDevice mem twc busy wel sel mosi miso ph ibits obits) := d in
  if sel then
    match ph, ibits with
    | PhWren, [] =>
        mkDevice mem twc busy true false mosi miso PhDone [] []
    | PhWrite _ latch count, [] =>
        if 0 <? count
        then mkDevice latch twc twc false false mosi miso PhDone [] []
        else mkDevice mem twc busy wel false mosi miso PhDone [] []
    | _, _ => mkDevice mem twc busy wel false mosi miso PhDone [] []
    end
  else d.

(** Modelled from the spec: what the chip does with a complete byte [b]
    clocked in, by the phase of the command. *)
Definition dev_on_byte (b : Z) (d : Device) : Device :=
  let '(mkDevice mem twc busy wel sel mosi miso ph ibits obits) := d in
  match ph with
  | PhOpcode =>
      if b =? opcode_byte RDSR then
        mkDevice mem twc busy wel sel mosi miso PhStatus []
          (bits_of_byte (status_byte busy wel))
      else if 0 <? busy then
        mkDevice mem twc busy wel sel mosi miso PhDone [] []
      else if b =? opcode_byte READ then
        mkDevice mem twc busy wel sel mosi miso (PhAddrHi false) [] []
      else if b =? opcode_byte WRITE then
        mkDevice mem twc busy wel sel mosi miso
          (if wel then PhAddrHi true else PhDone) [] []
      else if b =? opcode_byte WREN then
        mkDevice mem twc busy wel sel mosi miso PhWren [] []
      else mkDevice mem twc busy wel sel mosi miso PhDone [] []
  | PhAddrHi wr =>
      mkDevice mem twc busy wel sel mosi miso (PhAddrLo wr b) [] []
  | PhAddrLo wr hi =>
      let addr := (hi * 256 + b) mod CAPACITY_BYTES in
      if wr then
        mkDevice mem twc busy wel sel mosi miso (PhWrite addr mem 0) [] []
      else
        mkDevice mem twc busy wel sel mosi miso (PhRead addr) []
          (bits_of_byte (mem addr))
  | PhWrite addr latch count =>
      mkDevice mem twc busy wel sel mosi miso
        (PhWrite (next_in_page addr) (upd latch addr b) (count + 1)) [] []
  | PhWren => mkDevice mem twc busy wel sel mosi miso PhDone [] []
  | _ => mkDevice mem twc busy wel sel mosi miso ph [] obits
  end.

(** Modelled from the spec: one clock pulse; the chip shifts the next bit
    out in the data phase of READ and RDSR, and samples MOSI otherwise. *)
Definition dev_pulse_clock (d : Device) : Device :=
  let '(mkDevice mem twc busy wel sel mosi miso ph ibits obits) := d in
  if sel then
    match ph with
    | PhRead addr =>
        match obits with
        | [] => d
        | [b] =>
            let next := (addr + 1) mod CAPACITY_BYTES in
            mkDevice mem twc busy wel sel mosi b (PhRead next) []
              (bits_of_byte (mem next))
        | b :: rest => mkDevice mem twc busy wel sel mosi b ph [] rest
        end
    | PhStatus =>
        match obits with
        | [] => d
        | [b] =>
            mkDevice mem twc busy wel sel mosi b ph []
              (bits_of_byte (status_byte busy wel))
        | b :: rest => mkDevice mem twc busy wel sel mosi b ph [] rest
        end
    | PhDone => d
    | _ =>
        let bits := ibits ++ [mosi] in
        if (length bits =? 8)%nat
        then dev_on_byte (byte_of_bits bits) d
        else mkDevice mem twc busy wel sel mosi miso ph bits obits
    end
  else d.

(** Modelled from the spec: the master drives MOSI. *)
Definition dev_write_mosi (b : bool) (d : Device) : Device :=
  let '(mkDevice mem twc busy wel sel mosi miso ph ibits obits) := d in
  mkDevice mem twc busy wel sel b miso ph ibits obits.

(** Modelled from the spec: [us] microseconds pass. *)
Definition dev_delay_us (us : Z) (d : Device) : Device :=
  let '(mkDevice mem twc busy wel sel mosi miso ph ibits obits) := d in
  mkDevice mem twc (Z.max 0 (busy - us)) wel sel mosi miso ph ibits obits.

(** Modelled from the spec: the chip wired to the driver interface. *)
#[export] Instance DeviceDriver : SPIBitBangingDriver Device := {
  cs_low := dev_cs_low;
  cs_high := dev_cs_high;
  write_mosi := dev_write_mosi;
  read_miso d := (dev_miso d, d);
  pulse_clock := dev_pulse_clock;
  delay_us := dev_delay_us
}.

(** The chip is between commands and no write cycle is in progress. *)
Definition dev_ready (d : Device) : Prop :=
  dev_sel d = false /\ dev_busy d <= 0.

(** A chip with all cells erased to 0xFF. *)
Definition blank_device (twc : Z) : Device :=
  mkDevice (fun _ => 0xFF) twc 0 false false false false PhDone [] [].

(** One frame: [bytes] clocked out inside one assertion of chip select. *)
Definition send_frame {D : Type} `{SPIBitBangingDriver D} (bytes : list Z)
    (s : D) : D :=
  cs_high (fold_left (fun s b => snd (transferByte b s)) bytes (cs_low s)).

(** ** The public operations, as values *)

Inductive Op : Type :=
| OpReadByte (address : Z)
| OpWriteByte (address value : Z)
| OpReadArray (address : Z) (buffer : option (list Z)) (length : Z)
| OpWriteArray (address : Z) (buffer : option (list Z)) (length : Z)
| OpReadBit (address bit : Z)
| OpWriteBit (address bit : Z) (value : bool)
| OpReadBits (address bitOffset bitCount : Z)
| OpWriteBits (address bitOffset bitCount value : Z).

Section Operations.
Context {D : Type} `{SPIBitBangingDriver D}.
Variable size_bits : Z.

(** The driver state an operation leaves, [None] when it does not
    return within [fuel]. *)
Definition run_op (fuel : nat) (op : Op) (s : D) : option D :=
  match op with
  | OpReadByte a => Some (snd (readByte a s))
  | OpWriteByte a v => writeByte fuel a v s
  | OpReadArray a buf len => Some (snd (readArray a buf len s))
  | OpWriteArray a buf len => writeArray size_bits fuel a buf len s
  | OpReadBit a bit => option_map snd (readBit size_bits fuel a bit s)
  | OpWriteBit a bit v => writeBit size_bits fuel a bit v s
  | OpReadBits a off n => option_map snd (readBits size_bits fuel a off n s)
  | OpWriteBits a off n v => writeBits size_bits fuel a off n v s
  end.

Fixpoint run_ops (fuel : nat) (ops : list Op) (s : D) : option D :=
  match ops with
  | [] => Some s
  | op :: rest =>
      match run_op fuel op s with
      | None => None
      | Some s' => run_ops fuel rest s'
      end
  end.
End Operations.

(** ** Vocabulary of the statements *)

(** One round of the receive accumulator of [transferByte]. *)
Definition rx_shift (rx_byte : Z) (miso_value : bool) : Z :=
  u8 (Z.lor (Z.shiftl rx_byte 1) (if miso_value then 1 else 0)).

(** The three driver calls of one round of [transferByte], with the level
    driven on MOSI and the level sampled on MISO. *)
Definition bit_events (levels : bool * bool) : list Event :=
  [EvMosi (fst levels); EvClock; EvMiso (snd levels)].

(** One round of [transferByte] on the lines: drive MOSI, pulse the clock,
    sample MISO. *)
Definition exchange {D : Type} `{SPIBitBangingDriver D} (b : bool) (s : D)
  : bool * D :=
  read_miso (pulse_clock (write_mosi b s)).

(** The rounds for a list of levels to drive, with the levels sampled. *)
Fixpoint exchange_all {D : Type} `{SPIBitBangingDriver D} (bits : list bool)
    (s : D) : list bool * D :=
  match bits with
  | [] => ([], s)
  | b :: rest =>
      let '(m, s1) := exchange b s in
      let '(ms, s2) := exchange_all rest s1 in
      (m :: ms, s2)
  end.

(** Between the monitor states [st] and [st'] the bus was idle at both
    ends, nothing ill-formed happened, and the items [its] were added. *)
Definition emits (st st' : Bus) (its : list Item) : Prop :=
  bus_sel st = false /\ bus_sel st' = false /\ bus_ok st' = bus_ok st /\
  bus_items st' = bus_items st ++ its.

(** Between [st] and [st'] the bus was idle at both ends, nothing
    ill-formed happened, and every WRITE frame added came right after a
    WREN frame added with it. *)
Definition tidy (st st' : Bus) : Prop :=
  exists its : list Item, emits st st' its /\ wren_guarded its = true.

(** The phases in which the chip samples MOSI. *)
Definition input_phase (ph : Phase) : bool :=
  match ph with
  | PhRead _ | PhStatus | PhDone => false
  | _ => true
  end.

(** [d'] is [d] at rest after a command that wrote nothing: ready, same
    cells, same write cycle time, same write-enable latch. *)
Definition dev_settles (d d' : Device) : Prop :=
  dev_ready d' /\ dev_mem d' = dev_mem d /\ dev_twc d' = dev_twc d /\
  dev_wel d' = dev_wel d.

(** Bit [g] of the string of bits that starts at bit 0 of the cell
    [address] and runs through the following cells, the address wrapping
    at the capacity. *)
Definition mem_bit (m : Z -> Z) (address g : Z) : bool :=
  Z.testbit (m ((address + g / 8) mod CAPACITY_BYTES)) (g mod 8).

(** The position in that string of bit [j] of cell [x]. *)
Definition span_index (address x j : Z) : Z :=
  8 * ((x - address) mod CAPACITY_BYTES) + j.

(** Fuel that outlasts the write cycles of the chip [d]: the polls of a
    wait, and the rounds of a bit-field loop on top. *)
Definition enough_fuel (d : Device) : nat := Z.to_nat (dev_twc d / 10) + 7.

(** Chip select over a trace, oldest call first: [cs_scan sel tr] follows
    the level of chip select from [sel] (true when asserted) and fails on a
    [cs_low] made while it is asserted, on a [cs_high] made while it is
    released, and on a MOSI, clock or MISO call made while it is released;
    a trace is bracketed when the scan from the released level succeeds and
    ends released. *)
Definition cs_step (sel : bool) (e : Event) : option bool :=
  match e with
  | EvCsLow => if sel then None else Some true
  | EvCsHigh => if sel then Some false else None
  | EvDelay _ => Some sel
  | EvMosi _ | EvClock | EvMiso _ => if sel then Some sel else None
  end.

Fixpoint cs_scan (sel : bool) (tr : list Event) : option bool :=
  match tr with
  | [] => Some sel
  | e :: rest =>
      match cs_step sel e with
      | Some sel' => cs_scan sel' rest
      | None => None
      end
  end.

Definition cs_bracketed (tr : list Event) : bool :=
  match cs_scan false tr with
  | Some false => true
  | _ => false
  end.

(** ** Runs used as examples *)

(** Twenty bytes 0..19. *)
Definition demo_buffer : list Z := upto 20.

(** A logged chip with a write cycle of 25 microseconds, erased. *)
Definition demo_chip : Logged Device := (blank_device 25, []).

(** The state an operation leaves on [demo_chip], and [demo_chip] itself
    should it not return. *)
Definition demo_after (r : option (Logged Device)) : Logged Device :=
  match r with
  | Some s => s
  | None => demo_chip
  end.

Definition demo_written : Logged Device :=
  demo_after (writeArray 32 8 10 (Some demo_buffer) 20 demo_chip).

Definition demo_ops1 : list Op :=
  [OpWriteByte 5 0xAA; OpWriteArray 10 (Some demo_buffer) 20].

Definition demo_ops2 : list Op :=
  [OpReadByte 5; OpWriteBits 511 3 13 0x1ABC; OpReadBits 511 3 13].

Definition demo_ran : Logged Device :=
  demo_after (run_ops 32 12 (demo_ops1 ++ demo_ops2) demo_chip).

(** ** Further vocabulary and runs *)

(** A driver whose MISO line always reads high, as a pulled-up line does
    when no chip answers. *)
Inductive PulledUp : Type := pulled_up.

#[export] Instance PulledUpDriver : SPIBitBangingDriver PulledUp := {
  cs_low s := s;
  cs_high s := s;
  write_mosi _ s := s;
  read_miso s := (true, s);
  pulse_clock s := s;
  delay_us _ s := s
}.

(** The number of WRITE frames among the items. *)
Definition page_writes (items : list Item) : nat :=
  length (filter is_write items).

(** The number of 16-byte pages in which [length] bytes from [address]
    lie. *)
Definition pages_touched (address length : Z) : Z :=
  (address mod PAGE_SIZE + length + (PAGE_SIZE - 1)) / PAGE_SIZE.

(** The number of bytes in which a field of [bitCount] bits lies that
    starts at bit [bitOffset] of its first byte. *)
Definition bytes_spanned (bitOffset bitCount : Z) : Z :=
  (bitOffset + bitCount + 7) / 8.

(** [count] READ frames of one byte each, at consecutive addresses. *)
Fixpoint read_items (address : Z) (count : nat) : list Item :=
  match count with
  | O => []
  | S count' => read_frame address 1 :: read_items (address + 1) count'
  end.

(** Read-modify-write cycles at consecutive addresses: for the byte
    written and the number of busy polls of each cycle, a READ frame of
    one byte, then a WREN frame, a WRITE frame of the byte at the same
    address and the status polls. *)
Fixpoint rmw_items (address : Z) (cycles : list (Z * nat)) : list Item :=
  match cycles with
  | [] => []
  | (byte, k) :: rest =>
      read_frame address 1 :: chunk_items (address, [byte], k)
        ++ rmw_items (address + 1) rest
  end.

(** A 13-bit field read at bit 3 of the last cell, after [demo_written]. *)
Definition demo_bits_read : Z * Logged Device :=
  match readBits 32 12 511 3 13 demo_written with
  | Some p => p
  | None => (0, demo_written)
  end.

(** The same field written on [demo_chip]. *)
Definition demo_bits_written : Logged Device :=
  demo_after (writeBits 32 12 511 3 13 0x1ABC demo_chip).

(** * Properties *)

(** ** Bits and bytes *)

Lemma upto_In (n v : Z) : 0 <= v < n -> In v (upto n).
Proof.
  intros Hv. unfold upto. apply in_map_iff. exists (Z.to_nat v). split.
  - lia.
  - apply in_seq. lia.
Qed.

(** A decidable property of the integers below [n] is settled by running
    it on each of them. *)
Lemma upto_forallb (P : Z -> bool) (n : Z) :
  forallb P (upto n) = true -> forall v, 0 <= v < n -> P v = true.
Proof.
  intros Hall v Hv. rewrite forallb_forall in Hall. apply Hall.
  now apply upto_In.
Qed.

Lemma byte_of_bits_of_byte (v : Z) :
  0 <= v < 256 -> byte_of_bits (bits_of_byte v) = v.
Proof.
  intros Hv. apply Z.eqb_eq.
  apply (upto_forallb (fun v => byte_of_bits (bits_of_byte v) =? v) 256);
    [vm_compute; reflexivity | exact Hv].
Qed.

Lemma bits_of_byte_u8 (v : Z) : bits_of_byte (u8 v) = bits_of_byte v.
Proof.
  unfold bits_of_byte, u8. apply map_ext_in. intros i Hi.
  apply Z.mod_pow2_bits_low. simpl in Hi. lia.
Qed.

Lemma u8_range (v : Z) : 0 <= u8 v < 256.
Proof. unfold u8. apply Z.mod_pos_bound. lia. Qed.

Lemma u8_small (v : Z) : 0 <= v < 256 -> u8 v = v.
Proof. intros Hv. unfold u8. apply Z.mod_small. simpl; lia. Qed.

Lemma byte_of_bits_u8 (v : Z) : byte_of_bits (bits_of_byte v) = u8 v.
Proof.
  rewrite <- bits_of_byte_u8. apply byte_of_bits_of_byte, u8_range.
Qed.

(** The level [transferByte] drives on MOSI for position [bit]. *)
Lemma mosi_value_testbit (tx_byte bit : Z) :
  0 <= bit ->
  negb (Z.land (Z.shiftr tx_byte bit) 1 =? 0) = Z.testbit tx_byte bit.
Proof.
  intros Hbit.
  rewrite <- (Z.add_0_l bit) at 2. rewrite <- Z.shiftr_spec by lia.
  change 1 with (Z.ones 1). rewrite Z.land_ones by lia.
  rewrite Z.bit0_eqb. change (2 ^ 1) with 2.
  pose proof (Z.mod_pos_bound (Z.shiftr tx_byte bit) 2 ltac:(lia)) as Hm.
  destruct (Z.eqb_spec (Z.shiftr tx_byte bit mod 2) 0) as [E | E];
    destruct (Z.eqb_spec (Z.shiftr tx_byte bit mod 2) 1) as [E1 | E1];
    simpl; try reflexivity; lia.
Qed.

(** The receive accumulator of [transferByte] after its eight rounds. *)
Lemma rx_shift_bits (b7 b6 b5 b4 b3 b2 b1 b0 : bool) :
  rx_shift
    (rx_shift
       (rx_shift
          (rx_shift (rx_shift (rx_shift (rx_shift (rx_shift 0 b7) b6) b5) b4)
             b3) b2) b1) b0
  = byte_of_bits [b7; b6; b5; b4; b3; b2; b1; b0].
Proof.
  destruct b7, b6, b5, b4, b3, b2, b1, b0; vm_compute; reflexivity.
Qed.

Lemma byte_of_bits_range (b7 b6 b5 b4 b3 b2 b1 b0 : bool) :
  0 <= byte_of_bits [b7; b6; b5; b4; b3; b2; b1; b0] < 256.
Proof.
  destruct b7, b6, b5, b4, b3, b2, b1, b0; vm_compute; split; congruence.
Qed.

Lemma wip_test (status : Z) :
  (Z.land status WIP_MASK =? 0) = negb (Z.testbit status 0).
Proof.
  rewrite <- (mosi_value_testbit status 0) by lia.
  rewrite Z.shiftr_0_r, negb_involutive. reflexivity.
Qed.

(** ** The byte transfer engine *)

Section TransferRounds.
Context {D : Type} `{SPIBitBangingDriver D}.

Lemma exchange_all_length (bits : list bool) :
  forall s : D, length (fst (exchange_all bits s)) = length bits.
Proof.
  induction bits as [| b bits IH]; intros s; cbn [exchange_all].
  - reflexivity.
  - destruct (exchange b s) as [m s1].
    specialize (IH s1). destruct (exchange_all bits s1) as [ms s2].
    cbn in *. congruence.
Qed.

Lemma transferByte_fold (tx_byte : Z) (positions : list Z) :
  Forall (fun bit => 0 <= bit) positions ->
  forall (rx_byte : Z) (s : D),
    fold_left (transferByte_body tx_byte) positions (rx_byte, s)
    = (fold_left rx_shift
         (fst (exchange_all (map (Z.testbit tx_byte) positions) s)) rx_byte,
       snd (exchange_all (map (Z.testbit tx_byte) positions) s)).
Proof.
  induction 1 as [| bit positions Hbit _ IH]; intros rx_byte s.
  - reflexivity.
  - cbn [fold_left map exchange_all].
    unfold transferByte_body at 2. unfold exchange at 1 2.
    rewrite mosi_value_testbit by exact Hbit.
    destruct (read_miso _) as [miso_value s1].
    rewrite IH. fold (rx_shift rx_byte miso_value).
    destruct (exchange_all _ s1) as [ms s2]. reflexivity.
Qed.

(** [transferByte] drives the bits of its argument, bit 7 first, and
    returns the sampled levels read as a byte, first sample in bit 7. *)
Lemma transferByte_rounds (tx_byte : Z) (s : D) :
  transferByte tx_byte s
  = (byte_of_bits (fst (exchange_all (bits_of_byte tx_byte) s)),
     snd (exchange_all (bits_of_byte tx_byte) s)).
Proof.
  unfold transferByte. rewrite transferByte_fold.
  - fold (bits_of_byte tx_byte).
    pose proof (exchange_all_length (bits_of_byte tx_byte) s) as Hlen.
    destruct (exchange_all (bits_of_byte tx_byte) s) as [ms s']. f_equal.
    cbn [fst length bits_of_byte map] in *.
    do 8 (destruct ms as [| ? ms]; [discriminate Hlen |]).
    destruct ms; [| discriminate Hlen].
    cbn [fold_left]. apply rx_shift_bits.
  - repeat constructor; lia.
Qed.
End TransferRounds.

Section TransferTrace.
Context {L : Type} `{Logging L}.

Lemma exchange_log (b m : bool) (s s1 : L) :
  exchange b s = (m, s1) ->
  log_of s1 = EvMiso m :: EvClock :: EvMosi b :: log_of s.
Proof.
  unfold exchange. intros Hex.
  pose proof (log_read_miso (pulse_clock (write_mosi b s))) as Hlog.
  rewrite Hex in Hlog. cbn [fst snd] in Hlog.
  rewrite Hlog, log_pulse_clock, log_write_mosi. reflexivity.
Qed.

Lemma exchange_all_trace (bits : list bool) :
  forall s : L,
    trace (snd (exchange_all bits s))
    = trace s
        ++ flat_map bit_events (combine bits (fst (exchange_all bits s))).
Proof.
  induction bits as [| b bits IH]; intros s; cbn [exchange_all].
  - cbn [snd fst combine flat_map]. symmetry. apply app_nil_r.
  - destruct (exchange b s) as [m s1] eqn:Hex.
    specialize (IH s1). destruct (exchange_all bits s1) as [ms s2].
    cbn [fst snd combine flat_map] in *. rewrite IH.
    unfold trace. rewrite (exchange_log _ _ _ _ Hex).
    cbn [rev bit_events fst snd]. rewrite <- !app_assoc. reflexivity.
Qed.

(** The calls of [transferByte], in order, and the byte it returns. *)
Lemma transferByte_trace (tx_byte : Z) (s : L) :
  exists rx : list bool,
    length rx = 8%nat /\
    trace (snd (transferByte tx_byte s))
    = trace s ++ flat_map bit_events (combine (bits_of_byte tx_byte) rx) /\
    fst (transferByte tx_byte s) = byte_of_bits rx.
Proof.
  rewrite transferByte_rounds.
  exists (fst (exchange_all (bits_of_byte tx_byte) s)). cbn [fst snd].
  split; [apply exchange_all_length |].
  split; [apply exchange_all_trace | reflexivity].
Qed.

(** One round inside a frame, seen by the bus monitor. *)
Lemma decode_exchange (b m : bool) (s s1 : L) items line bits bytes ok :
  decode (log_of s) = mkBus items true line bits bytes ok ->
  exchange b s = (m, s1) ->
  decode (log_of s1) = bus_step (mkBus items true b bits bytes ok) EvClock.
Proof.
  intros Hst Hex. rewrite (exchange_log _ _ _ _ Hex).
  cbn [decode]. rewrite Hst. cbn [bus_step andb].
  destruct (length (bits ++ [b]) =? 8)%nat; cbn [bus_step];
    rewrite !andb_true_r; reflexivity.
Qed.

(** What the bus monitor makes of one [transferByte]. *)
Lemma decode_transferByte (x r : Z) (s s1 : L) items line bytes ok :
  decode (log_of s) = mkBus items true line [] bytes ok ->
  transferByte x s = (r, s1) ->
  decode (log_of s1)
  = mkBus items true (Z.testbit x 0) [] (bytes ++ [u8 x]) ok.
Proof.
  intros Hst Htb. rewrite transferByte_rounds in Htb.
  apply (f_equal snd) in Htb. cbn [snd] in Htb. subst s1.
  cbn [bits_of_byte map exchange_all].
  destruct (exchange _ s) as [m7 s7] eqn:E7.
  pose proof (decode_exchange _ _ _ _ _ _ _ _ _ Hst E7) as Q7.
  destruct (exchange _ s7) as [m6 s6] eqn:E6.
  pose proof (decode_exchange _ _ _ _ _ _ _ _ _ Q7 E6) as Q6.
  destruct (exchange _ s6) as [m5 s5] eqn:E5.
  pose proof (decode_exchange _ _ _ _ _ _ _ _ _ Q6 E5) as Q5.
  destruct (exchange _ s5) as [m4 s4] eqn:E4.
  pose proof (decode_exchange _ _ _ _ _ _ _ _ _ Q5 E4) as Q4.
  destruct (exchange _ s4) as [m3 s3] eqn:E3.
  pose proof (decode_exchange _ _ _ _ _ _ _ _ _ Q4 E3) as Q3.
  destruct (exchange _ s3) as [m2 s2] eqn:E2.
  pose proof (decode_exchange _ _ _ _ _ _ _ _ _ Q3 E2) as Q2.
  destruct (exchange _ s2) as [m1 s1] eqn:E1.
  pose proof (decode_exchange _ _ _ _ _ _ _ _ _ Q2 E1) as Q1.
  destruct (exchange _ s1) as [m0 s0] eqn:E0.
  pose proof (decode_exchange _ _ _ _ _ _ _ _ _ Q1 E0) as Q0.
  cbn [snd]. rewrite Q0. cbn [bus_step app length Nat.eqb].
  rewrite <- byte_of_bits_u8. reflexivity.
Qed.

Lemma decode_cs_low (s : L) items line bits bytes ok :
  decode (log_of s) = mkBus items false line bits bytes ok ->
  decode (log_of (cs_low s)) = mkBus items true line [] [] ok.
Proof.
  intros Hst. rewrite log_cs_low. cbn [decode]. rewrite Hst. reflexivity.
Qed.

Lemma decode_cs_high (s : L) items line bytes ok :
  decode (log_of s) = mkBus items true line [] bytes ok ->
  decode (log_of (cs_high s))
  = mkBus (items ++ [Frame bytes]) false line [] [] ok.
Proof.
  intros Hst. rewrite log_cs_high. cbn [decode]. rewrite Hst. reflexivity.
Qed.
End TransferTrace.

Lemma exchange_all_echo (bits : list bool) :
  forall s : Echo, fst (exchange_all bits s) = bits.
Proof.
  induction bits as [| b bits IH]; intros s; cbn [exchange_all].
  - reflexivity.
  - change (exchange b s) with (b, b). cbv iota.
    specialize (IH b). destruct (exchange_all bits _) as [ms s2].
    cbn [fst] in *. congruence.
Qed.

Lemma transferByte_echo (x : Z) (s : Echo) :
  0 <= x < 256 -> fst (transferByte x s) = x.
Proof.
  intros Hx. rewrite transferByte_rounds. cbn [fst].
  rewrite exchange_all_echo. apply (byte_of_bits_of_byte x Hx).
Qed.

(** ** Frames of the command layer *)

Lemma emits_refl (st : Bus) : bus_sel st = false -> emits st st [].
Proof. intros Hsel. unfold emits. rewrite app_nil_r. auto. Qed.

Lemma emits_trans (st1 st2 st3 : Bus) (a b : list Item) :
  emits st1 st2 a -> emits st2 st3 b -> emits st1 st3 (a ++ b).
Proof.
  unfold emits. intros (S1 & S2 & O12 & I12) (_ & S3 & O23 & I23).
  repeat split; try assumption.
  - congruence.
  - rewrite I23, I12, app_assoc. reflexivity.
Qed.

Lemma emits_sel (st st' : Bus) (its : list Item) :
  emits st st' its -> bus_sel st' = false.
Proof. unfold emits. tauto. Qed.

Section Frames.
Context {L : Type} `{Logging L}.

(** A run of [transferByte] calls inside a frame appends its bytes. *)
Lemma decode_transfer_run (byte_at : Z -> Z) (l : list Z) :
  forall (s : L) items line bytes ok,
    decode (log_of s) = mkBus items true line [] bytes ok ->
    exists line',
      decode
        (log_of (fold_left (fun s i => snd (transferByte (byte_at i) s)) l s))
      = mkBus items true line' [] (bytes ++ map (fun i => u8 (byte_at i)) l)
          ok.
Proof.
  induction l as [| i l IH]; intros s items line bytes ok Hst.
  - exists line. cbn. rewrite app_nil_r. exact Hst.
  - cbn [fold_left map].
    destruct (transferByte (byte_at i) s) as [r s1] eqn:E.
    pose proof (decode_transferByte _ _ _ _ _ _ _ _ Hst E) as Q1.
    destruct (IH s1 _ _ _ _ Q1) as [line' IH']. exists line'.
    cbn [snd]. rewrite IH', <- app_assoc. reflexivity.
Qed.

Lemma writeEnable_emits (s : L) :
  bus_sel (decode (log_of s)) = false ->
  emits (decode (log_of s)) (decode (log_of (writeEnable s))) [wren_frame].
Proof.
  intros Hsel.
  destruct (decode (log_of s)) as [items sel line bits bytes ok] eqn:Hst.
  cbn in Hsel. subst sel. unfold writeEnable.
  pose proof (decode_cs_low _ _ _ _ _ _ Hst) as Q1.
  destruct (transferByte _ _) as [r s1] eqn:E1.
  pose proof (decode_transferByte _ _ _ _ _ _ _ _ Q1 E1) as Q2.
  rewrite (decode_cs_high _ _ _ _ _ Q2). repeat split.
Qed.

Lemma readStatus_emits (s : L) :
  bus_sel (decode (log_of s)) = false ->
  emits (decode (log_of s)) (decode (log_of (snd (readStatus s)))) [rdsr_frame].
Proof.
  intros Hsel.
  destruct (decode (log_of s)) as [items sel line bits bytes ok] eqn:Hst.
  cbn in Hsel. subst sel. unfold readStatus.
  pose proof (decode_cs_low _ _ _ _ _ _ Hst) as Q1.
  destruct (transferByte _ _) as [r1 s1] eqn:E1.
  pose proof (decode_transferByte _ _ _ _ _ _ _ _ Q1 E1) as Q2.
  destruct (transferByte _ s1) as [r2 s2] eqn:E2.
  pose proof (decode_transferByte _ _ _ _ _ _ _ _ Q2 E2) as Q3.
  cbn [snd]. rewrite (decode_cs_high _ _ _ _ _ Q3). repeat split.
Qed.

Lemma readByte_emits (address : Z) (s : L) :
  bus_sel (decode (log_of s)) = false ->
  emits (decode (log_of s)) (decode (log_of (snd (readByte address s))))
    [read_frame address 1].
Proof.
  intros Hsel.
  destruct (decode (log_of s)) as [items sel line bits bytes ok] eqn:Hst.
  cbn in Hsel. subst sel. unfold readByte.
  pose proof (decode_cs_low _ _ _ _ _ _ Hst) as Q1.
  destruct (transferByte _ _) as [r1 s1] eqn:E1.
  pose proof (decode_transferByte _ _ _ _ _ _ _ _ Q1 E1) as Q2.
  destruct (transferByte _ s1) as [r2 s2] eqn:E2.
  pose proof (decode_transferByte _ _ _ _ _ _ _ _ Q2 E2) as Q3.
  destruct (transferByte _ s2) as [r3 s3] eqn:E3.
  pose proof (decode_transferByte _ _ _ _ _ _ _ _ Q3 E3) as Q4.
  destruct (transferByte _ s3) as [r4 s4] eqn:E4.
  pose proof (decode_transferByte _ _ _ _ _ _ _ _ Q4 E4) as Q5.
  cbn [snd]. rewrite (decode_cs_high _ _ _ _ _ Q5).
  unfold emits, read_frame, addr_hi, addr_lo. cbn [bus_sel bus_ok bus_items].
  rewrite !(u8_small (u8 _)) by apply u8_range. repeat split.
Qed.

Lemma delay_us_emits (us : Z) (s : L) :
  bus_sel (decode (log_of s)) = false ->
  emits (decode (log_of s)) (decode (log_of (delay_us us s))) [Delay us].
Proof.
  intros Hsel.
  destruct (decode (log_of s)) as [items sel line bits bytes ok] eqn:Hst.
  cbn in Hsel. subst sel. rewrite log_delay_us. cbn [decode].
  rewrite Hst. repeat split.
Qed.
End Frames.

(** ** Waiting for the end of a write cycle *)

Section Wait.
Context {D : Type} `{SPIBitBangingDriver D}.

Lemma poll_state_shift (k : nat) (s : D) :
  poll_state k (delay_us 10 (snd (readStatus s))) = poll_state (S k) s.
Proof.
  induction k as [| k IH]; [reflexivity |].
  cbn [poll_state] in *. rewrite IH. reflexivity.
Qed.

Lemma wip_at_shift (k : nat) (s : D) :
  wip_at k (delay_us 10 (snd (readStatus s))) = wip_at (S k) s.
Proof. unfold wip_at. rewrite poll_state_shift. reflexivity. Qed.

(** [waitUntilWriteComplete] returns at the first poll that sees WIP
    clear, in the state that poll leaves; every poll before it saw WIP
    set and was followed by a delay of 10 microseconds. *)
Lemma waitUntilWriteComplete_first_clear (fuel : nat) :
  forall s s' : D,
    waitUntilWriteComplete fuel s = Some s' <->
    exists k : nat,
      (k < fuel)%nat /\
      (forall j : nat, (j < k)%nat -> wip_at j s = true) /\
      wip_at k s = false /\
      s' = snd (readStatus (poll_state k s)).
Proof.
  induction fuel as [| fuel IH]; intros s s'; cbn [waitUntilWriteComplete].
  - split; [discriminate | intros (k & Hk & _); lia].
  - destruct (readStatus s) as [status s1] eqn:Ers.
    rewrite wip_test.
    assert (Hw0 : wip_at 0 s = Z.testbit status 0)
      by (unfold wip_at; cbn [poll_state]; rewrite Ers; reflexivity).
    assert (Hs1 : s1 = snd (readStatus s)) by (rewrite Ers; reflexivity).
    destruct (Z.testbit status 0) eqn:Ewip; cbn [negb].
    + rewrite IH. subst s1. split.
      * intros (k & Hk & Hbusy & Hclear & Hs').
        exists (S k). repeat split.
        -- lia.
        -- intros [| j] Hj; [exact Hw0 |].
           rewrite <- wip_at_shift. apply Hbusy. lia.
        -- rewrite <- wip_at_shift. exact Hclear.
        -- rewrite <- poll_state_shift. exact Hs'.
      * intros (k & Hk & Hbusy & Hclear & Hs').
        destruct k as [| k]; [congruence |].
        exists k. repeat split.
        -- lia.
        -- intros j Hj. rewrite wip_at_shift. apply Hbusy. lia.
        -- rewrite wip_at_shift. exact Hclear.
        -- rewrite poll_state_shift. exact Hs'.
    + split.
      * intros [= <-]. exists O. repeat split.
        -- lia.
        -- intros j Hj. lia.
        -- exact Hw0.
        -- exact Hs1.
      * intros (k & Hk & Hbusy & Hclear & Hs').
        destruct k as [| k].
        -- cbn [poll_state] in Hs'. congruence.
        -- specialize (Hbusy O ltac:(lia)). congruence.
Qed.
End Wait.

Lemma poll_items_counts (k : nat) :
  status_reads (poll_items k) = S k /\ delays (poll_items k) = k.
Proof.
  unfold status_reads, delays. induction k as [| k [IHr IHd]].
  - split; reflexivity.
  - cbn [poll_items filter is_rdsr is_delay rdsr_frame] in *.
    change (opcode_byte RDSR =? opcode_byte RDSR) with true. cbn [length].
    split; congruence.
Qed.

Section WaitTrace.
Context {L : Type} `{Logging L}.

(** On the bus a wait is a run of status polls, each busy one followed
    by its delay. *)
Lemma waitUntilWriteComplete_emits (fuel : nat) :
  forall s s' : L,
    bus_sel (decode (log_of s)) = false ->
    waitUntilWriteComplete fuel s = Some s' ->
    exists k : nat,
      (k < fuel)%nat /\
      emits (decode (log_of s)) (decode (log_of s')) (poll_items k).
Proof.
  induction fuel as [| fuel IH]; intros s s' Hsel;
    cbn [waitUntilWriteComplete]; [discriminate |].
  pose proof (readStatus_emits s Hsel) as Hrs.
  destruct (readStatus s) as [status s1]. cbn [snd] in Hrs.
  destruct (Z.land status WIP_MASK =? 0).
  - intros [= <-]. exists O. split; [lia | exact Hrs].
  - intros Hw.
    pose proof (delay_us_emits 10 s1 (emits_sel _ _ _ Hrs)) as Hd.
    destruct (IH _ _ (emits_sel _ _ _ Hd) Hw) as (k & Hk & Hem).
    exists (S k). split; [lia |].
    apply (emits_trans _ _ _ _ _ Hrs (emits_trans _ _ _ _ _ Hd Hem)).
Qed.
End WaitTrace.

(** ** Write-enable before every write, chip select in brackets *)

Lemma guarded_weaken (items : list Item) (prev : bool) :
  guarded false items = true -> guarded prev items = true.
Proof.
  destruct items as [| it rest]; [reflexivity |]. cbn [guarded].
  rewrite !andb_true_iff, !orb_true_iff. intros [[Hw | Hf] Hr];
    [auto | discriminate].
Qed.

Lemma guarded_app (a b : list Item) :
  forall prev : bool,
    guarded prev a = true -> guarded false b = true ->
    guarded prev (a ++ b) = true.
Proof.
  induction a as [| it a IH]; intros prev Ha Hb; cbn [app guarded] in *.
  - now apply guarded_weaken.
  - apply andb_true_iff in Ha as [Hit Ha]. rewrite Hit. cbn [andb]. auto.
Qed.

Lemma guarded_poll_items (k : nat) (prev : bool) :
  guarded prev (poll_items k) = true.
Proof.
  revert prev. induction k as [| k IH]; intros prev; [reflexivity |].
  cbn [poll_items guarded]. rewrite IH. reflexivity.
Qed.

Lemma tidy_refl (st : Bus) : bus_sel st = false -> tidy st st.
Proof. intros Hsel. exists []. split; [now apply emits_refl | reflexivity]. Qed.

Lemma tidy_trans (st1 st2 st3 : Bus) :
  tidy st1 st2 -> tidy st2 st3 -> tidy st1 st3.
Proof.
  intros (a & Ha & Ga) (b & Hb & Gb). exists (a ++ b). split.
  - eapply emits_trans; eassumption.
  - now apply guarded_app.
Qed.

Lemma tidy_sel (st st' : Bus) : tidy st st' -> bus_sel st' = false.
Proof. intros (its & Hem & _). eapply emits_sel, Hem. Qed.

Lemma tidy_ok (st st' : Bus) : tidy st st' -> bus_ok st' = bus_ok st.
Proof. intros (its & (_ & _ & Hok & _) & _). exact Hok. Qed.

Section Tidy.
Context {L : Type} `{Logging L}.
Variable size_bits : Z.

Lemma readByte_tidy (address : Z) (s : L) :
  bus_sel (decode (log_of s)) = false ->
  tidy (decode (log_of s)) (decode (log_of (snd (readByte address s)))).
Proof.
  intros Hsel. exists [read_frame address 1].
  split; [now apply readByte_emits | reflexivity].
Qed.

(** The WRITE frame of a chunk: opcode, address, and the bytes sent by
    the inner [for] loop. *)
Lemma write_frame_emits (address : Z) (byte_at : Z -> Z) (l : list Z)
    (s : L) :
  bus_sel (decode (log_of s)) = false ->
  emits (decode (log_of s))
    (decode
       (log_of
          (let s := cs_low s in
           let '(_, s) := transferByte (opcode_byte WRITE) s in
           let '(_, s) :=
             transferByte (u8 (Z.land (Z.shiftr address 8) 0xFF)) s in
           let '(_, s) := transferByte (u8 (Z.land address 0xFF)) s in
           let s :=
             fold_left (fun s i => snd (transferByte (byte_at i) s)) l s in
           cs_high s)))
    [Frame (opcode_byte WRITE :: addr_hi address :: addr_lo address
              :: map (fun i => u8 (byte_at i)) l)].
Proof.
  intros Hsel.
  destruct (decode (log_of s)) as [items sel line bits bytes ok] eqn:Hst.
  cbn in Hsel. subst sel. cbv zeta.
  pose proof (decode_cs_low _ _ _ _ _ _ Hst) as Q1.
  destruct (transferByte _ _) as [r1 s1] eqn:E1.
  pose proof (decode_transferByte _ _ _ _ _ _ _ _ Q1 E1) as Q2.
  destruct (transferByte _ s1) as [r2 s2] eqn:E2.
  pose proof (decode_transferByte _ _ _ _ _ _ _ _ Q2 E2) as Q3.
  destruct (transferByte _ s2) as [r3 s3] eqn:E3.
  pose proof (decode_transferByte _ _ _ _ _ _ _ _ Q3 E3) as Q4.
  destruct (decode_transfer_run byte_at l _ _ _ _ _ Q4) as [line' Q5].
  rewrite (decode_cs_high _ _ _ _ _ Q5).
  unfold emits, addr_hi, addr_lo. cbn [bus_sel bus_ok bus_items app].
  rewrite !(u8_small (u8 _)) by apply u8_range. repeat split.
Qed.

Lemma writeByte_emits (fuel : nat) (address value : Z) (s s' : L) :
  bus_sel (decode (log_of s)) = false ->
  writeByte fuel address value s = Some s' ->
  exists k : nat,
    (k < fuel)%nat /\
    emits (decode (log_of s)) (decode (log_of s'))
      (chunk_items (address, [value], k)).
Proof.
  intros Hsel Hw. unfold writeByte in Hw.
  pose proof (writeEnable_emits s Hsel) as He.
  pose proof (write_frame_emits address (fun _ => value) [0] _
                (emits_sel _ _ _ He)) as Hf.
  cbn [fold_left map] in Hf.
  destruct (transferByte _ (cs_low _)) as [r1 s1].
  destruct (transferByte _ s1) as [r2 s2].
  destruct (transferByte _ s2) as [r3 s3].
  destruct (transferByte value s3) as [r4 s4]. cbn [snd] in Hf.
  destruct (waitUntilWriteComplete_emits _ _ _ (emits_sel _ _ _ Hf) Hw)
    as (k & Hk & Hp).
  exists k. split; [exact Hk |].
  apply (emits_trans _ _ _ _ _ He (emits_trans _ _ _ _ _ Hf Hp)).
Qed.

Lemma chunk_items_guarded (c : Z * list Z * nat) :
  wren_guarded (chunk_items c) = true.
Proof.
  destruct c as [[address data] k]. unfold wren_guarded.
  cbn [chunk_items guarded]. rewrite guarded_poll_items. reflexivity.
Qed.

Lemma writeByte_tidy (fuel : nat) (address value : Z) (s s' : L) :
  bus_sel (decode (log_of s)) = false ->
  writeByte fuel address value s = Some s' ->
  tidy (decode (log_of s)) (decode (log_of s')).
Proof.
  intros Hsel Hw.
  destruct (writeByte_emits _ _ _ _ _ Hsel Hw) as (k & _ & Hem).
  eexists. split; [exact Hem | apply chunk_items_guarded].
Qed.
End Tidy.

Section TidyOperations.
Context {L : Type} `{Logging L}.
Variable size_bits : Z.

Lemma decode_readArray_run (l : list Z) :
  forall (buf : list Z) (s : L) items line bytes ok,
    decode (log_of s) = mkBus items true line [] bytes ok ->
    exists line',
      decode (log_of (snd (fold_left readArray_body l (buf, s))))
      = mkBus items true line' [] (bytes ++ repeat 0xFF (length l)) ok.
Proof.
  induction l as [| i l IH]; intros buf s items line bytes ok Hst.
  - exists line. cbn. rewrite app_nil_r. exact Hst.
  - cbn [fold_left length repeat]. unfold readArray_body at 2.
    destruct (transferByte 255 s) as [v s1] eqn:E.
    pose proof (decode_transferByte _ _ _ _ _ _ _ _ Hst E) as Q1.
    destruct (IH (store buf i v) s1 _ _ _ _ Q1) as [line' IH'].
    exists line'. rewrite IH', <- app_assoc. reflexivity.
Qed.

Lemma readArray_tidy (address : Z) (buffer : option (list Z)) (length : Z)
    (s : L) :
  bus_sel (decode (log_of s)) = false ->
  tidy (decode (log_of s))
    (decode (log_of (snd (readArray address buffer length s)))).
Proof.
  intros Hsel. unfold readArray.
  destruct buffer as [buf |]; [| now apply tidy_refl].
  destruct (length =? 0); [now apply tidy_refl |].
  exists [read_frame address (List.length (upto length))].
  split; [| reflexivity].
  destruct (decode (log_of s)) as [items sel line bits bytes ok] eqn:Hst.
  cbn in Hsel. subst sel.
  pose proof (decode_cs_low _ _ _ _ _ _ Hst) as Q1.
  destruct (transferByte _ _) as [r1 s1] eqn:E1.
  pose proof (decode_transferByte _ _ _ _ _ _ _ _ Q1 E1) as Q2.
  destruct (transferByte _ s1) as [r2 s2] eqn:E2.
  pose proof (decode_transferByte _ _ _ _ _ _ _ _ Q2 E2) as Q3.
  destruct (transferByte _ s2) as [r3 s3] eqn:E3.
  pose proof (decode_transferByte _ _ _ _ _ _ _ _ Q3 E3) as Q4.
  destruct (decode_readArray_run (upto length) buf _ _ _ _ _ Q4)
    as [line' Q5].
  destruct (fold_left readArray_body _ _) as [buf' s4].
  cbn [snd] in *. rewrite (decode_cs_high _ _ _ _ _ Q5).
  unfold emits, read_frame, addr_hi, addr_lo.
  cbn [bus_sel bus_ok bus_items app].
  rewrite !(u8_small (u8 _)) by apply u8_range. repeat split.
Qed.

Lemma waitUntilWriteComplete_tidy (fuel : nat) (s s' : L) :
  bus_sel (decode (log_of s)) = false ->
  waitUntilWriteComplete fuel s = Some s' ->
  tidy (decode (log_of s)) (decode (log_of s')).
Proof.
  intros Hsel Hw.
  destruct (waitUntilWriteComplete_emits _ _ _ Hsel Hw) as (k & _ & Hem).
  exists (poll_items k). split; [exact Hem | apply guarded_poll_items].
Qed.

Lemma writeArray_loop_tidy (buffer : list Z) (fuel : nat) :
  forall (address offset remaining : Z) (s s' : L),
    bus_sel (decode (log_of s)) = false ->
    writeArray_loop size_bits fuel address buffer offset remaining s
    = Some s' ->
    tidy (decode (log_of s)) (decode (log_of s')).
Proof.
  induction fuel as [| fuel IH]; intros address offset remaining s s' Hsel;
    cbn [writeArray_loop].
  - destruct (0 <? remaining); [discriminate |].
    intros [= <-]. now apply tidy_refl.
  - destruct (0 <? remaining); [| intros [= <-]; now apply tidy_refl].
    cbv zeta.
    set (chunk := if remaining <? PAGE_SIZE - address mod PAGE_SIZE
                  then remaining else PAGE_SIZE - address mod PAGE_SIZE).
    pose proof (writeEnable_emits s Hsel) as He.
    pose proof (write_frame_emits address
                  (fun i => load buffer (usize size_bits (offset + i)))
                  (upto chunk) _ (emits_sel _ _ _ He)) as Hf.
    cbv zeta in Hf.
    destruct (transferByte _ (cs_low _)) as [r1 s1].
    destruct (transferByte _ s1) as [r2 s2].
    destruct (transferByte _ s2) as [r3 s3].
    change (fun (s0 : L) (i : Z) =>
              snd (transferByte
                     (load buffer (usize size_bits (offset + i))) s0))
      with (writeArray_body size_bits buffer offset) in Hf.
    destruct (waitUntilWriteComplete fuel _) as [s4 |] eqn:Hw;
      [| discriminate].
    intros Hloop.
    pose proof (waitUntilWriteComplete_tidy _ _ _ (emits_sel _ _ _ Hf) Hw)
      as Hp.
    pose proof (IH _ _ _ _ _ (tidy_sel _ _ Hp) Hloop) as Hrest.
    refine (tidy_trans _ _ _ _ (tidy_trans _ _ _ Hp Hrest)).
    eexists. split.
    + apply (emits_trans _ _ _ _ _ He Hf).
    + reflexivity.
Qed.

Lemma writeArray_tidy (fuel : nat) (address : Z)
    (buffer : option (list Z)) (length : Z) (s s' : L) :
  bus_sel (decode (log_of s)) = false ->
  writeArray size_bits fuel address buffer length s = Some s' ->
  tidy (decode (log_of s)) (decode (log_of s')).
Proof.
  intros Hsel. unfold writeArray.
  destruct buffer as [buf |]; [| intros [= <-]; now apply tidy_refl].
  destruct (length =? 0); [intros [= <-]; now apply tidy_refl |].
  now apply writeArray_loop_tidy.
Qed.

Lemma readBits_loop_tidy (bitOffset bitCount : Z) (fuel : nat) :
  forall (bits_read byte_addr result r : Z) (s s' : L),
    bus_sel (decode (log_of s)) = false ->
    readBits_loop size_bits fuel bitOffset bitCount bits_read byte_addr
      result s = Some (r, s') ->
    tidy (decode (log_of s)) (decode (log_of s')).
Proof.
  induction fuel as [| fuel IH];
    intros bits_read byte_addr result r s s' Hsel; cbn [readBits_loop].
  - destruct (bits_read <? bitCount); [discriminate |].
    intros [= _ <-]. now apply tidy_refl.
  - destruct (bits_read <? bitCount);
      [| intros [= _ <-]; now apply tidy_refl].
    pose proof (readByte_tidy byte_addr s Hsel) as Hr.
    destruct (readByte byte_addr s) as [byte s1]. cbn [snd] in Hr.
    cbv zeta. intros Hloop.
    exact (tidy_trans _ _ _ Hr (IH _ _ _ _ _ _ (tidy_sel _ _ Hr) Hloop)).
Qed.

Lemma readBits_tidy (fuel : nat) (address bitOffset bitCount r : Z)
    (s s' : L) :
  bus_sel (decode (log_of s)) = false ->
  readBits size_bits fuel address bitOffset bitCount s = Some (r, s') ->
  tidy (decode (log_of s)) (decode (log_of s')).
Proof.
  intros Hsel. unfold readBits.
  destruct ((bitCount =? 0) || (32 <? bitCount)).
  - intros [= _ <-]. now apply tidy_refl.
  - now apply readBits_loop_tidy.
Qed.

Lemma writeBits_loop_tidy (bitOffset bitCount value : Z) (fuel : nat) :
  forall (bits_written byte_addr : Z) (s s' : L),
    bus_sel (decode (log_of s)) = false ->
    writeBits_loop size_bits fuel bitOffset bitCount value bits_written
      byte_addr s = Some s' ->
    tidy (decode (log_of s)) (decode (log_of s')).
Proof.
  induction fuel as [| fuel IH]; intros bits_written byte_addr s s' Hsel;
    cbn [writeBits_loop].
  - destruct (bits_written <? bitCount); [discriminate |].
    intros [= <-]. now apply tidy_refl.
  - destruct (bits_written <? bitCount);
      [| intros [= <-]; now apply tidy_refl].
    pose proof (readByte_tidy byte_addr s Hsel) as Hr.
    destruct (readByte byte_addr s) as [byte s1]. cbn [snd] in Hr.
    cbv zeta.
    destruct (writeByte fuel byte_addr _ s1) as [s2 |] eqn:Hw;
      [| discriminate].
    intros Hloop.
    pose proof (writeByte_tidy _ _ _ _ _ (tidy_sel _ _ Hr) Hw) as Hwt.
    exact (tidy_trans _ _ _ Hr
             (tidy_trans _ _ _ Hwt
                (IH _ _ _ _ (tidy_sel _ _ Hwt) Hloop))).
Qed.

Lemma writeBits_tidy (fuel : nat) (address bitOffset bitCount value : Z)
    (s s' : L) :
  bus_sel (decode (log_of s)) = false ->
  writeBits size_bits fuel address bitOffset bitCount value s = Some s' ->
  tidy (decode (log_of s)) (decode (log_of s')).
Proof.
  intros Hsel. unfold writeBits.
  destruct ((bitCount =? 0) || (32 <? bitCount)).
  - intros [= <-]. now apply tidy_refl.
  - now apply writeBits_loop_tidy.
Qed.

(** Every public operation that returns leaves the bus tidy. *)
Lemma run_op_tidy (fuel : nat) (op : Op) (s s' : L) :
  bus_sel (decode (log_of s)) = false ->
  run_op size_bits fuel op s = Some s' ->
  tidy (decode (log_of s)) (decode (log_of s')).
Proof.
  intros Hsel. destruct op; cbn [run_op].
  - intros [= <-]. now apply readByte_tidy.
  - now apply writeByte_tidy.
  - intros [= <-]. now apply readArray_tidy.
  - now apply writeArray_tidy.
  - unfold readBit.
    destruct (readBits size_bits fuel address bit 1 s) as [[r s1] |] eqn:Hr;
      [| discriminate].
    intros [= <-]. eapply readBits_tidy; eassumption.
  - now apply writeBits_tidy.
  - destruct (readBits size_bits fuel address bitOffset bitCount s)
      as [[r s1] |] eqn:Hr; [| discriminate].
    intros [= <-]. eapply readBits_tidy; eassumption.
  - now apply writeBits_tidy.
Qed.

Lemma run_ops_tidy (fuel : nat) (ops : list Op) :
  forall s s' : L,
    bus_sel (decode (log_of s)) = false ->
    run_ops size_bits fuel ops s = Some s' ->
    tidy (decode (log_of s)) (decode (log_of s')).
Proof.
  induction ops as [| op ops IH]; intros s s' Hsel; cbn [run_ops].
  - intros [= <-]. now apply tidy_refl.
  - destruct (run_op size_bits fuel op s) as [s1 |] eqn:Hop;
      [| discriminate].
    intros Hrest. pose proof (run_op_tidy _ _ _ _ Hsel Hop) as Ht.
    exact (tidy_trans _ _ _ Ht (IH _ _ (tidy_sel _ _ Ht) Hrest)).
Qed.
End TidyOperations.

(** ** Page chunks of [writeArray] *)

Lemma skipn_cons_nth {A : Type} (d : A) (l : list A) :
  forall o : nat, (o < length l)%nat -> skipn o l = nth o l d :: skipn (S o) l.
Proof.
  induction l as [| x l IH]; intros o Ho; cbn [length] in Ho; [lia |].
  destruct o as [| o]; [reflexivity |].
  cbn [skipn nth]. rewrite (IH o) by lia. reflexivity.
Qed.

Lemma map_nth_seq {A : Type} (d : A) (l : list A) (n : nat) :
  forall o : nat,
    (o + n <= length l)%nat ->
    map (fun j => nth (o + j) l d) (seq 0 n) = firstn n (skipn o l).
Proof.
  induction n as [| n IH]; intros o Hlen; [reflexivity |].
  cbn [seq map]. rewrite <- seq_shift, map_map.
  rewrite (skipn_cons_nth d) by lia. cbn [firstn].
  rewrite Nat.add_0_r. f_equal.
  rewrite <- (IH (S o)) by lia. apply map_ext. intros j.
  f_equal. lia.
Qed.

Lemma usize_small (size_bits x : Z) :
  0 <= x < 2 ^ size_bits -> usize size_bits x = x.
Proof. intros Hx. unfold usize. now apply Z.mod_small. Qed.

Lemma chunk_bytes (size_bits : Z) (buffer : list Z) (offset chunk : Z) :
  0 <= offset -> 0 <= chunk ->
  offset + chunk <= Z.of_nat (length buffer) ->
  Z.of_nat (length buffer) < 2 ^ size_bits ->
  map (fun i => u8 (load buffer (usize size_bits (offset + i)))) (upto chunk)
  = map u8 (firstn (Z.to_nat chunk) (skipn (Z.to_nat offset) buffer)).
Proof.
  intros Ho Hc Hlen Hsz.
  rewrite <- (map_nth_seq 0 buffer (Z.to_nat chunk) (Z.to_nat offset)) by lia.
  unfold upto. rewrite !map_map. apply map_ext_in. intros j Hj.
  apply in_seq in Hj. unfold load. rewrite usize_small by lia.
  do 2 f_equal. lia.
Qed.

Lemma page_chunks_from_steps (steps1 : nat) :
  forall (steps2 : nat) (address : Z) (data : list Z),
    (length data <= steps1)%nat -> (length data <= steps2)%nat ->
    page_chunks_from steps1 address data
    = page_chunks_from steps2 address data.
Proof.
  induction steps1 as [| steps1 IH]; intros steps2 address data Hlen1 Hlen2.
  - destruct data; [destruct steps2; reflexivity | cbn in Hlen1; lia].
  - destruct data as [| x data]; [destruct steps2; reflexivity |].
    destruct steps2 as [| steps2]; [cbn in Hlen2; lia |].
    cbn [page_chunks_from]. f_equal.
    set (chunk := Z.min _ _).
    assert (Hchunk : 1 <= chunk).
    { subst chunk. pose proof (Z.mod_pos_bound address 16 ltac:(lia)).
      cbn [length]. lia. }
    apply IH; rewrite length_skipn; cbn [length] in *; lia.
Qed.

Lemma page_chunks_from_enough (steps : nat) (address : Z) (data : list Z) :
  (length data <= steps)%nat ->
  page_chunks_from steps address data = page_chunks address data.
Proof.
  intros Hlen. unfold page_chunks. apply page_chunks_from_steps; lia.
Qed.

Lemma page_chunks_cons (address : Z) (data : list Z) :
  data <> [] ->
  let chunk := Z.min (Z.of_nat (length data)) (16 - address mod 16) in
  page_chunks address data
  = (address, firstn (Z.to_nat chunk) data)
      :: page_chunks (address + chunk) (skipn (Z.to_nat chunk) data).
Proof.
  intros Hne chunk. unfold page_chunks at 1.
  destruct data as [| x data]; [congruence |].
  cbn [length page_chunks_from]. fold chunk. f_equal.
  apply page_chunks_from_enough.
  assert (Hchunk : 1 <= chunk).
  { subst chunk. pose proof (Z.mod_pos_bound address 16 ltac:(lia)).
    cbn [length]. lia. }
  rewrite length_skipn. cbn [length]. lia.
Qed.

Lemma addr_lo_mod (address : Z) : addr_lo address = address mod 256.
Proof.
  unfold addr_lo, u8. change 255 with (Z.ones 8).
  rewrite Z.land_ones by lia. change (2 ^ 8) with 256.
  apply Z.mod_mod. lia.
Qed.

Lemma addr_hi_mod (address : Z) : addr_hi address = (address / 256) mod 256.
Proof.
  unfold addr_hi, u8. change 255 with (Z.ones 8).
  rewrite Z.land_ones, Z.shiftr_div_pow2 by lia. change (2 ^ 8) with 256.
  apply Z.mod_mod. lia.
Qed.

Lemma usize_low16 (size_bits a b : Z) :
  16 <= size_bits -> usize size_bits a = usize size_bits b ->
  a mod 65536 = b mod 65536.
Proof.
  unfold usize. intros Hsz Hab.
  assert (Hdiv : (65536 | 2 ^ size_bits)).
  { exists (2 ^ (size_bits - 16)). change 65536 with (2 ^ 16).
    rewrite <- Z.pow_add_r by lia. f_equal. lia. }
  rewrite <- (Z.mod_mod_divide a _ _ Hdiv), <- (Z.mod_mod_divide b _ _ Hdiv).
  congruence.
Qed.

Lemma usize_same_frame (size_bits a b : Z) :
  16 <= size_bits -> usize size_bits a = usize size_bits b ->
  addr_hi a = addr_hi b /\ addr_lo a = addr_lo b /\ a mod 16 = b mod 16.
Proof.
  intros Hsz Hab. pose proof (usize_low16 _ _ _ Hsz Hab) as H16.
  rewrite !addr_hi_mod, !addr_lo_mod.
  repeat split; Z.div_mod_to_equations; lia.
Qed.

Lemma usize_add_l (size_bits a b c : Z) :
  usize size_bits a = usize size_bits b ->
  usize size_bits (usize size_bits (a + c)) = usize size_bits (b + c).
Proof.
  unfold usize. intros Hab.
  destruct (Z.eq_dec (2 ^ size_bits) 0) as [E | E].
  - rewrite E, !Z.mod_0_r in *. congruence.
  - rewrite Z.mod_mod by exact E.
    rewrite <- (Z.add_mod_idemp_l a), Hab, Z.add_mod_idemp_l by exact E.
    reflexivity.
Qed.

Section WriteArrayChunks.
Context {L : Type} `{Logging L}.
Variable size_bits : Z.
Hypothesis size_bits_16 : 16 <= size_bits.

Lemma writeArray_loop_chunks (buffer : list Z) (fuel : nat) :
  Z.of_nat (length buffer) < 2 ^ size_bits ->
  forall (address spec_address offset : Z) (s s' : L),
    0 <= offset <= Z.of_nat (length buffer) ->
    usize size_bits address = usize size_bits spec_address ->
    bus_sel (decode (log_of s)) = false ->
    writeArray_loop size_bits fuel address buffer offset
      (Z.of_nat (length buffer) - offset) s = Some s' ->
    let chunks :=
      page_chunks spec_address (skipn (Z.to_nat offset) buffer) in
    exists polls : list nat,
      length polls = length chunks /\
      emits (decode (log_of s)) (decode (log_of s'))
        (flat_map chunk_items (combine chunks polls)).
Proof.
  intros Hsz. induction fuel as [| fuel IH];
    intros address spec_address offset s s' Hoff Haddr Hsel;
    cbn [writeArray_loop].
  - destruct (Z.ltb_spec 0 (Z.of_nat (length buffer) - offset))
      as [Hrem | Hrem];
      [discriminate |].
    intros [= <-]. exists [].
    rewrite skipn_all2 by lia. split; [reflexivity |].
    now apply emits_refl.
  - destruct (Z.ltb_spec 0 (Z.of_nat (length buffer) - offset))
      as [Hrem | Hrem].
    2:{ intros [= <-]. exists [].
        rewrite skipn_all2 by lia. split; [reflexivity |].
        now apply emits_refl. }
    cbv zeta.
    destruct (usize_same_frame _ _ _ size_bits_16 Haddr) as (Hhi & Hlo & Hm16).
    set (remaining := Z.of_nat (length buffer) - offset) in *.
    set (rest := skipn (Z.to_nat offset) buffer).
    assert (Hrest : Z.of_nat (length rest) = remaining).
    { subst rest remaining. rewrite length_skipn. lia. }
    set (chunk := if remaining <? PAGE_SIZE - address mod PAGE_SIZE
                  then remaining else PAGE_SIZE - address mod PAGE_SIZE).
    assert (Hchunk : chunk
                     = Z.min (Z.of_nat (length rest))
                         (16 - spec_address mod 16)).
    { subst chunk. unfold PAGE_SIZE. rewrite Hrest, Hm16.
      destruct (Z.ltb_spec remaining (16 - spec_address mod 16)); lia. }
    assert (Hchunk1 : 1 <= chunk <= remaining).
    { pose proof (Z.mod_pos_bound spec_address 16 ltac:(lia)). lia. }
    pose proof (writeEnable_emits s Hsel) as He.
    pose proof (write_frame_emits address
                  (fun i => load buffer (usize size_bits (offset + i)))
                  (upto chunk) _ (emits_sel _ _ _ He)) as Hf.
    cbv zeta in Hf.
    destruct (transferByte _ (cs_low _)) as [r1 s1].
    destruct (transferByte _ s1) as [r2 s2].
    destruct (transferByte _ s2) as [r3 s3].
    change (fun (s0 : L) (i : Z) =>
              snd (transferByte
                     (load buffer (usize size_bits (offset + i))) s0))
      with (writeArray_body size_bits buffer offset) in Hf.
    destruct (waitUntilWriteComplete fuel _) as [s4 |] eqn:Hw;
      [| discriminate].
    destruct (waitUntilWriteComplete_emits _ _ _ (emits_sel _ _ _ Hf) Hw)
      as (k & _ & Hp).
    rewrite (usize_small size_bits (offset + chunk)) by lia.
    rewrite (usize_small size_bits (remaining - chunk)) by lia.
    replace (remaining - chunk)
      with (Z.of_nat (length buffer) - (offset + chunk)) by lia.
    intros Hloop.
    assert (Hoff' : 0 <= offset + chunk <= Z.of_nat (length buffer))
      by lia.
    destruct (IH _ (spec_address + chunk) _ _ _ Hoff'
                (usize_add_l _ _ _ _ Haddr) (emits_sel _ _ _ Hp) Hloop)
      as (polls & Hlen & Hrest_em).
    exists (k :: polls). fold rest.
    rewrite page_chunks_cons
      by (intros E; rewrite E in Hrest; cbn in Hrest; lia).
    cbv zeta. rewrite <- Hchunk.
    replace (skipn (Z.to_nat chunk) rest)
      with (skipn (Z.to_nat (offset + chunk)) buffer)
      by (subst rest; rewrite skipn_skipn; f_equal; lia).
    split; [cbn [length]; congruence |].
    cbn [combine flat_map].
    refine (emits_trans _ _ _ _ _ _ Hrest_em).
    cbn [chunk_items].
    change (wren_frame
              :: write_frame spec_address (firstn (Z.to_nat chunk) rest)
              :: poll_items k)
      with ([wren_frame]
              ++ [write_frame spec_address (firstn (Z.to_nat chunk) rest)]
              ++ poll_items k).
    refine (emits_trans _ _ _ _ _ He (emits_trans _ _ _ _ _ _ Hp)).
    unfold write_frame. rewrite <- Hhi, <- Hlo.
    subst rest. rewrite <- (chunk_bytes size_bits) by lia. exact Hf.
Qed.
End WriteArrayChunks.



Section Returns.
Context {D : Type} `{SPIBitBangingDriver D}.
Variable size_bits : Z.

End Returns.



(** ** The driver against the chip model *)

Lemma u8_u8 (x : Z) : u8 (u8 x) = u8 x.
Proof. apply u8_small, u8_range. Qed.

Lemma dev_on_byte_in (b : Z) mem twc busy wel sel mosi miso ph ibits obits :
  input_phase ph = true ->
  dev_on_byte b (mkDevice mem twc busy wel sel mosi miso ph ibits obits)
  = dev_on_byte b (mkDevice mem twc busy wel sel mosi miso ph [] obits).
Proof. intros Hph. destruct ph; try discriminate Hph; reflexivity. Qed.

Lemma dev_on_byte_miso (b : Z) (d : Device) :
  dev_miso (dev_on_byte b d) = dev_miso d.
Proof.
  destruct d as [mem twc busy wel sel mosi miso ph ibits obits].
  destruct ph; cbn [dev_on_byte];
    repeat match goal with
           | |- context [if ?c then _ else _] => destruct c
           end; reflexivity.
Qed.

Ltac dev_run :=
  cbn [bits_of_byte map exchange_all exchange write_mosi pulse_clock
         read_miso DeviceDriver dev_write_mosi dev_pulse_clock app length
         Nat.eqb fst snd dev_miso].

(** A whole byte clocked into the chip while it samples MOSI. *)
Lemma dev_transfer_in (x : Z) mem twc busy wel mosi miso ph obits :
  input_phase ph = true ->
  transferByte x (mkDevice mem twc busy wel true mosi miso ph [] obits)
  = (if miso then 255 else 0,
     dev_on_byte (u8 x)
       (mkDevice mem twc busy wel true (Z.testbit x 0) miso ph [] obits)).
Proof.
  intros Hph. rewrite transferByte_rounds, <- byte_of_bits_u8.
  destruct ph; try discriminate Hph; dev_run;
    rewrite dev_on_byte_miso, dev_on_byte_in by reflexivity;
    destruct miso; reflexivity.
Qed.

(** A whole byte clocked out of the chip in the data phase of READ. *)
Lemma dev_transfer_read (x v : Z) mem twc busy wel mosi miso addr :
  transferByte x
    (mkDevice mem twc busy wel true mosi miso (PhRead addr) []
       (bits_of_byte v))
  = (u8 v,
     mkDevice mem twc busy wel true (Z.testbit x 0) (Z.testbit v 0)
       (PhRead ((addr + 1) mod CAPACITY_BYTES)) []
       (bits_of_byte (mem ((addr + 1) mod CAPACITY_BYTES)))).
Proof.
  rewrite transferByte_rounds, <- byte_of_bits_u8. dev_run. reflexivity.
Qed.

(** A whole byte clocked out of the chip in the data phase of RDSR. *)
Lemma dev_transfer_status (x v : Z) mem twc busy wel mosi miso :
  transferByte x
    (mkDevice mem twc busy wel true mosi miso PhStatus [] (bits_of_byte v))
  = (u8 v,
     mkDevice mem twc busy wel true (Z.testbit x 0) (Z.testbit v 0) PhStatus
       [] (bits_of_byte (status_byte busy wel))).
Proof.
  rewrite transferByte_rounds, <- byte_of_bits_u8. dev_run. reflexivity.
Qed.

Lemma status_byte_wip (busy : Z) (wel : bool) :
  Z.testbit (status_byte busy wel) 0 = (0 <? busy).
Proof. unfold status_byte. destruct (0 <? busy), wel; reflexivity. Qed.

Lemma status_byte_u8 (busy : Z) (wel : bool) :
  u8 (status_byte busy wel) = status_byte busy wel.
Proof. unfold status_byte. destruct (0 <? busy), wel; reflexivity. Qed.

Lemma readStatus_dev mem twc busy wel mosi miso ph ibits obits :
  readStatus (mkDevice mem twc busy wel false mosi miso ph ibits obits)
  = (status_byte busy wel,
     mkDevice mem twc busy wel false true (0 <? busy) PhDone [] []).
Proof.
  unfold readStatus. cbn [cs_low DeviceDriver dev_cs_low].
  rewrite dev_transfer_in by reflexivity.
  change (u8 (opcode_byte RDSR)) with 5.
  cbn [dev_on_byte]. change (5 =? opcode_byte RDSR) with true. cbv iota.
  rewrite dev_transfer_status, status_byte_u8, status_byte_wip.
  reflexivity.
Qed.

Lemma delay_us_dev us mem twc busy wel sel mosi miso ph ibits obits :
  delay_us us (mkDevice mem twc busy wel sel mosi miso ph ibits obits)
  = mkDevice mem twc (Z.max 0 (busy - us)) wel sel mosi miso ph ibits obits.
Proof. reflexivity. Qed.

(** Polling a chip whose write cycle ends within the fuel. *)
Lemma waitUntilWriteComplete_dev (fuel : nat) :
  forall d : Device,
    dev_sel d = false ->
    dev_busy d <= 10 * (Z.of_nat fuel - 1) -> (0 < fuel)%nat ->
    exists d' : Device,
      waitUntilWriteComplete fuel d = Some d' /\ dev_settles d d'.
Proof.
  induction fuel as [| fuel IH]; intros d Hsel Hbusy Hfuel; [lia |].
  destruct d as [mem twc busy wel sel mosi miso ph ibits obits].
  cbn [dev_sel dev_busy] in *. subst sel.
  cbn [waitUntilWriteComplete]. rewrite readStatus_dev, wip_test,
    status_byte_wip.
  destruct (Z.ltb_spec 0 busy) as [Hpos | Hneg]; cbn [negb].
  - rewrite delay_us_dev.
    destruct (IH (mkDevice mem twc (Z.max 0 (busy - 10)) wel false true true
                    PhDone [] [])) as (d' & Hw & Hs).
    + reflexivity.
    + cbn [dev_busy]. lia.
    + lia.
    + exists d'. split; [exact Hw |]. exact Hs.
  - eexists. split; [reflexivity |].
    unfold dev_settles, dev_ready. cbn. auto.
Qed.

Lemma addr_frame (address : Z) :
  (addr_hi address * 256 + addr_lo address) mod CAPACITY_BYTES
  = address mod CAPACITY_BYTES.
Proof.
  rewrite addr_hi_mod, addr_lo_mod. unfold CAPACITY_BYTES.
  Z.div_mod_to_equations. lia.
Qed.

Lemma readByte_dev (address : Z) (d : Device) :
  dev_ready d ->
  exists d' : Device,
    readByte address d
    = (u8 (dev_mem d (address mod CAPACITY_BYTES)), d') /\
    dev_settles d d'.
Proof.
  intros [Hsel Hbusy].
  destruct d as [mem twc busy wel sel mosi miso ph ibits obits].
  cbn [dev_sel dev_busy dev_mem] in *. subst sel.
  unfold readByte. cbn [cs_low DeviceDriver dev_cs_low].
  rewrite dev_transfer_in by reflexivity.
  change (u8 (opcode_byte READ)) with 3. cbn [dev_on_byte].
  change (3 =? opcode_byte RDSR) with false.
  change (3 =? opcode_byte READ) with true.
  destruct (Z.ltb_spec 0 busy) as [Hpos | _]; [lia |]. cbv iota.
  rewrite dev_transfer_in by reflexivity. cbn [dev_on_byte].
  rewrite dev_transfer_in by reflexivity. cbn [dev_on_byte].
  rewrite !u8_u8. fold (addr_hi address) (addr_lo address).
  rewrite addr_frame. rewrite dev_transfer_read.
  cbn [cs_high DeviceDriver dev_cs_high].
  eexists. split; [reflexivity |].
  unfold dev_settles, dev_ready. cbn. auto.
Qed.

Lemma writeEnable_dev mem twc busy wel mosi miso ph ibits obits :
  busy <= 0 ->
  exists mosi' miso',
    writeEnable (mkDevice mem twc busy wel false mosi miso ph ibits obits)
    = mkDevice mem twc busy true false mosi' miso' PhDone [] [].
Proof.
  intros Hbusy. unfold writeEnable. cbn [cs_low DeviceDriver dev_cs_low].
  rewrite dev_transfer_in by reflexivity.
  change (u8 (opcode_byte WREN)) with 6. cbn [dev_on_byte].
  change (6 =? opcode_byte RDSR) with false.
  change (6 =? opcode_byte READ) with false.
  change (6 =? opcode_byte WRITE) with false.
  change (6 =? opcode_byte WREN) with true.
  destruct (Z.ltb_spec 0 busy) as [Hpos | _]; [lia |]. cbv iota.
  cbn [cs_high DeviceDriver dev_cs_high]. eauto.
Qed.

Lemma writeByte_dev (fuel : nat) (address value : Z) (d : Device) :
  dev_ready d ->
  dev_twc d <= 10 * (Z.of_nat fuel - 1) -> (0 < fuel)%nat ->
  exists d' : Device,
    writeByte fuel address value d = Some d' /\
    dev_ready d' /\
    dev_mem d' = upd (dev_mem d) (address mod CAPACITY_BYTES) (u8 value) /\
    dev_twc d' = dev_twc d.
Proof.
  intros [Hsel Hbusy] Htwc Hfuel.
  destruct d as [mem twc busy wel sel mosi miso ph ibits obits].
  cbn [dev_sel dev_busy dev_mem dev_twc] in *. subst sel.
  unfold writeByte.
  destruct (writeEnable_dev mem twc busy wel mosi miso ph ibits obits Hbusy)
    as (mosi1 & miso1 & ->).
  cbn [cs_low DeviceDriver dev_cs_low].
  rewrite dev_transfer_in by reflexivity.
  change (u8 (opcode_byte WRITE)) with 2. cbn [dev_on_byte].
  change (2 =? opcode_byte RDSR) with false.
  change (2 =? opcode_byte READ) with false.
  change (2 =? opcode_byte WRITE) with true.
  destruct (Z.ltb_spec 0 busy) as [Hpos | _]; [lia |]. cbv iota.
  rewrite dev_transfer_in by reflexivity. cbn [dev_on_byte].
  rewrite dev_transfer_in by reflexivity. cbn [dev_on_byte].
  rewrite !u8_u8. fold (addr_hi address) (addr_lo address).
  rewrite addr_frame.
  rewrite dev_transfer_in by reflexivity. cbn [dev_on_byte].
  cbn [cs_high DeviceDriver dev_cs_high].
  change (0 <? 0 + 1) with true. cbv iota.
  edestruct (waitUntilWriteComplete_dev fuel) as (d' & Hw & Hr & Hm & Ht & _);
    [| | exact Hfuel | rewrite Hw].
  - reflexivity.
  - exact Htwc.
  - exists d'. cbn in *. auto.
Qed.

(** The model has the behaviour that makes the driver's care necessary. *)

(** The chip drops a WRITE that no WREN came before. *)
Example chip_needs_write_enable :
  map (dev_mem (send_frame [0x02; 0x00; 0x05; 0xAA] (blank_device 25)))
    [4; 5; 6]
  = [0xFF; 0xFF; 0xFF]
  /\ map (dev_mem
            (send_frame [0x02; 0x00; 0x05; 0xAA]
               (send_frame [0x06] (blank_device 25))))
       [4; 5; 6]
     = [0xFF; 0xAA; 0xFF].
Proof. vm_compute. split; reflexivity. Qed.

(** A single WRITE frame that runs past the end of a page wraps to the
    start of that page: the hazard [writeArray] avoids by chunking. *)
Example chip_page_write_wraps :
  map (dev_mem
         (send_frame [0x02; 0x00; 0x0E; 1; 2; 3; 4]
            (send_frame [0x06] (blank_device 25))))
    [0; 1; 2; 13; 14; 15; 16; 17]
  = [3; 4; 0xFF; 0xFF; 1; 2; 0xFF; 0xFF].
Proof. vm_compute. reflexivity. Qed.

(** While the write cycle lasts the chip answers RDSR only. *)
Example chip_busy_ignores_commands :
  let busy :=
    send_frame [0x02; 0x00; 0x05; 0xAA] (send_frame [0x06] (blank_device 25))
  in
  fst (readStatus busy) = 0x01
  /\ fst (readByte 5 busy) = 0x00
  /\ fst (readByte 5 (delay_us 25 busy)) = 0xAA.
Proof. vm_compute. repeat split. Qed.

(** ** Masks and bit fields *)

Lemma u32_small (x : Z) : 0 <= x < 2 ^ 32 -> u32 x = x.
Proof. intros Hx. unfold u32. now apply Z.mod_small. Qed.

Lemma bits_in_byte_of_min (start_bit bitCount bits_done : Z) :
  0 <= start_bit <= 8 -> 0 <= bits_done < bitCount -> bitCount <= 32 ->
  bits_in_byte_of start_bit bitCount bits_done
  = Z.min (8 - start_bit) (bitCount - bits_done).
Proof.
  intros Hs Hd Hn. unfold bits_in_byte_of.
  rewrite !u32_small by (change (2 ^ 32) with 4294967296; lia). reflexivity.
Qed.

Lemma mask_of_spec (start_bit bits_in_byte j : Z) :
  0 <= start_bit -> 0 <= bits_in_byte -> start_bit + bits_in_byte <= 8 ->
  0 <= j ->
  Z.testbit (mask_of start_bit bits_in_byte) j
  = (start_bit <=? j) && (j <? start_bit + bits_in_byte).
Proof.
  intros Hs Hb Hsum Hj. unfold mask_of, u8, u32.
  rewrite Z.shiftl_1_l.
  assert (H2 : 0 < 2 ^ bits_in_byte <= 2 ^ 8).
  { split; [apply Z.pow_pos_nonneg; lia | apply Z.pow_le_mono_r; lia]. }
  change (2 ^ 8) with 256 in H2.
  rewrite (Z.mod_small (2 ^ bits_in_byte))
    by (change (2 ^ 32) with 4294967296; lia).
  rewrite (Z.mod_small (2 ^ bits_in_byte - 1))
    by (change (2 ^ 32) with 4294967296; lia).
  replace (2 ^ bits_in_byte - 1) with (Z.ones bits_in_byte)
    by (rewrite Z.ones_equiv; lia).
  rewrite !Z.testbit_mod_pow2 by lia.
  rewrite Z.shiftl_spec by lia.
  destruct (Z.leb_spec start_bit j) as [Hle | Hlt].
  - rewrite Z.testbit_ones_nonneg by lia.
    destruct (Z.ltb_spec j 8), (Z.ltb_spec j 32),
      (Z.ltb_spec (j - start_bit) bits_in_byte),
      (Z.ltb_spec j (start_bit + bits_in_byte)); cbn; try reflexivity; lia.
  - rewrite Z.testbit_neg_r by lia. rewrite !andb_false_r. reflexivity.
Qed.

(** The bits [readBits] takes from one byte. *)
Lemma read_val_spec (byte start_bit bits_in_byte j : Z) :
  0 <= start_bit -> 0 <= bits_in_byte -> start_bit + bits_in_byte <= 8 ->
  0 <= j ->
  Z.testbit
    (u8 (Z.shiftr (Z.land byte (mask_of start_bit bits_in_byte)) start_bit)) j
  = (j <? bits_in_byte) && Z.testbit byte (j + start_bit).
Proof.
  intros Hs Hb Hsum Hj. unfold u8.
  rewrite Z.testbit_mod_pow2, Z.shiftr_spec, Z.land_spec, mask_of_spec by lia.
  destruct (Z.ltb_spec j 8), (Z.ltb_spec j bits_in_byte),
    (Z.leb_spec start_bit (j + start_bit)),
    (Z.ltb_spec (j + start_bit) (start_bit + bits_in_byte));
    cbn; rewrite ?andb_false_r, ?andb_true_r; try reflexivity; lia.
Qed.

(** The byte [writeBits] stores. *)
Lemma write_byte_spec (byte value bits_written start_bit bits_in_byte j : Z) :
  0 <= start_bit -> 0 <= bits_in_byte -> start_bit + bits_in_byte <= 8 ->
  0 <= bits_written -> 0 <= j < 8 ->
  Z.testbit
    (u8 (Z.lor (Z.land byte (Z.lnot (mask_of start_bit bits_in_byte)))
           (Z.land
              (u32 (Z.shiftl (Z.shiftr value bits_written) start_bit))
              (mask_of start_bit bits_in_byte)))) j
  = if (start_bit <=? j) && (j <? start_bit + bits_in_byte)
    then Z.testbit value (j - start_bit + bits_written)
    else Z.testbit byte j.
Proof.
  intros Hs Hb Hsum Hw Hj. unfold u8, u32.
  rewrite Z.testbit_mod_pow2, Z.lor_spec, !Z.land_spec, Z.lnot_spec,
    Z.testbit_mod_pow2, mask_of_spec by lia.
  destruct (Z.ltb_spec j 8); [| lia]. destruct (Z.ltb_spec j 32); [| lia].
  cbn [andb].
  destruct ((start_bit <=? j) && (j <? start_bit + bits_in_byte)) eqn:Hin.
  - apply andb_true_iff in Hin as [Hlo _]. apply Z.leb_le in Hlo.
    rewrite Z.shiftl_spec, Z.shiftr_spec by lia.
    cbn. rewrite andb_false_r, andb_true_r. reflexivity.
  - cbn. rewrite andb_true_r, andb_false_r, orb_false_r. reflexivity.
Qed.

(** ** Bit fields on the chip model *)

Lemma dev_settles_trans (d1 d2 d3 : Device) :
  dev_settles d1 d2 -> dev_settles d2 d3 -> dev_settles d1 d3.
Proof.
  unfold dev_settles. intros (_ & M12 & T12 & W12) (R3 & M23 & T23 & W23).
  repeat split; try apply R3; congruence.
Qed.

Lemma usize_mod_capacity (size_bits x : Z) :
  9 <= size_bits -> usize size_bits x mod CAPACITY_BYTES = x mod CAPACITY_BYTES.
Proof.
  intros Hsz. unfold usize, CAPACITY_BYTES. apply Z.mod_mod_divide.
  exists (2 ^ (size_bits - 9)). change 512 with (2 ^ 9).
  rewrite <- Z.pow_add_r by lia. f_equal. lia.
Qed.

Lemma mem_bit_next (size_bits : Z) (m : Z -> Z) (address g : Z) :
  9 <= size_bits -> 0 <= g ->
  mem_bit m (usize size_bits (address + 1)) g = mem_bit m address (g + 8).
Proof.
  intros Hsz Hg. unfold mem_bit.
  rewrite <- Z.add_mod_idemp_l, usize_mod_capacity, Z.add_mod_idemp_l
    by (unfold CAPACITY_BYTES; lia).
  replace ((g + 8) / 8) with (g / 8 + 1) by (Z.div_mod_to_equations; lia).
  replace ((g + 8) mod 8) with (g mod 8) by (Z.div_mod_to_equations; lia).
  f_equal. f_equal. f_equal. lia.
Qed.

Lemma mem_bit_first (m : Z -> Z) (address g : Z) :
  0 <= g < 8 ->
  mem_bit m address g = Z.testbit (m (address mod CAPACITY_BYTES)) g.
Proof.
  intros Hg. unfold mem_bit.
  rewrite (Z.div_small g 8), (Z.mod_small g 8), Z.add_0_r by lia.
  reflexivity.
Qed.

Section BitsOnDevice.
Variable size_bits : Z.
Hypothesis size_bits_9 : 9 <= size_bits.

Lemma readBits_rest_dev (bitOffset bitCount : Z) (fuel : nat) :
  bitCount <= 32 ->
  forall (bits_read byte_addr result : Z) (d : Device),
    dev_ready d ->
    0 < bits_read <= bitCount ->
    bitCount - bits_read <= 8 * Z.of_nat fuel ->
    exists (r : Z) (d' : Device),
      readBits_loop size_bits fuel bitOffset bitCount bits_read byte_addr
        result d = Some (r, d') /\
      dev_settles d d' /\
      forall i : Z,
        0 <= i ->
        Z.testbit r i
        = Z.testbit result i
          || ((bits_read <=? i) && (i <? bitCount)
              && mem_bit (dev_mem d) byte_addr (i - bits_read)).
Proof.
  intros Hn. induction fuel as [| fuel IH];
    intros bits_read byte_addr result d Hready Hdone Hfuel;
    cbn [readBits_loop].
  - destruct (Z.ltb_spec bits_read bitCount) as [Hlt | Hge]; [lia |].
    exists result, d. split; [reflexivity |]. split.
    { unfold dev_settles. auto. }
    intros i Hi.
    destruct (Z.leb_spec bits_read i), (Z.ltb_spec i bitCount);
      cbn; rewrite ?orb_false_r; try reflexivity; lia.
  - destruct (Z.ltb_spec bits_read bitCount) as [Hlt | Hge].
    2:{ exists result, d. split; [reflexivity |]. split.
        { unfold dev_settles. auto. }
        intros i Hi.
        destruct (Z.leb_spec bits_read i), (Z.ltb_spec i bitCount);
          cbn; rewrite ?orb_false_r; try reflexivity; lia. }
    destruct (readByte_dev byte_addr d Hready) as (d1 & -> & Hs1).
    cbv zeta. unfold start_bit_of.
    destruct (Z.eqb_spec bits_read 0) as [E | _]; [lia |].
    rewrite bits_in_byte_of_min by lia. rewrite Z.sub_0_r.
    set (bib := Z.min 8 (bitCount - bits_read)).
    assert (Hbib : 1 <= bib <= 8 /\ bits_read + bib <= bitCount) by lia.
    rewrite (u32_small (bits_read + bib))
      by (change (2 ^ 32) with 4294967296; lia).
    destruct (IH (bits_read + bib) (usize size_bits (byte_addr + 1))
                (Z.lor result
                   (u32
                      (Z.shiftl
                         (u8
                            (Z.shiftr
                               (Z.land
                                  (u8 (dev_mem d
                                         (byte_addr mod CAPACITY_BYTES)))
                                  (mask_of 0 bib)) 0)) bits_read)))
                d1)
      as (r & d' & Hloop & Hs' & Hbits).
    + apply Hs1.
    + lia.
    + lia.
    + exists r, d'. split; [exact Hloop |]. split.
      { eapply dev_settles_trans; eassumption. }
      intros i Hi. rewrite (Hbits i Hi).
      destruct Hs1 as (_ & -> & _).
      rewrite Z.lor_spec. unfold u32 at 1.
      rewrite Z.testbit_mod_pow2 by lia.
      destruct (Z.leb_spec bits_read i) as [Hle | Hgt].
      * rewrite Z.shiftl_spec by lia.
        rewrite read_val_spec by lia. rewrite Z.add_0_r.
        unfold u8 at 1. rewrite Z.testbit_mod_pow2 by lia.
        destruct (Z.ltb_spec i bitCount) as [Hin | Hout].
        -- destruct (Z.ltb_spec (i - bits_read) bib) as [Hcur | Hnext].
           ++ rewrite (mem_bit_first _ byte_addr) by lia.
              destruct (Z.ltb_spec i 32); [| lia].
              destruct (Z.ltb_spec (i - bits_read) 8); [| lia].
              destruct (Z.leb_spec (bits_read + bib) i); [lia |].
              cbn. rewrite orb_false_r. reflexivity.
           ++ rewrite mem_bit_next by lia.
              destruct (Z.leb_spec (bits_read + bib) i); [| lia].
              replace (i - (bits_read + bib) + 8) with (i - bits_read)
                by lia.
              cbn. rewrite andb_false_r, orb_false_r. reflexivity.
        -- destruct (Z.ltb_spec (i - bits_read) bib); [lia |].
           cbn. rewrite !andb_false_r, !orb_false_r. reflexivity.
      * rewrite Z.shiftl_spec_low by lia.
        destruct (Z.leb_spec (bits_read + bib) i); [lia |].
        cbn. rewrite !andb_false_r, !orb_false_r. reflexivity.
Qed.

Lemma readBits_dev (fuel : nat) (address bitOffset bitCount : Z)
    (d : Device) :
  dev_ready d ->
  1 <= bitCount <= 32 -> 0 <= bitOffset <= 7 -> (5 <= fuel)%nat ->
  exists (r : Z) (d' : Device),
    readBits size_bits fuel address bitOffset bitCount d = Some (r, d') /\
    dev_settles d d' /\
    forall i : Z,
      0 <= i ->
      Z.testbit r i
      = (i <? bitCount) && mem_bit (dev_mem d) address (bitOffset + i).
Proof.
  intros Hready Hn Hoff Hfuel. unfold readBits.
  destruct (Z.eqb_spec bitCount 0) as [E | _]; [lia |].
  destruct (Z.ltb_spec 32 bitCount) as [E | _]; [lia |]. cbn [orb].
  destruct fuel as [| fuel]; [lia |]. cbn [readBits_loop].
  destruct (Z.ltb_spec 0 bitCount) as [_ | E]; [| lia].
  destruct (readByte_dev address d Hready) as (d1 & -> & Hs1).
  cbv zeta. unfold start_bit_of. cbn [Z.eqb].
  rewrite bits_in_byte_of_min by lia. rewrite Z.sub_0_r.
  set (bib := Z.min (8 - bitOffset) bitCount).
  assert (Hbib : 1 <= bib <= 8 - bitOffset /\ bib <= bitCount) by lia.
  rewrite (u32_small (0 + bib)) by (change (2 ^ 32) with 4294967296; lia).
  edestruct (readBits_rest_dev bitOffset bitCount fuel ltac:(lia) (0 + bib))
    as (r & d' & Hloop & Hs' & Hbits);
    [apply Hs1 | lia | lia | rewrite Hloop].
  exists r, d'. split; [reflexivity |]. split.
  { eapply dev_settles_trans; eassumption. }
  intros i Hi. rewrite (Hbits i Hi).
  destruct Hs1 as (_ & -> & _).
  rewrite Z.lor_spec, Z.testbit_0_l. cbn [orb]. unfold u32.
  rewrite Z.testbit_mod_pow2, Z.shiftl_spec, Z.sub_0_r by lia.
  rewrite read_val_spec by lia.
  unfold u8 at 1. rewrite Z.testbit_mod_pow2 by lia.
  destruct (Z.ltb_spec i bitCount) as [Hin | Hout].
  - destruct (Z.ltb_spec i bib) as [Hcur | Hnext].
    + rewrite (mem_bit_first _ address) by lia.
      destruct (Z.ltb_spec i 32); [| lia].
      destruct (Z.ltb_spec (i + bitOffset) 8); [| lia].
      destruct (Z.leb_spec (0 + bib) i); [lia |].
      cbn. rewrite orb_false_r. f_equal. lia.
    + rewrite (mem_bit_next size_bits) by lia.
      destruct (Z.leb_spec (0 + bib) i); [| lia].
      replace (i - (0 + bib) + 8) with (bitOffset + i) by lia.
      cbn. rewrite andb_false_r. reflexivity.
  - destruct (Z.ltb_spec i bib); [lia |].
    cbn. rewrite !andb_false_r. reflexivity.
Qed.

Lemma span_index_here (address x j : Z) :
  x = address mod CAPACITY_BYTES -> span_index address x j = j.
Proof.
  intros ->. unfold span_index, CAPACITY_BYTES.
  Z.div_mod_to_equations. lia.
Qed.

Lemma span_index_next (address x j : Z) :
  0 <= x < CAPACITY_BYTES -> x <> address mod CAPACITY_BYTES ->
  span_index (usize size_bits (address + 1)) x j
  = span_index address x j - 8 /\
  8 <= span_index address x j - j.
Proof.
  intros Hx Hne. unfold span_index.
  rewrite <- Zminus_mod_idemp_r, usize_mod_capacity, Zminus_mod_idemp_r
    by exact size_bits_9.
  unfold CAPACITY_BYTES in *. Z.div_mod_to_equations. lia.
Qed.

Lemma writeBits_rest_dev (bitOffset bitCount value : Z) (fuel : nat) :
  bitCount <= 32 ->
  forall (polls bits_written byte_addr : Z) (d : Device),
    dev_ready d ->
    0 < bits_written <= bitCount ->
    bitCount - bits_written <= 8 * (Z.of_nat fuel - polls) ->
    dev_twc d <= 10 * (polls - 1) -> 1 <= polls ->
    exists d' : Device,
      writeBits_loop size_bits fuel bitOffset bitCount value bits_written
        byte_addr d = Some d' /\
      dev_ready d' /\ dev_twc d' = dev_twc d /\
      forall x j : Z,
        0 <= x < CAPACITY_BYTES -> 0 <= j < 8 ->
        Z.testbit (dev_mem d' x) j
        = if span_index byte_addr x j <? bitCount - bits_written
          then Z.testbit value (bits_written + span_index byte_addr x j)
          else Z.testbit (dev_mem d x) j.
Proof.
  intros Hn. induction fuel as [| fuel IH];
    intros polls bits_written byte_addr d Hready Hdone Hfuel Htwc Hpolls;
    cbn [writeBits_loop].
  - destruct (Z.ltb_spec bits_written bitCount) as [Hlt | Hge]; [lia |].
    exists d. split; [reflexivity |]. split; [exact Hready |].
    split; [reflexivity |]. intros x j Hx Hj.
    destruct (Z.ltb_spec (span_index byte_addr x j)
                (bitCount - bits_written)) as [Hin | _]; [| reflexivity].
    unfold span_index in Hin.
    pose proof (Z.mod_pos_bound (x - byte_addr) CAPACITY_BYTES
                  ltac:(unfold CAPACITY_BYTES; lia)). lia.
  - destruct (Z.ltb_spec bits_written bitCount) as [Hlt | Hge].
    2:{ exists d. split; [reflexivity |]. split; [exact Hready |].
        split; [reflexivity |]. intros x j Hx Hj.
        destruct (Z.ltb_spec (span_index byte_addr x j)
                    (bitCount - bits_written)) as [Hin | _];
          [| reflexivity].
        unfold span_index in Hin.
        pose proof (Z.mod_pos_bound (x - byte_addr) CAPACITY_BYTES
                      ltac:(unfold CAPACITY_BYTES; lia)). lia. }
    destruct (readByte_dev byte_addr d Hready) as (d1 & -> & Hs1).
    cbv zeta. unfold start_bit_of.
    destruct (Z.eqb_spec bits_written 0) as [E | _]; [lia |].
    rewrite bits_in_byte_of_min by lia. rewrite Z.sub_0_r.
    set (bib := Z.min 8 (bitCount - bits_written)).
    assert (Hbib : 1 <= bib <= 8 /\ bits_written + bib <= bitCount) by lia.
    rewrite (u32_small (bits_written + bib))
      by (change (2 ^ 32) with 4294967296; lia).
    set (byte := u8 (Z.lor _ _)).
    destruct Hs1 as (Hr1 & Hm1 & Ht1 & _).
    destruct (writeByte_dev fuel byte_addr byte d1 Hr1)
      as (d2 & -> & Hr2 & Hm2 & Ht2); [lia | lia |].
    destruct (IH polls (bits_written + bib)
                (usize size_bits (byte_addr + 1)) d2 Hr2)
      as (d' & Hloop & Hr' & Ht' & Hbits); [lia | lia | lia | lia |].
    exists d'. split; [exact Hloop |]. split; [exact Hr' |].
    split; [congruence |]. intros x j Hx Hj.
    rewrite (Hbits x j Hx Hj), Hm2, Hm1. unfold upd.
    destruct (Z.eqb_spec x (byte_addr mod CAPACITY_BYTES)) as [Ex | Ex].
    + rewrite (span_index_here byte_addr x j Ex).
      assert (Hfar : ~ span_index (usize size_bits (byte_addr + 1)) x j
                       < bitCount - (bits_written + bib)).
      { unfold span_index.
        rewrite <- Zminus_mod_idemp_r, usize_mod_capacity,
          Zminus_mod_idemp_r by exact size_bits_9.
        subst x. unfold CAPACITY_BYTES in *.
        Z.div_mod_to_equations. lia. }
      destruct (Z.ltb_spec (span_index (usize size_bits (byte_addr + 1)) x j)
                  (bitCount - (bits_written + bib))); [lia |].
      subst byte. rewrite u8_u8, write_byte_spec by lia.
      destruct (Z.leb_spec 0 j); [| lia].
      rewrite Z.add_0_l, Z.sub_0_r. cbn [andb].
      destruct (Z.ltb_spec j bib), (Z.ltb_spec j (bitCount - bits_written));
        try lia.
      * f_equal. lia.
      * unfold u8. rewrite Z.testbit_mod_pow2 by lia.
        destruct (Z.ltb_spec j 8); [| lia]. subst x. reflexivity.
    + destruct (span_index_next byte_addr x j Hx Ex) as [-> Hk].
      destruct (Z.ltb_spec (span_index byte_addr x j - 8)
                  (bitCount - (bits_written + bib))),
        (Z.ltb_spec (span_index byte_addr x j) (bitCount - bits_written));
        try lia; try reflexivity.
      f_equal. lia.
Qed.

Lemma writeBits_dev (fuel : nat) (address bitOffset bitCount value : Z)
    (d : Device) :
  dev_ready d ->
  1 <= bitCount <= 32 -> 0 <= bitOffset <= 7 ->
  (6 <= fuel)%nat -> dev_twc d <= 10 * (Z.of_nat fuel - 6) ->
  exists d' : Device,
    writeBits size_bits fuel address bitOffset bitCount value d = Some d' /\
    dev_ready d' /\ dev_twc d' = dev_twc d /\
    forall x j : Z,
      0 <= x < CAPACITY_BYTES -> 0 <= j < 8 ->
      Z.testbit (dev_mem d' x) j
      = if (bitOffset <=? span_index address x j)
           && (span_index address x j <? bitOffset + bitCount)
        then Z.testbit value (span_index address x j - bitOffset)
        else Z.testbit (dev_mem d x) j.
Proof.
  intros Hready Hn Hoff Hfuel Htwc. unfold writeBits.
  destruct (Z.eqb_spec bitCount 0) as [E | _]; [lia |].
  destruct (Z.ltb_spec 32 bitCount) as [E | _]; [lia |]. cbn [orb].
  destruct fuel as [| fuel]; [lia |]. cbn [writeBits_loop].
  destruct (Z.ltb_spec 0 bitCount) as [_ | E]; [| lia].
  destruct (readByte_dev address d Hready) as (d1 & -> & Hs1).
  cbv zeta. unfold start_bit_of. cbn [Z.eqb].
  rewrite bits_in_byte_of_min by lia. rewrite Z.sub_0_r.
  set (bib := Z.min (8 - bitOffset) bitCount).
  assert (Hbib : 1 <= bib <= 8 - bitOffset /\ bib <= bitCount) by lia.
  rewrite (u32_small (0 + bib)) by (change (2 ^ 32) with 4294967296; lia).
  set (byte := u8 (Z.lor _ _)).
  destruct Hs1 as (Hr1 & Hm1 & Ht1 & _).
  destruct (writeByte_dev fuel address byte d1 Hr1)
    as (d2 & -> & Hr2 & Hm2 & Ht2); [lia | lia |].
  destruct (writeBits_rest_dev bitOffset bitCount value fuel ltac:(lia)
              (Z.of_nat fuel - 4) (0 + bib)
              (usize size_bits (address + 1)) d2 Hr2)
    as (d' & Hloop & Hr' & Ht' & Hbits); [lia | lia | lia | lia |].
  exists d'. split; [exact Hloop |]. split; [exact Hr' |].
  split; [congruence |]. intros x j Hx Hj.
  rewrite (Hbits x j Hx Hj), Hm2, Hm1. unfold upd.
  destruct (Z.eqb_spec x (address mod CAPACITY_BYTES)) as [Ex | Ex].
  - rewrite (span_index_here address x j Ex).
    assert (Hfar : ~ span_index (usize size_bits (address + 1)) x j
                     < bitCount - (0 + bib)).
    { unfold span_index.
      rewrite <- Zminus_mod_idemp_r, usize_mod_capacity,
        Zminus_mod_idemp_r by exact size_bits_9.
      subst x. unfold CAPACITY_BYTES in *.
      Z.div_mod_to_equations. lia. }
    destruct (Z.ltb_spec (span_index (usize size_bits (address + 1)) x j)
                (bitCount - (0 + bib))); [lia |].
    subst byte. rewrite u8_u8, write_byte_spec by lia.
    rewrite Z.add_0_r.
    destruct (Z.leb_spec bitOffset j); cbn [andb].
    + destruct (Z.ltb_spec j (bitOffset + bib)),
        (Z.ltb_spec j (bitOffset + bitCount)); try lia.
      * reflexivity.
      * unfold u8. rewrite Z.testbit_mod_pow2 by lia.
        destruct (Z.ltb_spec j 8); [| lia]. subst x. reflexivity.
    + unfold u8. rewrite Z.testbit_mod_pow2 by lia.
      destruct (Z.ltb_spec j 8); [| lia]. subst x. reflexivity.
  - destruct (span_index_next address x j Hx Ex) as [-> Hk].
    destruct (Z.leb_spec bitOffset (span_index address x j)); [| lia].
    cbn [andb].
    destruct (Z.ltb_spec (span_index address x j - 8)
                (bitCount - (0 + bib))),
      (Z.ltb_spec (span_index address x j) (bitOffset + bitCount));
      try lia; try reflexivity.
    f_equal. lia.
Qed.

Lemma span_index_mem_bit (address g : Z) :
  0 <= g < 8 * CAPACITY_BYTES ->
  span_index address ((address + g / 8) mod CAPACITY_BYTES) (g mod 8) = g.
Proof.
  intros Hg. unfold span_index.
  rewrite Zminus_mod_idemp_l.
  replace (address + g / 8 - address) with (g / 8) by lia.
  unfold CAPACITY_BYTES in *. Z.div_mod_to_equations. lia.
Qed.
End BitsOnDevice.

(** ** The loops of the bit fields end *)

Section BitLoopsTerminate.
Context {D : Type} `{SPIBitBangingDriver D}.
Variable size_bits : Z.








End BitLoopsTerminate.

(** ** Chip select over a trace *)

Lemma cs_scan_app (tr : list Event) (e : Event) :
  forall sel : bool,
    cs_scan sel (tr ++ [e])
    = match cs_scan sel tr with
      | Some sel' => cs_step sel' e
      | None => None
      end.
Proof.
  induction tr as [| e0 tr IH]; intros sel; cbn [app cs_scan].
  - destruct (cs_step sel e); reflexivity.
  - destruct (cs_step sel e0); [apply IH | reflexivity].
Qed.

Lemma cs_scan_decode (log : list Event) :
  cs_scan false (rev log)
  = if bus_ok (decode log) then Some (bus_sel (decode log)) else None.
Proof.
  induction log as [| e log IH]; [reflexivity |].
  cbn [rev decode]. rewrite cs_scan_app, IH.
  destruct (decode log) as [items sel line bits bytes ok].
  cbn [bus_ok bus_sel].
  destruct e, ok, sel; cbn [bus_step cs_step bus_ok bus_sel andb];
    try reflexivity;
    destruct (length (bits ++ [line]) =? 8)%nat; reflexivity.
Qed.

Lemma tidy_bracketed {L : Type} `{Logging L} (s s' : L) :
  cs_bracketed (trace s) = true ->
  tidy (decode (log_of s)) (decode (log_of s')) ->
  cs_bracketed (trace s') = true.
Proof.
  unfold cs_bracketed, trace. rewrite !cs_scan_decode. intros Hs Ht.
  rewrite (tidy_ok _ _ Ht), (tidy_sel _ _ Ht).
  destruct (bus_ok (decode (log_of s))); [reflexivity | discriminate].
Qed.

Lemma bracketed_sel {L : Type} `{Logging L} (s : L) :
  cs_bracketed (trace s) = true -> bus_sel (decode (log_of s)) = false.
Proof.
  unfold cs_bracketed, trace. rewrite cs_scan_decode.
  destruct (bus_ok (decode (log_of s))); [| discriminate].
  destruct (bus_sel (decode (log_of s))); [discriminate | reflexivity].
Qed.

Lemma run_ops_app {D : Type} `{SPIBitBangingDriver D} (size_bits : Z)
    (fuel : nat) (ops1 ops2 : list Op) :
  forall s s' : D,
    run_ops size_bits fuel (ops1 ++ ops2) s = Some s' ->
    exists s1 : D,
      run_ops size_bits fuel ops1 s = Some s1 /\
      run_ops size_bits fuel ops2 s1 = Some s'.
Proof.
  induction ops1 as [| op ops1 IH]; intros s s'; cbn [app run_ops].
  - intros Hrun. exists s. split; [reflexivity | exact Hrun].
  - destruct (run_op size_bits fuel op s) as [s0 |]; [| discriminate].
    apply IH.
Qed.

(** ** Arrays on the chip model *)

Lemma store_nat_length (buffer : list Z) :
  forall (i : nat) (v : Z), length (store_nat buffer i v) = length buffer.
Proof.
  induction buffer as [| b rest IH]; intros [| i] v; cbn; auto.
Qed.

Lemma store_nat_firstn (buffer : list Z) :
  forall (i : nat) (v : Z),
    (i < length buffer)%nat ->
    firstn (S i) (store_nat buffer i v) = firstn i buffer ++ [v].
Proof.
  induction buffer as [| b rest IH]; intros [| i] v Hi; cbn in *; try lia.
  - reflexivity.
  - f_equal. apply IH. lia.
Qed.

Lemma store_nat_skipn (buffer : list Z) :
  forall (i m : nat) (v : Z),
    (i < m)%nat -> skipn m (store_nat buffer i v) = skipn m buffer.
Proof.
  induction buffer as [| b rest IH]; intros [| i] [| m] v Hi; cbn in *;
    try lia; try reflexivity.
  apply IH. lia.
Qed.

(** The data phase of a sequential read: [n] dummy bytes clock out [n]
    consecutive cells into the buffer. *)
Lemma readArray_run_dev (n : nat) :
  forall (k : nat) (buf : list Z) mem twc busy wel mosi miso addr,
    (k + n <= length buf)%nat ->
    0 <= addr < CAPACITY_BYTES ->
    exists mosi' miso',
      fold_left readArray_body (map Z.of_nat (seq k n))
        (buf,
         mkDevice mem twc busy wel true mosi miso (PhRead addr) []
           (bits_of_byte (mem addr)))
      = (firstn k buf
           ++ map (fun i => u8 (mem ((addr + Z.of_nat i) mod CAPACITY_BYTES)))
                (seq 0 n)
           ++ skipn (k + n) buf,
         mkDevice mem twc busy wel true mosi' miso'
           (PhRead ((addr + Z.of_nat n) mod CAPACITY_BYTES)) []
           (bits_of_byte (mem ((addr + Z.of_nat n) mod CAPACITY_BYTES)))).
Proof.
  induction n as [| n IH];
    intros k buf mem twc busy wel mosi miso addr Hlen Haddr.
  - exists mosi, miso. cbn [seq map fold_left app].
    rewrite Nat.add_0_r, firstn_skipn, Z.add_0_r, Z.mod_small by exact Haddr.
    reflexivity.
  - cbn [seq map fold_left]. unfold readArray_body at 2.
    rewrite dev_transfer_read. unfold store. rewrite Nat2Z.id.
    destruct (IH (S k) (store_nat buf k (u8 (mem addr))) mem twc busy wel
                (Z.testbit 255 0) (Z.testbit (mem addr) 0)
                ((addr + 1) mod CAPACITY_BYTES))
      as (mosi' & miso' & ->).
    { rewrite store_nat_length. lia. }
    { apply Z.mod_pos_bound. reflexivity. }
    exists mosi', miso'.
    rewrite store_nat_firstn, store_nat_skipn by lia.
    rewrite <- seq_shift, map_map, <- app_assoc. cbn [app].
    rewrite Z.add_0_r, (Z.mod_small addr) by exact Haddr.
    replace (S k + n)%nat with (k + S n)%nat by lia.
    assert (E : forall i : Z,
               ((addr + 1) mod CAPACITY_BYTES + i) mod CAPACITY_BYTES
               = (addr + (1 + i)) mod CAPACITY_BYTES).
    { intros i. rewrite Z.add_mod_idemp_l by discriminate.
      f_equal. lia. }
    rewrite E. replace (1 + Z.of_nat n) with (Z.of_nat (S n)) by lia.
    f_equal. f_equal. f_equal. f_equal.
    apply map_ext. intros i. rewrite E.
    replace (1 + Z.of_nat i) with (Z.of_nat (S i)) by lia. reflexivity.
Qed.

(** [readArray] against the chip. *)
Lemma readArray_dev (address : Z) (buf : list Z) (length : Z) (d : Device) :
  dev_ready d ->
  0 < length <= Z.of_nat (List.length buf) ->
  exists d' : Device,
    readArray address (Some buf) length d
    = (Some
         (map (fun i => u8 (dev_mem d ((address + i) mod CAPACITY_BYTES)))
            (upto length)
          ++ skipn (Z.to_nat length) buf),
       d') /\
    dev_settles d d'.
Proof.
  intros [Hsel Hbusy] Hlen.
  destruct d as [mem twc busy wel sel mosi miso ph ibits obits].
  cbn [dev_sel dev_busy dev_mem] in *. subst sel.
  unfold readArray.
  destruct (Z.eqb_spec length 0) as [E | _]; [lia |].
  cbn [cs_low DeviceDriver dev_cs_low].
  rewrite dev_transfer_in by reflexivity.
  change (u8 (opcode_byte READ)) with 3. cbn [dev_on_byte].
  change (3 =? opcode_byte RDSR) with false.
  change (3 =? opcode_byte READ) with true.
  destruct (Z.ltb_spec 0 busy) as [Hpos | _]; [lia |]. cbv iota.
  rewrite dev_transfer_in by reflexivity. cbn [dev_on_byte].
  rewrite dev_transfer_in by reflexivity. cbn [dev_on_byte].
  rewrite !u8_u8. fold (addr_hi address) (addr_lo address).
  rewrite addr_frame. unfold upto.
  edestruct (readArray_run_dev (Z.to_nat length) 0 buf mem twc busy wel)
    as (mosi' & miso' & ->).
  { lia. }
  { apply Z.mod_pos_bound. reflexivity. }
  cbn [cs_high DeviceDriver dev_cs_high firstn app Nat.add].
  eexists. split.
  - f_equal. f_equal. f_equal. rewrite map_map. apply map_ext.
    intros i. rewrite Z.add_mod_idemp_l by discriminate. reflexivity.
  - unfold dev_settles, dev_ready. cbn. auto.
Qed.

Lemma next_in_page_succ (addr : Z) :
  addr mod PAGE_SIZE + 1 < PAGE_SIZE -> next_in_page addr = addr + 1.
Proof.
  unfold next_in_page, PAGE_SIZE. intros H.
  Z.div_mod_to_equations. lia.
Qed.

(** The data bytes of a page write that stays inside its page. *)
Lemma page_write_run_dev (byte_at : Z -> Z) (l : list Z) :
  forall mem twc busy wel mosi miso addr latch count,
    addr mod PAGE_SIZE + Z.of_nat (length l) <= PAGE_SIZE ->
    exists mosi' addr' latch',
      fold_left (fun s i => snd (transferByte (byte_at i) s)) l
        (mkDevice mem twc busy wel true mosi miso (PhWrite addr latch count)
           [] [])
      = mkDevice mem twc busy wel true mosi' miso
          (PhWrite addr' latch' (count + Z.of_nat (length l))) [] [] /\
      forall x : Z,
        latch' x
        = if (addr <=? x) && (x <? addr + Z.of_nat (length l))
          then u8 (byte_at (nth (Z.to_nat (x - addr)) l 0))
          else latch x.
Proof.
  induction l as [| i rest IH];
    intros mem twc busy wel mosi miso addr latch count Hpage.
  - exists mosi, addr, latch. cbn [fold_left length Z.of_nat].
    rewrite Z.add_0_r. split; [reflexivity |].
    intros x. destruct (Z.leb_spec addr x), (Z.ltb_spec x (addr + 0));
      cbn; try reflexivity; lia.
  - cbn [fold_left]. rewrite dev_transfer_in by reflexivity.
    cbn [snd dev_on_byte].
    destruct rest as [| i2 rest2].
    + cbn [fold_left length]. change (Z.of_nat 1) with 1.
      eexists _, _, _. split; [reflexivity |].
      intros x. unfold upd.
      destruct (Z.eqb_spec x addr) as [-> | Hne].
      * rewrite Z.leb_refl. destruct (Z.ltb_spec addr (addr + 1)); [| lia].
        rewrite Z.sub_diag. reflexivity.
      * destruct (Z.leb_spec addr x), (Z.ltb_spec x (addr + 1));
          cbn; try reflexivity; lia.
    + cbn [length] in Hpage.
      rewrite next_in_page_succ by lia.
      destruct (IH mem twc busy wel (Z.testbit (byte_at i) 0) miso (addr + 1)
                  (upd latch addr (u8 (byte_at i))) (count + 1))
        as (mosi' & addr' & latch' & -> & Hl).
      { cbn [length].
        assert (E : (addr + 1) mod PAGE_SIZE = addr mod PAGE_SIZE + 1).
        { unfold PAGE_SIZE in *. Z.div_mod_to_equations. lia. }
        lia. }
      exists mosi', addr', latch'. split.
      { f_equal. f_equal. cbn [length]. lia. }
      intros x. rewrite Hl. unfold upd.
      set (m := length (i2 :: rest2)).
      replace (Z.of_nat (length (i :: i2 :: rest2))) with (Z.of_nat m + 1)
        by (subst m; cbn [length]; lia).
      destruct (Z.eqb_spec x addr) as [-> | Hne].
      * rewrite Z.leb_refl.
        destruct (Z.leb_spec (addr + 1) addr); [lia |].
        destruct (Z.ltb_spec addr (addr + (Z.of_nat m + 1))); [| lia].
        cbn. rewrite Z.sub_diag. reflexivity.
      * destruct (Z.leb_spec (addr + 1) x), (Z.leb_spec addr x),
          (Z.ltb_spec x (addr + 1 + Z.of_nat m)),
          (Z.ltb_spec x (addr + (Z.of_nat m + 1)));
          cbn; try reflexivity; try lia.
        replace (Z.to_nat (x - addr)) with (S (Z.to_nat (x - (addr + 1))))
          by lia.
        reflexivity.
Qed.

Lemma upto_length (n : Z) : length (upto n) = Z.to_nat n.
Proof. unfold upto. now rewrite length_map, length_seq. Qed.

Lemma upto_nth (n : Z) (k : nat) :
  (k < Z.to_nat n)%nat -> nth k (upto n) 0 = Z.of_nat k.
Proof.
  intros Hk. unfold upto.
  change 0 with (Z.of_nat 0). rewrite map_nth, seq_nth by exact Hk.
  reflexivity.
Qed.

Section ArraysOnDevice.
Variable size_bits : Z.
Hypothesis size_bits_9 : 9 <= size_bits.

(** The page loop of [writeArray] against the chip; [polls] is the fuel a
    wait needs. *)
Lemma writeArray_loop_dev (buffer : list Z) (fuel : nat) :
  Z.of_nat (length buffer) < 2 ^ size_bits ->
  forall (polls address offset remaining : Z) (d : Device),
    dev_ready d ->
    0 <= offset -> 0 <= remaining <= CAPACITY_BYTES ->
    offset + remaining <= Z.of_nat (length buffer) ->
    remaining <= Z.of_nat fuel - polls ->
    dev_twc d <= 10 * (polls - 1) -> 1 <= polls ->
    exists d' : Device,
      writeArray_loop size_bits fuel address buffer offset remaining d
      = Some d' /\
      dev_ready d' /\ dev_twc d' = dev_twc d /\
      forall x : Z,
        0 <= x < CAPACITY_BYTES ->
        dev_mem d' x
        = if (x - address) mod CAPACITY_BYTES <? remaining
          then u8 (load buffer (offset + (x - address) mod CAPACITY_BYTES))
          else dev_mem d x.
Proof.
  intros Hsize. induction fuel as [| fuel IH];
    intros polls address offset remaining d Hready Hoff Hrem Hbuf Hfuel Htwc
      Hpolls; cbn [writeArray_loop].
  - destruct (Z.ltb_spec 0 remaining) as [Hlt | Hge]; [lia |].
    exists d. split; [reflexivity |]. split; [exact Hready |].
    split; [reflexivity |]. intros x Hx.
    pose proof (Z.mod_pos_bound (x - address) CAPACITY_BYTES
                  ltac:(unfold CAPACITY_BYTES; lia)).
    destruct (Z.ltb_spec ((x - address) mod CAPACITY_BYTES) remaining);
      [lia | reflexivity].
  - destruct (Z.ltb_spec 0 remaining) as [Hlt | Hge].
    2:{ exists d. split; [reflexivity |]. split; [exact Hready |].
        split; [reflexivity |]. intros x Hx.
        pose proof (Z.mod_pos_bound (x - address) CAPACITY_BYTES
                      ltac:(unfold CAPACITY_BYTES; lia)).
        destruct (Z.ltb_spec ((x - address) mod CAPACITY_BYTES) remaining);
          [lia | reflexivity]. }
    cbv zeta.
    set (chunk := if remaining <? PAGE_SIZE - address mod PAGE_SIZE
                  then remaining else PAGE_SIZE - address mod PAGE_SIZE).
    assert (Hpage : 0 <= address mod PAGE_SIZE < PAGE_SIZE)
      by (apply Z.mod_pos_bound; reflexivity).
    assert (Hchunk : 1 <= chunk <= remaining
                     /\ address mod PAGE_SIZE + chunk <= PAGE_SIZE).
    { subst chunk.
      destruct (Z.ltb_spec remaining (PAGE_SIZE - address mod PAGE_SIZE));
        lia. }
    destruct Hready as [Hsel Hbusy].
    destruct d as [mem twc busy wel sel mosi miso ph ibits obits].
    cbn [dev_sel dev_busy dev_mem dev_twc] in *. subst sel.
    destruct (writeEnable_dev mem twc busy wel mosi miso ph ibits obits Hbusy)
      as (mosi1 & miso1 & ->).
    cbn [cs_low DeviceDriver dev_cs_low].
    rewrite dev_transfer_in by reflexivity.
    change (u8 (opcode_byte WRITE)) with 2. cbn [dev_on_byte].
    change (2 =? opcode_byte RDSR) with false.
    change (2 =? opcode_byte READ) with false.
    change (2 =? opcode_byte WRITE) with true.
    destruct (Z.ltb_spec 0 busy) as [Hpos | _]; [lia |]. cbv iota.
    rewrite dev_transfer_in by reflexivity. cbn [dev_on_byte].
    rewrite dev_transfer_in by reflexivity. cbn [dev_on_byte].
    rewrite !u8_u8. fold (addr_hi address) (addr_lo address).
    rewrite addr_frame.
    set (a0 := address mod CAPACITY_BYTES).
    assert (Ha0 : 0 <= a0 < CAPACITY_BYTES
                  /\ a0 mod PAGE_SIZE = address mod PAGE_SIZE).
    { subst a0. unfold CAPACITY_BYTES, PAGE_SIZE.
      Z.div_mod_to_equations. lia. }
    change (writeArray_body size_bits buffer offset)
      with (fun (s : Device) (i : Z) =>
              snd (transferByte
                     ((fun i => load buffer (usize size_bits (offset + i))) i)
                     s)).
    edestruct (page_write_run_dev
                 (fun i => load buffer (usize size_bits (offset + i)))
                 (upto chunk) mem twc busy true)
      as (mosi2 & addr2 & latch2 & -> & Hlatch).
    { rewrite upto_length. lia. }
    rewrite upto_length in *. rewrite Z2Nat.id in * by lia.
    cbn [cs_high DeviceDriver dev_cs_high].
    destruct (Z.ltb_spec 0 (0 + chunk)) as [_ | Hc]; [| lia].
    edestruct (waitUntilWriteComplete_dev fuel)
      as (d1 & -> & Hr1 & Hm1 & Ht1 & _).
    { reflexivity. }
    { cbn [dev_busy]. lia. }
    { lia. }
    cbn [dev_mem dev_twc] in Hm1, Ht1.
    rewrite (usize_small size_bits (offset + chunk)) by lia.
    rewrite (usize_small size_bits (remaining - chunk)) by lia.
    destruct (IH polls (usize size_bits (address + chunk)) (offset + chunk)
                (remaining - chunk) d1 Hr1)
      as (d' & Hloop & Hr' & Ht' & Hcells); try lia.
    exists d'. split; [exact Hloop |]. split; [exact Hr' |].
    split; [congruence |]. intros x Hx.
    rewrite (Hcells x Hx), Hm1, Hlatch.
    rewrite <- Zminus_mod_idemp_r, usize_mod_capacity,
      Zminus_mod_idemp_r by exact size_bits_9.
    assert (Hm : (x - address) mod CAPACITY_BYTES
                 = (x - a0) mod CAPACITY_BYTES).
    { subst a0. now rewrite Zminus_mod_idemp_r. }
    rewrite Hm.
    destruct (Z.leb_spec a0 x) as [Hle | Hgt].
    + rewrite (Z.mod_small (x - a0)) by lia.
      destruct (Z.ltb_spec x (a0 + chunk)) as [Hin | Hout]; cbn [andb].
      * assert (E : (x - (address + chunk)) mod CAPACITY_BYTES
                    = x - a0 - chunk + CAPACITY_BYTES).
        { replace (x - (address + chunk)) with (x - address - chunk) by lia.
          rewrite <- Zminus_mod_idemp_l, Hm, (Z.mod_small (x - a0)) by lia.
          unfold CAPACITY_BYTES in *. Z.div_mod_to_equations. lia. }
        rewrite E.
        destruct (Z.ltb_spec (x - a0 - chunk + CAPACITY_BYTES)
                    (remaining - chunk)); [lia |].
        destruct (Z.ltb_spec (x - a0) remaining); [| lia].
        rewrite upto_nth by lia. rewrite Z2Nat.id by lia.
        rewrite usize_small by lia. reflexivity.
      * assert (E : (x - (address + chunk)) mod CAPACITY_BYTES
                    = x - a0 - chunk).
        { replace (x - (address + chunk)) with (x - address - chunk) by lia.
          rewrite <- Zminus_mod_idemp_l, Hm, (Z.mod_small (x - a0)) by lia.
          apply Z.mod_small. lia. }
        rewrite E.
        destruct (Z.ltb_spec (x - a0 - chunk) (remaining - chunk)),
          (Z.ltb_spec (x - a0) remaining); try lia; try reflexivity.
        f_equal. f_equal. lia.
    + cbn [andb].
      assert (Hw : (x - a0) mod CAPACITY_BYTES = x - a0 + CAPACITY_BYTES).
      { unfold CAPACITY_BYTES in *. Z.div_mod_to_equations. lia. }
      assert (E : (x - (address + chunk)) mod CAPACITY_BYTES
                  = x - a0 + CAPACITY_BYTES - chunk).
      { replace (x - (address + chunk)) with (x - address - chunk) by lia.
        rewrite <- Zminus_mod_idemp_l, Hm, Hw.
        apply Z.mod_small.
        assert (a0 + chunk <= CAPACITY_BYTES).
        { unfold CAPACITY_BYTES, PAGE_SIZE in *.
          Z.div_mod_to_equations. lia. }
        lia. }
      rewrite E, Hw.
      destruct (Z.ltb_spec (x - a0 + CAPACITY_BYTES - chunk)
                  (remaining - chunk)),
        (Z.ltb_spec (x - a0 + CAPACITY_BYTES) remaining);
        try lia; try reflexivity.
      f_equal. f_equal. lia.
Qed.
End ArraysOnDevice.

Lemma upto_In_inv (n v : Z) : In v (upto n) -> 0 <= v < n.
Proof.
  unfold upto. intros Hin. apply in_map_iff in Hin.
  destruct Hin as (k & <- & Hk). apply in_seq in Hk. lia.
Qed.

Lemma map_load_upto (buffer : list Z) :
  map (fun i => u8 (load buffer i)) (upto (Z.of_nat (length buffer)))
  = map u8 buffer.
Proof.
  unfold upto, load. rewrite Nat2Z.id, map_map.
  rewrite (map_ext _ (fun j => u8 (nth (0 + j) buffer 0)))
    by (intros j; now rewrite Nat2Z.id).
  rewrite <- (map_map (fun j => nth (0 + j) buffer 0) u8).
  rewrite map_nth_seq by (cbn; lia).
  cbn [skipn]. now rewrite firstn_all.
Qed.

Lemma enough_fuel_polls (d : Device) :
  dev_twc d <= 10 * (Z.of_nat (Z.to_nat (dev_twc d / 10)) + 2 - 1).
Proof.
  pose proof (Z.div_mod (dev_twc d) 10 ltac:(lia)).
  pose proof (Z.mod_pos_bound (dev_twc d) 10 ltac:(lia)). lia.
Qed.

(** [writeArray] against the chip. *)
Lemma writeArray_dev (size_bits : Z) (fuel : nat) (address : Z)
    (buffer : list Z) (d : Device) :
  9 <= size_bits ->
  buffer <> [] ->
  Z.of_nat (length buffer) <= CAPACITY_BYTES ->
  Z.of_nat (length buffer) < 2 ^ size_bits ->
  dev_ready d ->
  (enough_fuel d + length buffer <= fuel)%nat ->
  exists d' : Device,
    writeArray size_bits fuel address (Some buffer)
      (Z.of_nat (length buffer)) d = Some d' /\
    dev_ready d' /\ dev_twc d' = dev_twc d /\
    forall x : Z,
      0 <= x < CAPACITY_BYTES ->
      dev_mem d' x
      = if (x - address) mod CAPACITY_BYTES <? Z.of_nat (length buffer)
        then u8 (load buffer ((x - address) mod CAPACITY_BYTES))
        else dev_mem d x.
Proof.
  intros Hsb Hne Hcap Hsz Hready Hfuel. unfold writeArray.
  destruct (Z.eqb_spec (Z.of_nat (length buffer)) 0) as [E | _].
  { destruct buffer; [contradiction | discriminate E]. }
  unfold enough_fuel in Hfuel.
  destruct (writeArray_loop_dev size_bits Hsb buffer fuel Hsz
              (Z.of_nat (Z.to_nat (dev_twc d / 10)) + 2) address 0
              (Z.of_nat (length buffer)) d Hready)
    as (d' & Hloop & Hr & Ht & Hcells); try lia.
  { apply enough_fuel_polls. }
  exists d'. repeat split; try assumption; apply Hr.
Qed.

(** ** Bus traffic of the arrays and of the bit fields *)

Lemma read_frame_usize (size_bits a b : Z) (count : nat) :
  16 <= size_bits -> usize size_bits a = usize size_bits b ->
  read_frame a count = read_frame b count.
Proof.
  intros Hs Hab. unfold read_frame.
  destruct (usize_same_frame _ _ _ Hs Hab) as (-> & -> & _). reflexivity.
Qed.

(** One round of a bit loop takes one byte off the bytes left. *)
Lemma bytes_left_step (bitOffset bitCount bits_done : Z) :
  0 <= bitOffset <= 7 -> 0 <= bits_done < bitCount ->
  let start_bit := start_bit_of bitOffset bits_done in
  let bits_in_byte := Z.min (8 - start_bit) (bitCount - bits_done) in
  0 < bits_done + bits_in_byte <= bitCount /\
  (start_bit + (bitCount - bits_done) + 7) / 8
  = 1 + (start_bit_of bitOffset (bits_done + bits_in_byte)
         + (bitCount - (bits_done + bits_in_byte)) + 7) / 8 /\
  0 <= (start_bit_of bitOffset (bits_done + bits_in_byte)
         + (bitCount - (bits_done + bits_in_byte)) + 7) / 8.
Proof.
  intros Hoff Hdone. cbv zeta. unfold start_bit_of.
  destruct (Z.eqb_spec bits_done 0) as [E | E].
  - destruct (Z.eqb_spec (bits_done + Z.min (8 - bitOffset)
                                        (bitCount - bits_done)) 0);
      [lia |].
    Z.div_mod_to_equations. lia.
  - destruct (Z.eqb_spec (bits_done + Z.min (8 - 0)
                                        (bitCount - bits_done)) 0);
      [lia |].
    Z.div_mod_to_equations. lia.
Qed.

Section BitFieldTraffic.
Context {L : Type} `{Logging L}.
Variable size_bits : Z.
Hypothesis size_bits_16 : 16 <= size_bits.

Lemma readArray_emits (address : Z) (buf : list Z) (length : Z) (s : L) :
  bus_sel (decode (log_of s)) = false ->
  length <> 0 ->
  emits (decode (log_of s))
    (decode (log_of (snd (readArray address (Some buf) length s))))
    [read_frame address (Z.to_nat length)].
Proof.
  intros Hsel Hlen. unfold readArray.
  destruct (Z.eqb_spec length 0) as [E | _]; [contradiction |].
  destruct (decode (log_of s)) as [items sel line bits bytes ok] eqn:Hst.
  cbn in Hsel. subst sel.
  pose proof (decode_cs_low _ _ _ _ _ _ Hst) as Q1.
  destruct (transferByte _ _) as [r1 s1] eqn:E1.
  pose proof (decode_transferByte _ _ _ _ _ _ _ _ Q1 E1) as Q2.
  destruct (transferByte _ s1) as [r2 s2] eqn:E2.
  pose proof (decode_transferByte _ _ _ _ _ _ _ _ Q2 E2) as Q3.
  destruct (transferByte _ s2) as [r3 s3] eqn:E3.
  pose proof (decode_transferByte _ _ _ _ _ _ _ _ Q3 E3) as Q4.
  destruct (decode_readArray_run (upto length) buf _ _ _ _ _ Q4)
    as [line' Q5].
  destruct (fold_left readArray_body _ _) as [buf' s4].
  cbn [snd] in *. rewrite (decode_cs_high _ _ _ _ _ Q5).
  unfold upto. rewrite length_map, length_seq.
  unfold emits, read_frame, addr_hi, addr_lo.
  cbn [bus_sel bus_ok bus_items app].
  rewrite !(u8_small (u8 _)) by apply u8_range. repeat split.
Qed.

(** The loop of [readBits] issues one READ frame per byte left. *)
Lemma readBits_loop_reads (bitOffset bitCount : Z) (fuel : nat) :
  0 <= bitOffset <= 7 -> 1 <= bitCount <= 32 ->
  forall (bits_read byte_addr spec_addr result r : Z) (s s' : L),
    usize size_bits byte_addr = usize size_bits spec_addr ->
    0 <= bits_read <= bitCount ->
    bus_sel (decode (log_of s)) = false ->
    readBits_loop size_bits fuel bitOffset bitCount bits_read byte_addr
      result s = Some (r, s') ->
    emits (decode (log_of s)) (decode (log_of s'))
      (read_items spec_addr
         (Z.to_nat
            ((start_bit_of bitOffset bits_read + (bitCount - bits_read) + 7)
             / 8))).
Proof.
  intros Hoff Hn. induction fuel as [| fuel IH];
    intros bits_read byte_addr spec_addr result r s s' Haddr Hdone Hsel;
    cbn [readBits_loop].
  - destruct (Z.ltb_spec bits_read bitCount) as [Hlt | Hge];
      [discriminate |].
    intros [= _ <-]. replace bits_read with bitCount by lia.
    unfold start_bit_of. destruct (Z.eqb_spec bitCount 0); [lia |].
    rewrite Z.sub_diag. cbn. now apply emits_refl.
  - destruct (Z.ltb_spec bits_read bitCount) as [Hlt | Hge].
    2:{ intros [= _ <-]. replace bits_read with bitCount by lia.
        unfold start_bit_of. destruct (Z.eqb_spec bitCount 0); [lia |].
        rewrite Z.sub_diag. cbn. now apply emits_refl. }
    pose proof (readByte_emits byte_addr s Hsel) as Hr.
    rewrite (read_frame_usize _ _ _ 1 size_bits_16 Haddr) in Hr.
    destruct (readByte byte_addr s) as [byte s1]. cbn [snd] in Hr.
    cbv zeta.
    destruct (bytes_left_step bitOffset bitCount bits_read Hoff
                ltac:(lia)) as (Hnext & Hcount & Hpos).
    rewrite bits_in_byte_of_min
      by (unfold start_bit_of; destruct (bits_read =? 0); lia).
    rewrite u32_small by (change (2 ^ 32) with 4294967296; lia).
    intros Hloop.
    assert (Hrest := Hloop).
    apply (IH _ _ (spec_addr + 1)) in Hrest;
      [| exact (usize_add_l _ _ _ _ Haddr) | lia
       | exact (emits_sel _ _ _ Hr)].
    rewrite Hcount, Z2Nat.inj_add, Nat.add_1_l by lia.
    change (Z.to_nat 1) with 1%nat. cbn [Nat.add read_items].
    exact (emits_trans _ _ _ _ _ Hr Hrest).
Qed.

(** The loop of [writeBits] runs one read-modify-write cycle per byte
    left. *)
Lemma writeBits_loop_cycles (bitOffset bitCount value : Z) (fuel : nat) :
  0 <= bitOffset <= 7 -> 1 <= bitCount <= 32 ->
  forall (bits_written byte_addr spec_addr : Z) (s s' : L),
    usize size_bits byte_addr = usize size_bits spec_addr ->
    0 <= bits_written <= bitCount ->
    bus_sel (decode (log_of s)) = false ->
    writeBits_loop size_bits fuel bitOffset bitCount value bits_written
      byte_addr s = Some s' ->
    exists cycles : list (Z * nat),
      length cycles
      = Z.to_nat
          ((start_bit_of bitOffset bits_written
            + (bitCount - bits_written) + 7) / 8) /\
      emits (decode (log_of s)) (decode (log_of s'))
        (rmw_items spec_addr cycles).
Proof.
  intros Hoff Hn. induction fuel as [| fuel IH];
    intros bits_written byte_addr spec_addr s s' Haddr Hdone Hsel;
    cbn [writeBits_loop].
  - destruct (Z.ltb_spec bits_written bitCount) as [Hlt | Hge];
      [discriminate |].
    intros [= <-]. replace bits_written with bitCount by lia.
    unfold start_bit_of. destruct (Z.eqb_spec bitCount 0); [lia |].
    rewrite Z.sub_diag. exists []. split; [reflexivity |].
    now apply emits_refl.
  - destruct (Z.ltb_spec bits_written bitCount) as [Hlt | Hge].
    2:{ intros [= <-]. replace bits_written with bitCount by lia.
        unfold start_bit_of. destruct (Z.eqb_spec bitCount 0); [lia |].
        rewrite Z.sub_diag. exists []. split; [reflexivity |].
        now apply emits_refl. }
    pose proof (readByte_emits byte_addr s Hsel) as Hr.
    rewrite (read_frame_usize _ _ _ 1 size_bits_16 Haddr) in Hr.
    destruct (readByte byte_addr s) as [byte s1]. cbn [snd] in Hr.
    cbv zeta.
    destruct (bytes_left_step bitOffset bitCount bits_written Hoff
                ltac:(lia)) as (Hnext & Hcount & Hpos).
    rewrite bits_in_byte_of_min
      by (unfold start_bit_of; destruct (bits_written =? 0); lia).
    rewrite (u32_small (bits_written + Z.min _ _))
      by (change (2 ^ 32) with 4294967296; lia).
    set (byte' := u8 (Z.lor _ _)).
    destruct (writeByte fuel byte_addr byte' s1) as [s2 |] eqn:Hw;
      [| discriminate].
    intros Hloop.
    destruct (writeByte_emits _ _ _ _ _ (emits_sel _ _ _ Hr) Hw)
      as (k & _ & Hwe).
    apply (IH _ _ (spec_addr + 1)) in Hloop;
      [| exact (usize_add_l _ _ _ _ Haddr) | lia
       | exact (emits_sel _ _ _ Hwe)].
    destruct Hloop as (cycles & Hlen & Hrest).
    exists ((byte', k) :: cycles). split.
    + cbn [length]. rewrite Hlen, Hcount, Z2Nat.inj_add by lia.
      reflexivity.
    + cbn [rmw_items].
      change (read_frame spec_addr 1
                :: chunk_items (spec_addr, [byte'], k)
                     ++ rmw_items (spec_addr + 1) cycles)
        with ([read_frame spec_addr 1]
                ++ chunk_items (spec_addr, [byte'], k)
                ++ rmw_items (spec_addr + 1) cycles).
      refine (emits_trans _ _ _ _ _ Hr (emits_trans _ _ _ _ _ _ Hrest)).
      destruct (usize_same_frame _ _ _ size_bits_16 Haddr)
        as (Hhi & Hlo & _).
      unfold chunk_items, write_frame in *. rewrite <- Hhi, <- Hlo.
      exact Hwe.
Qed.
End BitFieldTraffic.

Lemma page_writes_chunks (chunks : list (Z * list Z)) :
  forall polls : list nat,
    length polls = length chunks ->
    page_writes (flat_map chunk_items (combine chunks polls))
    = length chunks.
Proof.
  unfold page_writes.
  induction chunks as [| [a data] chunks IH]; intros [| k polls] Hlen;
    try discriminate Hlen; [reflexivity |].
  cbn [combine flat_map chunk_items]. cbn [app filter is_write wren_frame].
  change (opcode_byte WREN =? opcode_byte WRITE) with false. cbv iota.
  unfold write_frame at 1. cbn [is_write].
  rewrite Z.eqb_refl. cbn [length]. f_equal.
  rewrite filter_app, length_app.
  assert (E : filter is_write (poll_items k) = []).
  { clear. induction k as [| k IHk]; [reflexivity |].
    cbn [poll_items filter is_write rdsr_frame].
    change (opcode_byte RDSR =? opcode_byte WRITE) with false.
    cbv iota. exact IHk. }
  rewrite E. cbn [length Nat.add]. apply IH. now injection Hlen.
Qed.

(** There are as many chunks as pages touched. *)
Lemma page_chunks_count (n : nat) :
  forall (address : Z) (data : list Z),
    (length data <= n)%nat -> data <> [] ->
    Z.of_nat (length (page_chunks address data))
    = pages_touched address (Z.of_nat (length data)).
Proof.
  unfold pages_touched, PAGE_SIZE.
  induction n as [| n IH]; intros address data Hlen Hne.
  - destruct data; [contradiction | cbn in Hlen; lia].
  - rewrite page_chunks_cons by exact Hne. cbv zeta.
    set (chunk := Z.min (Z.of_nat (length data)) (16 - address mod 16)).
    pose proof (Z.mod_pos_bound address 16 ltac:(lia)) as Hm.
    assert (Hd : (1 <= length data)%nat).
    { destruct data; [contradiction | cbn; lia]. }
    assert (Hc : 1 <= chunk <= Z.of_nat (length data)) by lia.
    cbn [length].
    destruct (skipn (Z.to_nat chunk) data) as [| b rest] eqn:Hs.
    + assert (Hall : chunk = Z.of_nat (length data)).
      { pose proof (length_skipn (Z.to_nat chunk) data) as Hl.
        rewrite Hs in Hl. cbn in Hl. lia. }
      unfold page_chunks. cbn [length page_chunks_from].
      destruct (length data) eqn:El; [lia |].
      change (page_chunks_from _ _ []) with (@nil (Z * list Z)).
      cbn [length]. Z.div_mod_to_equations. lia.
    + rewrite Nat2Z.inj_succ, IH.
      * rewrite <- Hs, length_skipn.
        assert (Hlt : chunk < Z.of_nat (length data)).
        { pose proof (length_skipn (Z.to_nat chunk) data) as Hl.
          rewrite Hs in Hl. cbn in Hl. lia. }
        assert (Hce : chunk = 16 - address mod 16) by lia.
        rewrite Nat2Z.inj_sub, Z2Nat.id by lia.
        Z.div_mod_to_equations. lia.
      * rewrite <- Hs, length_skipn. lia.
      * discriminate.
Qed.

(** ** Addresses and bit indexes out of range *)

Lemma addr_bytes_low16 (a b : Z) :
  a mod 2 ^ 16 = b mod 2 ^ 16 -> addr_hi a = addr_hi b /\ addr_lo a = addr_lo b.
Proof.
  change (2 ^ 16) with 65536. intros Hab.
  rewrite !addr_hi_mod, !addr_lo_mod. Z.div_mod_to_equations. lia.
Qed.

(** A one-bit mask shifted past bit 7 is empty once cut to a byte. *)
Lemma mask_of_past_byte (bit : Z) : 8 <= bit <= 31 -> mask_of bit 1 = 0.
Proof.
  intros Hbit. unfold mask_of.
  change (u32 (u32 (Z.shiftl 1 1) - 1)) with 1.
  rewrite Z.shiftl_1_l, u32_small.
  - unfold u8. replace bit with ((bit - 8) + 8) by lia.
    rewrite Z.pow_add_r by lia. apply Z.mod_mul. discriminate.
  - split; [apply Z.pow_nonneg; lia | apply Z.pow_lt_mono_r; lia].
Qed.

(** [8 - bit] wraps around and the minimum is the one bit asked for. *)
Lemma bits_in_byte_of_past_byte (bit : Z) :
  9 <= bit <= 31 -> bits_in_byte_of bit 1 0 = 1.
Proof.
  intros Hbit. unfold bits_in_byte_of, u32. rewrite Z.sub_0_r.
  change (1 mod 2 ^ 32) with 1.
  replace (8 - bit) with ((8 - bit + 2 ^ 32) + (-1) * 2 ^ 32) by lia.
  rewrite Z.mod_add by discriminate.
  rewrite Z.mod_small by (change (2 ^ 32) with 4294967296; lia).
  change (2 ^ 32) with 4294967296. lia.
Qed.

Section AnyDriver.
Context {D : Type} `{SPIBitBangingDriver D}.
Variable size_bits : Z.

Lemma transferByte_range (x : Z) (s : D) :
  0 <= fst (transferByte x s) < 256.
Proof.
  rewrite transferByte_rounds. cbn [fst].
  pose proof (exchange_all_length (bits_of_byte x) s) as Hlen.
  destruct (fst (exchange_all (bits_of_byte x) s))
    as [| b7 [| b6 [| b5 [| b4 [| b3 [| b2 [| b1 [| b0 [| ? ?]]]]]]]]];
    try discriminate Hlen.
  apply byte_of_bits_range.
Qed.

Lemma readByte_range (address : Z) (s : D) :
  0 <= fst (readByte address s) < 256.
Proof.
  unfold readByte.
  destruct (transferByte _ _) as [r1 s1].
  destruct (transferByte _ s1) as [r2 s2].
  destruct (transferByte _ s2) as [r3 s3].
  pose proof (transferByte_range 255 s3) as Hr.
  destruct (transferByte 255 s3) as [r4 s4]. exact Hr.
Qed.

(** The loop of [readBits] sets no bit at or above [bitCount]. *)
Lemma readBits_loop_below (bitOffset bitCount : Z) (fuel : nat) :
  0 <= bitOffset <= 7 -> 1 <= bitCount <= 32 ->
  forall (bits_read byte_addr result r : Z) (s s' : D),
    0 <= bits_read <= bitCount ->
    0 <= result ->
    (forall i : Z, bits_read <= i -> Z.testbit result i = false) ->
    readBits_loop size_bits fuel bitOffset bitCount bits_read byte_addr
      result s = Some (r, s') ->
    0 <= r /\ forall i : Z, bitCount <= i -> Z.testbit r i = false.
Proof.
  intros Hoff Hn. induction fuel as [| fuel IH];
    intros bits_read byte_addr result r s s' Hdone Hpos Hhigh;
    cbn [readBits_loop].
  - destruct (Z.ltb_spec bits_read bitCount) as [Hlt | Hge];
      [discriminate |].
    intros [= <- _]. split; [exact Hpos |]. intros i Hi. apply Hhigh. lia.
  - destruct (Z.ltb_spec bits_read bitCount) as [Hlt | Hge].
    2:{ intros [= <- _]. split; [exact Hpos |].
        intros i Hi. apply Hhigh. lia. }
    destruct (readByte byte_addr s) as [byte s1]. cbv zeta.
    set (start_bit := start_bit_of bitOffset bits_read).
    assert (Hstart : 0 <= start_bit <= 7)
      by (subst start_bit; unfold start_bit_of;
          destruct (bits_read =? 0); lia).
    rewrite bits_in_byte_of_min by lia.
    set (bib := Z.min (8 - start_bit) (bitCount - bits_read)).
    rewrite (u32_small (bits_read + bib))
      by (change (2 ^ 32) with 4294967296; lia).
    apply IH.
    + lia.
    + apply Z.lor_nonneg. split; [exact Hpos |].
      unfold u32. apply Z.mod_pos_bound. reflexivity.
    + intros i Hi. rewrite Z.lor_spec, Hhigh by lia. cbn [orb].
      unfold u32. rewrite Z.testbit_mod_pow2 by lia.
      rewrite Z.shiftl_spec by lia.
      rewrite read_val_spec by lia.
      destruct (Z.ltb_spec (i - bits_read) bib); [lia |].
      cbn [andb]. apply andb_false_r.
Qed.
End AnyDriver.

(** ** Single bits on the chip model *)

Lemma span_index_one_bit (address x j bit : Z) :
  0 <= x < CAPACITY_BYTES -> 0 <= j < 8 -> 0 <= bit <= 7 ->
  (bit <=? span_index address x j) && (span_index address x j <? bit + 1)
  = (x =? address mod CAPACITY_BYTES) && (j =? bit).
Proof.
  intros Hx Hj Hbit. unfold span_index.
  destruct (Z.eqb_spec x (address mod CAPACITY_BYTES)) as [-> | Hne].
  - rewrite Zminus_mod_idemp_l, Z.sub_diag, Z.mod_0_l by discriminate.
    cbn [andb]. destruct (Z.eqb_spec j bit), (Z.leb_spec bit (8 * 0 + j)),
      (Z.ltb_spec (8 * 0 + j) (bit + 1)); cbn; try reflexivity; lia.
  - assert (Hm : 0 < (x - address) mod CAPACITY_BYTES).
    { pose proof (Z.mod_pos_bound (x - address) CAPACITY_BYTES
                    ltac:(reflexivity)) as Hb.
      destruct (Z.eq_dec ((x - address) mod CAPACITY_BYTES) 0) as [E | E];
        [| lia].
      exfalso. apply Hne.
      unfold CAPACITY_BYTES in *. Z.div_mod_to_equations. lia. }
    destruct (Z.ltb_spec (8 * ((x - address) mod CAPACITY_BYTES) + j)
                (bit + 1)); [lia |].
    cbn [andb]. apply andb_false_r.
Qed.

Lemma one_bit_value (r : Z) (b : bool) :
  (forall i : Z, 0 <= i -> Z.testbit r i = (i <? 1) && b) ->
  negb (r =? 0) = b.
Proof.
  intros Hbits.
  assert (E : r = if b then 1 else 0).
  { apply Z.bits_inj'. intros i Hi. rewrite (Hbits i Hi).
    destruct (Z.ltb_spec i 1) as [Hlt | Hge]; cbn [andb].
    - replace i with 0 by lia. destruct b; reflexivity.
    - destruct b.
      + change 1 with (Z.ones 1). rewrite Z.testbit_ones_nonneg by lia.
        destruct (Z.ltb_spec i 1); [lia | reflexivity].
      + now rewrite Z.testbit_0_l. }
  rewrite E. destruct b; reflexivity.
Qed.

Lemma readBit_dev (size_bits : Z) (fuel : nat) (address bit : Z)
    (d : Device) :
  9 <= size_bits -> 0 <= bit <= 7 -> dev_ready d -> (5 <= fuel)%nat ->
  exists d' : Device,
    readBit size_bits fuel address bit d
    = Some (Z.testbit (dev_mem d (address mod CAPACITY_BYTES)) bit, d') /\
    dev_settles d d'.
Proof.
  intros Hsb Hbit Hready Hfuel. unfold readBit.
  destruct (readBits_dev size_bits Hsb fuel address bit 1 d Hready
              ltac:(lia) Hbit Hfuel) as (r & d' & -> & Hs & Hbits).
  exists d'. split; [| exact Hs]. do 2 f_equal.
  apply one_bit_value. intros i Hi. rewrite (Hbits i Hi).
  destruct (Z.ltb_spec i 1) as [Hlt | Hge]; [| reflexivity].
  replace i with 0 by lia. rewrite Z.add_0_r.
  cbn [andb]. apply mem_bit_first. lia.
Qed.

(** ** A MISO line stuck high *)

Section MisoHigh.
Context {D : Type} `{SPIBitBangingDriver D}.
Variable size_bits : Z.
Hypothesis miso_high : forall s : D, fst (read_miso s) = true.

Lemma exchange_all_high (bits : list bool) :
  forall s : D, fst (exchange_all bits s) = map (fun _ => true) bits.
Proof.
  induction bits as [| b bits IH]; intros s; [reflexivity |].
  cbn [exchange_all map]. unfold exchange.
  pose proof (miso_high (pulse_clock (write_mosi b s))) as Hm.
  destruct (read_miso _) as [m s1]. cbn [fst] in Hm. subst m.
  specialize (IH s1). destruct (exchange_all bits s1) as [ms s2].
  cbn [fst] in *. now rewrite IH.
Qed.

Lemma transferByte_high (x : Z) (s : D) : fst (transferByte x s) = 0xFF.
Proof.
  rewrite transferByte_rounds. cbn [fst]. rewrite exchange_all_high.
  reflexivity.
Qed.

Lemma readStatus_high (s : D) : fst (readStatus s) = 0xFF.
Proof.
  unfold readStatus.
  destruct (transferByte _ _) as [r1 s1].
  pose proof (transferByte_high 255 s1) as Hr.
  destruct (transferByte 255 s1) as [r2 s2]. exact Hr.
Qed.

Lemma readByte_high (address : Z) (s : D) : fst (readByte address s) = 0xFF.
Proof.
  unfold readByte.
  destruct (transferByte _ _) as [r1 s1].
  destruct (transferByte _ s1) as [r2 s2].
  destruct (transferByte _ s2) as [r3 s3].
  pose proof (transferByte_high 255 s3) as Hr.
  destruct (transferByte 255 s3) as [r4 s4]. exact Hr.
Qed.

Lemma waitUntilWriteComplete_high (fuel : nat) :
  forall s : D, waitUntilWriteComplete fuel s = None.
Proof.
  induction fuel as [| fuel IH]; intros s; [reflexivity |].
  cbn [waitUntilWriteComplete].
  pose proof (readStatus_high s) as Hst.
  destruct (readStatus s) as [status s1]. cbn [fst] in Hst. subst status.
  change (Z.land 255 WIP_MASK =? 0) with false. cbv iota. apply IH.
Qed.

Lemma writeByte_high (fuel : nat) (address value : Z) (s : D) :
  writeByte fuel address value s = None.
Proof.
  unfold writeByte.
  destruct (transferByte _ _) as [r1 s1].
  destruct (transferByte _ s1) as [r2 s2].
  destruct (transferByte _ s2) as [r3 s3].
  destruct (transferByte _ s3) as [r4 s4].
  apply waitUntilWriteComplete_high.
Qed.
End MisoHigh.

(** * Main theorems *)



(** The same run on the chip model, frame by frame, and the cells after
    it: the two page writes, each after its WREN and followed by the polls
    of its wait, and the twenty bytes at 10..29. *)
Example writeArray_20_at_10_on_chip :
  bus_items (decode (log_of demo_written))
  = flat_map chunk_items
      [(10, firstn 6 demo_buffer, 3%nat); (16, skipn 6 demo_buffer, 3%nat)]
  /\ map (dev_mem (fst demo_written)) (upto 32)
     = repeat 0xFF 10 ++ demo_buffer ++ [0xFF; 0xFF].
Proof. vm_compute. split; reflexivity. Qed.

(** C2.  Against the chip model, for every address in [0, 512) and every
    byte value, [writeByte] returns once it is given enough fuel for its
    status polls, and a [readByte] of the same address then returns the
    value written. *)
Theorem writeByte_readByte_round_trip (a v : Z) (d : Device) :
  0 <= a < 512 -> 0 <= v < 256 -> dev_ready d ->
  forall fuel : nat,
    (enough_fuel d <= fuel)%nat ->
    exists d' : Device,
      writeByte fuel a v d = Some d' /\ fst (readByte a d') = v.
Proof.
  intros Ha Hv Hready fuel Hfuel. unfold enough_fuel in Hfuel.
  assert (Htwc : dev_twc d <= 10 * (Z.of_nat fuel - 1))
    by (pose proof (Z.div_mod (dev_twc d) 10 ltac:(lia));
        pose proof (Z.mod_pos_bound (dev_twc d) 10 ltac:(lia)); lia).
  destruct (writeByte_dev fuel a v d Hready Htwc ltac:(lia))
    as (d' & Hw & Hr' & Hm & _).
  exists d'. split; [exact Hw |].
  destruct (readByte_dev a d' Hr') as (d'' & -> & _). cbn [fst].
  rewrite Hm. unfold upd. rewrite Z.eqb_refl, u8_u8. now apply u8_small.
Qed.

Lemma writeByte_readByte_round_trip_witness :
  0 <= 300 < 512 /\ 0 <= 0x5A < 256 /\ dev_ready (blank_device 5000) /\
  (enough_fuel (blank_device 5000) <= 507)%nat /\
  exists d' : Device,
    writeByte 507 300 0x5A (blank_device 5000) = Some d' /\
    fst (readByte 300 d') = 0x5A.
Proof.
  split; [lia |]. split; [lia |].
  split; [split; [reflexivity | cbn; lia] |].
  split; [vm_compute; lia |].
  apply (writeByte_readByte_round_trip 300 0x5A (blank_device 5000)).
  - lia.
  - lia.
  - split; [reflexivity | cbn; lia].
  - vm_compute. lia.
Defined.

(** C3.  Against the chip model, for every address, every bit count in
    1..32 and every bit offset in 0..7, [writeBits] followed by
    [readBits] of the same field returns the low [bitCount] bits of the
    value written, [value & ((1 << bitCount) - 1)]: higher bits of the
    value are masked off. *)
Theorem writeBits_readBits_round_trip (size_bits a off n value : Z)
    (d : Device) :
  9 <= size_bits ->
  1 <= n <= 32 -> 0 <= off <= 7 -> dev_ready d ->
  forall fuel : nat,
    (enough_fuel d <= fuel)%nat ->
    exists (d' d'' : Device),
      writeBits size_bits fuel a off n value d = Some d' /\
      readBits size_bits fuel a off n d'
      = Some (Z.land value (Z.shiftl 1 n - 1), d'').
Proof.
  intros size_bits_9 Hn Hoff Hready fuel Hfuel. unfold enough_fuel in Hfuel.
  assert (Htwc : dev_twc d <= 10 * (Z.of_nat fuel - 6))
    by (pose proof (Z.div_mod (dev_twc d) 10 ltac:(lia));
        pose proof (Z.mod_pos_bound (dev_twc d) 10 ltac:(lia)); lia).
  destruct (writeBits_dev size_bits size_bits_9 fuel a off n value d Hready
              Hn Hoff ltac:(lia) Htwc)
    as (d' & Hw & Hr' & _ & Hbits).
  destruct (readBits_dev size_bits size_bits_9 fuel a off n d' Hr' Hn Hoff
              ltac:(lia))
    as (r & d'' & Hrd & _ & Hr).
  exists d', d''. split; [exact Hw |]. rewrite Hrd. do 2 f_equal.
  apply Z.bits_inj'. intros i Hi. rewrite (Hr i Hi).
  rewrite Z.shiftl_1_l, Z.land_spec.
  replace (2 ^ n - 1) with (Z.ones n) by (rewrite Z.ones_equiv; lia).
  rewrite Z.testbit_ones_nonneg by lia.
  destruct (Z.ltb_spec i n) as [Hin | Hout];
    [| rewrite andb_false_r; reflexivity].
  cbn [andb]. rewrite andb_true_r. unfold mem_bit.
  rewrite Hbits.
  - rewrite span_index_mem_bit by (unfold CAPACITY_BYTES; lia).
    destruct (Z.leb_spec off (off + i)); [| lia].
    destruct (Z.ltb_spec (off + i) (off + n)); [| lia].
    cbn [andb]. f_equal. lia.
  - apply Z.mod_pos_bound. unfold CAPACITY_BYTES. lia.
  - apply Z.mod_pos_bound. lia.
Qed.

Lemma writeBits_readBits_round_trip_witness :
  9 <= 32 /\ 1 <= 13 <= 32 /\ 0 <= 3 <= 7 /\ dev_ready (blank_device 25) /\
  (enough_fuel (blank_device 25) <= 12)%nat /\
  exists d' d'' : Device,
    writeBits 32 12 511 3 13 0x1ABC (blank_device 25) = Some d' /\
    readBits 32 12 511 3 13 d'
    = Some (Z.land 0x1ABC (Z.shiftl 1 13 - 1), d'').
Proof.
  assert (H1 : 9 <= 32) by lia.
  assert (H2 : 1 <= 13 <= 32) by lia.
  assert (H3 : 0 <= 3 <= 7) by lia.
  assert (H4 : dev_ready (blank_device 25))
    by (split; [reflexivity | cbn; lia]).
  assert (H5 : (enough_fuel (blank_device 25) <= 12)%nat)
    by (vm_compute; lia).
  repeat (split; [assumption |]).
  exact (writeBits_readBits_round_trip 32 511 3 13 0x1ABC (blank_device 25)
           H1 H2 H3 H4 12%nat H5).
Defined.

(** C4.  Against the chip model, for every address, every bit count in
    1..32 and every bit offset in 0..7, [writeBits] leaves every bit of
    every cell that lies outside the span of [bitCount] bits starting at
    bit [bitOffset] of the cell [address] as it was, in the first and the
    last cell of the span as in all the others.  Bit [j] of cell [x] lies
    in the span when its position [span_index address x j], counted from
    bit 0 of the cell [address], is in [[bitOffset, bitOffset +
    bitCount)]; the bits inside the span take the bits of the value. *)
Theorem writeBits_frame (size_bits a off n value : Z) (d : Device) :
  9 <= size_bits ->
  1 <= n <= 32 -> 0 <= off <= 7 -> dev_ready d ->
  forall fuel : nat,
    (enough_fuel d <= fuel)%nat ->
    exists d' : Device,
      writeBits size_bits fuel a off n value d = Some d' /\
      forall x j : Z,
        0 <= x < CAPACITY_BYTES -> 0 <= j < 8 ->
        (~ off <= span_index a x j < off + n ->
         Z.testbit (dev_mem d' x) j = Z.testbit (dev_mem d x) j) /\
        (off <= span_index a x j < off + n ->
         Z.testbit (dev_mem d' x) j
         = Z.testbit value (span_index a x j - off)).
Proof.
  intros size_bits_9 Hn Hoff Hready fuel Hfuel. unfold enough_fuel in Hfuel.
  assert (Htwc : dev_twc d <= 10 * (Z.of_nat fuel - 6))
    by (pose proof (Z.div_mod (dev_twc d) 10 ltac:(lia));
        pose proof (Z.mod_pos_bound (dev_twc d) 10 ltac:(lia)); lia).
  destruct (writeBits_dev size_bits size_bits_9 fuel a off n value d Hready
              Hn Hoff ltac:(lia) Htwc)
    as (d' & Hw & _ & _ & Hbits).
  exists d'. split; [exact Hw |]. intros x j Hx Hj.
  rewrite (Hbits x j Hx Hj).
  destruct (Z.leb_spec off (span_index a x j)),
    (Z.ltb_spec (span_index a x j) (off + n));
    cbn [andb]; split; intros Hspan; try reflexivity; lia.
Qed.

Lemma writeBits_frame_witness :
  9 <= 32 /\ 1 <= 13 <= 32 /\ 0 <= 3 <= 7 /\ dev_ready (blank_device 25) /\
  (enough_fuel (blank_device 25) <= 12)%nat /\
  exists d' : Device,
    writeBits 32 12 511 3 13 0x1ABC (blank_device 25) = Some d' /\
    forall x j : Z,
      0 <= x < CAPACITY_BYTES -> 0 <= j < 8 ->
      (~ 3 <= span_index 511 x j < 3 + 13 ->
       Z.testbit (dev_mem d' x) j = Z.testbit (dev_mem (blank_device 25) x) j)
      /\ (3 <= span_index 511 x j < 3 + 13 ->
          Z.testbit (dev_mem d' x) j
          = Z.testbit 0x1ABC (span_index 511 x j - 3)).
Proof.
  assert (H1 : 9 <= 32) by lia.
  assert (H2 : 1 <= 13 <= 32) by lia.
  assert (H3 : 0 <= 3 <= 7) by lia.
  assert (H4 : dev_ready (blank_device 25))
    by (split; [reflexivity | cbn; lia]).
  assert (H5 : (enough_fuel (blank_device 25) <= 12)%nat)
    by (vm_compute; lia).
  repeat (split; [assumption |]).
  exact (writeBits_frame 32 511 3 13 0x1ABC (blank_device 25) H1 H2 H3 H4
           12%nat H5).
Defined.

(** The field of the two witnesses above on the chip model: 13 bits at
    bit 3 of the last cell run over into cell 0, and only they change. *)
Example writeBits_wraps_at_capacity :
  option_map (fun d => map (dev_mem d) [510; 511; 0; 1])
    (writeBits 32 12 511 3 13 0x1ABC (blank_device 25))
  = Some [0xFF; 0xE7; 0xD5; 0xFF].
Proof. vm_compute. reflexivity. Qed.

(** C5.  [transferByte] makes eight rounds, each a [write_mosi] of the
    next bit of its argument from bit 7 down to bit 0, a [pulse_clock] and
    a [read_miso], and returns the eight sampled levels read as a byte with
    the first sample in bit 7.  Against the driver that echoes MOSI onto
    MISO it returns its argument, for every byte and so for 0x00, 0xFF and
    0xA5. *)
Theorem transferByte_msb_first {L : Type} `{Logging L} (tx_byte : Z) (s : L)
    (x : Z) (e : Echo) :
  0 <= x < 256 ->
  (exists rx : list bool,
      length rx = 8%nat /\
      trace (snd (transferByte tx_byte s))
      = trace s ++ flat_map bit_events (combine (bits_of_byte tx_byte) rx) /\
      fst (transferByte tx_byte s) = byte_of_bits rx) /\
  fst (transferByte x e) = x /\
  fst (transferByte 0x00 e) = 0x00 /\
  fst (transferByte 0xFF e) = 0xFF /\
  fst (transferByte 0xA5 e) = 0xA5.
Proof.
  intros Hx. split; [apply transferByte_trace |].
  repeat split; apply transferByte_echo; lia.
Qed.

Lemma transferByte_msb_first_witness :
  0 <= 0xA5 < 256 /\
  trace (snd (transferByte 0xA5 ((false : Echo), [])))
  = [EvMosi true; EvClock; EvMiso true; EvMosi false; EvClock; EvMiso false;
     EvMosi true; EvClock; EvMiso true; EvMosi false; EvClock; EvMiso false;
     EvMosi false; EvClock; EvMiso false; EvMosi true; EvClock; EvMiso true;
     EvMosi false; EvClock; EvMiso false; EvMosi true; EvClock; EvMiso true]
  /\ fst (transferByte 0xA5 (false : Echo)) = 0xA5.
Proof.
  split; [lia |].
  split; [vm_compute; reflexivity |].
  apply (transferByte_msb_first (L := Logged Echo) 0xA5 (false, []) 0xA5 false).
  lia.
Defined.

(** C6.  A call with an invalid argument returns at once and touches
    nothing: with [bitCount] 0 or above 32, [readBits] returns 0 and
    [writeBits] returns, and with a null buffer or [length] 0, [readArray]
    and [writeArray] return, each in the very driver state it was called
    in, whatever the driver.  On a logged driver the log is therefore
    unchanged: no chip-select change, no transfer, no delay. *)
Theorem invalid_arguments_no_op {D : Type} `{SPIBitBangingDriver D}
    (size_bits : Z) (fuel : nat) (address bitOffset bitCount value : Z)
    (buffer : option (list Z)) (length : Z) (s : D) :
  bitCount = 0 \/ 32 < bitCount ->
  buffer = None \/ length = 0 ->
  readBits size_bits fuel address bitOffset bitCount s = Some (0, s) /\
  writeBits size_bits fuel address bitOffset bitCount value s = Some s /\
  readArray address buffer length s = (buffer, s) /\
  writeArray size_bits fuel address buffer length s = Some s.
Proof.
  intros Hbits Harr. unfold readBits, writeBits, readArray, writeArray.
  assert (Hguard : (bitCount =? 0) || (32 <? bitCount) = true).
  { destruct Hbits as [-> | Hgt]; [reflexivity |].
    apply orb_true_iff. right. now apply Z.ltb_lt. }
  rewrite Hguard. destruct Harr as [-> | ->].
  - repeat split.
  - destruct buffer; repeat split.
Qed.

Lemma invalid_arguments_no_op_witness :
  (33 = 0 \/ 32 < 33) /\ (Some [1; 2; 3] = None \/ 0 = 0) /\
  let s : Logged Device := (blank_device 5000, []) in
  readBits 32 0 7 0 33 s = Some (0, s) /\
  writeBits 32 0 7 0 33 0xFFFF s = Some s /\
  readArray 7 (Some [1; 2; 3]) 0 s = (Some [1; 2; 3], s) /\
  writeArray 32 0 7 (Some [1; 2; 3]) 0 s = Some s.
Proof.
  split; [right; lia |]. split; [right; reflexivity |].
  apply (invalid_arguments_no_op (D := Logged Device)).
  - right. lia.
  - right. reflexivity.
Defined.

(** C7.  [waitUntilWriteComplete] returns exactly at the first status
    poll whose bit 0 (WIP) is clear, in the state that poll leaves: the
    polls before it all saw WIP set and each was followed by a delay of 10
    microseconds, so that on the bus [k] busy observations make [k + 1]
    status reads and [k] delays.  Against the stub whose status bytes are
    0x01, 0x01, 0x00 it returns after exactly 3 status reads and 2
    delays. *)
Theorem waitUntilWriteComplete_polls {L : Type} `{Logging L} (fuel : nat)
    (s s' : L) :
  (waitUntilWriteComplete fuel s = Some s' <->
   exists k : nat,
     (k < fuel)%nat /\
     (forall j : nat, (j < k)%nat -> wip_at j s = true) /\
     wip_at k s = false /\
     s' = snd (readStatus (poll_state k s))) /\
  (forall k : nat,
      bus_sel (decode (log_of s)) = false ->
      emits (decode (log_of s))
        (decode (log_of (snd (readStatus (poll_state k s))))) (poll_items k) /\
      status_reads (poll_items k) = S k /\ delays (poll_items k) = k) /\
  (forall stub_fuel : nat,
      (3 <= stub_fuel)%nat ->
      exists t : Logged StatusStub,
        waitUntilWriteComplete stub_fuel
          (mkStatusStub [0x01; 0x01; 0x00] 0, [])
        = Some t /\
        bus_items (decode (log_of t)) = poll_items 2 /\
        status_reads (bus_items (decode (log_of t))) = 3%nat /\
        delays (bus_items (decode (log_of t))) = 2%nat).
Proof.
  split; [apply waitUntilWriteComplete_first_clear |]. split.
  - intros k Hsel. split; [| apply poll_items_counts].
    revert s Hsel. induction k as [| k IH]; intros s Hsel.
    + cbn [poll_state poll_items]. now apply readStatus_emits.
    + rewrite <- poll_state_shift.
      pose proof (readStatus_emits s Hsel) as Hr.
      pose proof (delay_us_emits 10 _ (emits_sel _ _ _ Hr)) as Hd.
      pose proof (IH _ (emits_sel _ _ _ Hd)) as Hrest.
      exact (emits_trans _ _ _ _ _ Hr (emits_trans _ _ _ _ _ Hd Hrest)).
  - intros stub_fuel Hfuel.
    set (t0 := (mkStatusStub [0x01; 0x01; 0x00] 0, []) : Logged StatusStub).
    exists (snd (readStatus (poll_state 2 t0))). split.
    + apply waitUntilWriteComplete_first_clear. exists 2%nat.
      split; [lia |]. split; [| split; [| reflexivity]].
      * intros [| [| j]] Hj; [vm_compute; reflexivity .. | lia].
      * vm_compute. reflexivity.
    + vm_compute. repeat split.
Qed.

(** C8.  No WRITE frame goes on the bus without a complete WREN frame
    right before it, issued by the same operation: the frames a public
    operation adds to the bus are guarded by themselves, whatever came
    before; so are those of any sequence of operations; and [writeByte]
    adds exactly a WREN frame, its WRITE frame and the status polls of
    its wait. *)
Theorem write_enable_precedes_write {L : Type} `{Logging L}
    (size_bits : Z) (fuel : nat) (ops : list Op) (s s' : L) :
  bus_sel (decode (log_of s)) = false ->
  run_ops size_bits fuel ops s = Some s' ->
  (exists its : list Item,
      bus_items (decode (log_of s')) = bus_items (decode (log_of s)) ++ its
      /\ wren_guarded its = true) /\
  (log_of s = [] -> wren_guarded (bus_items (decode (log_of s'))) = true) /\
  (forall (op : Op) (t t' : L),
      bus_sel (decode (log_of t)) = false ->
      run_op size_bits fuel op t = Some t' ->
      exists its : list Item,
        bus_items (decode (log_of t'))
        = bus_items (decode (log_of t)) ++ its /\
        wren_guarded its = true) /\
  (forall (address value : Z) (t t' : L),
      bus_sel (decode (log_of t)) = false ->
      writeByte fuel address value t = Some t' ->
      exists k : nat,
        bus_items (decode (log_of t'))
        = bus_items (decode (log_of t))
            ++ wren_frame :: write_frame address [value] :: poll_items k).
Proof.
  intros Hsel Hrun.
  destruct (run_ops_tidy size_bits _ _ _ _ Hsel Hrun)
    as (its & (_ & _ & _ & Hits) & Hg).
  split; [exists its; split; assumption |]. split; [| split].
  - intros Hlog. rewrite Hits, Hlog. exact Hg.
  - intros op t t' Ht Hop.
    destruct (run_op_tidy size_bits _ _ _ _ Ht Hop)
      as (its' & (_ & _ & _ & Hits') & Hg').
    exists its'. split; assumption.
  - intros address value t t' Ht Hw.
    destruct (writeByte_emits _ _ _ _ _ Ht Hw)
      as (k & _ & (_ & _ & _ & Hk)).
    exists k. exact Hk.
Qed.

Lemma write_enable_precedes_write_witness :
  bus_sel (decode (log_of demo_chip)) = false /\
  run_ops 32 12 (demo_ops1 ++ demo_ops2) demo_chip = Some demo_ran /\
  wren_guarded (bus_items (decode (log_of demo_ran))) = true.
Proof.
  assert (H1 : bus_sel (decode (log_of demo_chip)) = false) by reflexivity.
  assert (H2 : run_ops 32 12 (demo_ops1 ++ demo_ops2) demo_chip
               = Some demo_ran) by (vm_compute; reflexivity).
  pose proof (write_enable_precedes_write (L := Logged Device) 32 12
                (demo_ops1 ++ demo_ops2) demo_chip demo_ran H1 H2)
    as (_ & Hall & _).
  split; [exact H1 |]. split; [exact H2 |]. apply Hall. reflexivity.
Defined.



(** Five rounds are needed: one bit of the first byte, three whole bytes,
    seven bits of the fifth. *)
Example five_rounds_needed :
  readBits (D := Quiet) 32 4 0 7 32 tt = None
  /\ readBits (D := Quiet) 32 5 0 7 32 tt = Some (0, tt).
Proof. vm_compute. split; reflexivity. Qed.

(** C10.  Chip select stays in balanced brackets: over any sequence of
    public operations started with chip select released, the calls made
    on the driver are a succession of transactions, each opened by one
    [cs_low] made while chip select is released and closed by one
    [cs_high], with every MOSI, clock and MISO call inside one; no
    [cs_low] is made while chip select is asserted, and chip select is
    released wherever the sequence is cut between two operations, and at
    its end. *)
Theorem chip_select_brackets {L : Type} `{Logging L} (size_bits : Z)
    (fuel : nat) (ops1 ops2 : list Op) (s s' : L) :
  cs_bracketed (trace s) = true ->
  run_ops size_bits fuel (ops1 ++ ops2) s = Some s' ->
  exists s1 : L,
    run_ops size_bits fuel ops1 s = Some s1 /\
    run_ops size_bits fuel ops2 s1 = Some s' /\
    cs_bracketed (trace s1) = true /\
    cs_bracketed (trace s') = true.
Proof.
  intros Hs Hrun.
  destruct (run_ops_app _ _ _ _ _ _ Hrun) as (s1 & Hrun1 & Hrun2).
  exists s1. split; [exact Hrun1 |]. split; [exact Hrun2 |].
  pose proof (run_ops_tidy size_bits _ _ _ _ (bracketed_sel _ Hs) Hrun1)
    as Ht1.
  pose proof (tidy_bracketed _ _ Hs Ht1) as Hs1.
  split; [exact Hs1 |].
  exact (tidy_bracketed _ _ Hs1
           (run_ops_tidy size_bits _ _ _ _ (bracketed_sel _ Hs1) Hrun2)).
Qed.

Lemma chip_select_brackets_witness :
  cs_bracketed (trace demo_chip) = true /\
  run_ops 32 12 (demo_ops1 ++ demo_ops2) demo_chip = Some demo_ran /\
  exists s1 : Logged Device,
    run_ops 32 12 demo_ops1 demo_chip = Some s1 /\
    run_ops 32 12 demo_ops2 s1 = Some demo_ran /\
    cs_bracketed (trace s1) = true /\
    cs_bracketed (trace demo_ran) = true.
Proof.
  assert (H1 : cs_bracketed (trace demo_chip) = true) by reflexivity.
  assert (H2 : run_ops 32 12 (demo_ops1 ++ demo_ops2) demo_chip
               = Some demo_ran) by (vm_compute; reflexivity).
  split; [exact H1 |]. split; [exact H2 |].
  exact (chip_select_brackets (L := Logged Device) 32 12 demo_ops1 demo_ops2
           demo_chip demo_ran H1 H2).
Defined.

(** * Further properties *)

(** X1.  [readArray] with a buffer and a length other than 0 is one
    transaction: on any logged driver it puts on the bus exactly one READ
    frame, made of the opcode, the two address bytes and [length] dummy
    bytes 0xFF, inside one assertion of chip select; the command is not
    issued again between the bytes. *)
Theorem readArray_single_frame {L : Type} `{Logging L} (address : Z)
    (buf : list Z) (length : Z) (s : L) :
  bus_sel (decode (log_of s)) = false ->
  length <> 0 ->
  emits (decode (log_of s))
    (decode (log_of (snd (readArray address (Some buf) length s))))
    [read_frame address (Z.to_nat length)].
Proof. intros Hsel Hlen. now apply readArray_emits. Qed.

Lemma readArray_single_frame_witness :
  bus_sel (decode (log_of demo_written)) = false /\ 4 <> 0 /\
  emits (decode (log_of demo_written))
    (decode
       (log_of (snd (readArray 510 (Some [0; 0; 0; 0; 0]) 4 demo_written))))
    [Frame [0x03; 0x01; 0xFE; 0xFF; 0xFF; 0xFF; 0xFF]].
Proof.
  assert (H1 : bus_sel (decode (log_of demo_written)) = false)
    by (vm_compute; reflexivity).
  assert (H2 : 4 <> 0) by discriminate.
  split; [exact H1 |]. split; [exact H2 |].
  exact (readArray_single_frame 510 [0; 0; 0; 0; 0] 4 demo_written H1 H2).
Defined.

(** X2.  Against the chip model, [readArray] of [length] bytes into a
    buffer that holds at least as many stores the cells from [address] on,
    in order and wrapping from 511 to 0, in the first [length] entries,
    leaves the other entries as they were and leaves the cells, the
    write-enable latch and the readiness of the chip unchanged.  The
    address is taken modulo 512. *)
Theorem readArray_reads_cells (address : Z) (buf : list Z) (length : Z)
    (d : Device) :
  dev_ready d ->
  0 < length <= Z.of_nat (List.length buf) ->
  exists d' : Device,
    readArray address (Some buf) length d
    = (Some
         (map (fun i => u8 (dev_mem d ((address + i) mod CAPACITY_BYTES)))
            (upto length)
          ++ skipn (Z.to_nat length) buf),
       d') /\
    dev_settles d d'.
Proof. intros Hready Hlen. now apply readArray_dev. Qed.

Lemma readArray_reads_cells_witness :
  dev_ready (fst demo_written) /\
  0 < 4 <= Z.of_nat (length [0; 0; 0; 0; 0]) /\
  exists d' : Device,
    readArray 8 (Some [0; 0; 0; 0; 0]) 4 (fst demo_written)
    = (Some [0xFF; 0xFF; 0; 1; 0], d') /\
    dev_settles (fst demo_written) d'.
Proof.
  assert (H1 : dev_ready (fst demo_written))
    by (split; vm_compute; [reflexivity | discriminate]).
  assert (H2 : 0 < 4 <= Z.of_nat (length [0; 0; 0; 0; 0])) by (cbn; lia).
  split; [exact H1 |]. split; [exact H2 |].
  exact (readArray_reads_cells 8 [0; 0; 0; 0; 0] 4 (fst demo_written) H1 H2).
Defined.

(** X3.  Against the chip model, [writeArray] of a non-empty buffer of
    at most 512 bytes returns once its fuel covers the polls of a write
    cycle and one round per byte, leaves the chip ready, and has stored
    byte [i] of the buffer in cell [(address + i) mod 512] for every [i]
    below the length, whatever pages the range crosses; every other cell
    keeps its value. *)
Theorem writeArray_stores_buffer (size_bits : Z) (fuel : nat) (address : Z)
    (buffer : list Z) (d : Device) :
  9 <= size_bits ->
  buffer <> [] ->
  Z.of_nat (length buffer) <= CAPACITY_BYTES ->
  Z.of_nat (length buffer) < 2 ^ size_bits ->
  dev_ready d ->
  (enough_fuel d + length buffer <= fuel)%nat ->
  exists d' : Device,
    writeArray size_bits fuel address (Some buffer)
      (Z.of_nat (length buffer)) d = Some d' /\
    dev_ready d' /\
    forall x : Z,
      0 <= x < CAPACITY_BYTES ->
      dev_mem d' x
      = if (x - address) mod CAPACITY_BYTES <? Z.of_nat (length buffer)
        then u8 (load buffer ((x - address) mod CAPACITY_BYTES))
        else dev_mem d x.
Proof.
  intros Hsb Hne Hcap Hsz Hready Hfuel.
  destruct (writeArray_dev size_bits fuel address buffer d Hsb Hne Hcap Hsz
              Hready Hfuel) as (d' & Hw & Hr & _ & Hcells).
  exists d'. auto.
Qed.

Lemma writeArray_stores_buffer_witness :
  9 <= 32 /\ demo_buffer <> [] /\
  Z.of_nat (length demo_buffer) <= CAPACITY_BYTES /\
  Z.of_nat (length demo_buffer) < 2 ^ 32 /\
  dev_ready (blank_device 25) /\
  (enough_fuel (blank_device 25) + length demo_buffer <= 29)%nat /\
  exists d' : Device,
    writeArray 32 29 506 (Some demo_buffer) (Z.of_nat (length demo_buffer))
      (blank_device 25) = Some d' /\
    dev_ready d' /\
    forall x : Z,
      0 <= x < CAPACITY_BYTES ->
      dev_mem d' x
      = if (x - 506) mod CAPACITY_BYTES <? Z.of_nat (length demo_buffer)
        then u8 (load demo_buffer ((x - 506) mod CAPACITY_BYTES))
        else dev_mem (blank_device 25) x.
Proof.
  assert (H1 : 9 <= 32) by lia.
  assert (H2 : demo_buffer <> []) by discriminate.
  assert (H3 : Z.of_nat (length demo_buffer) <= CAPACITY_BYTES)
    by (vm_compute; discriminate).
  assert (H4 : Z.of_nat (length demo_buffer) < 2 ^ 32)
    by (vm_compute; reflexivity).
  assert (H5 : dev_ready (blank_device 25))
    by (split; [reflexivity | cbn; lia]).
  assert (H6 : (enough_fuel (blank_device 25) + length demo_buffer <= 29)%nat)
    by (vm_compute; lia).
  repeat (split; [assumption |]).
  exact (writeArray_stores_buffer 32 29 506 demo_buffer (blank_device 25)
           H1 H2 H3 H4 H5 H6).
Defined.

(** X4.  Against the chip model, a [writeArray] of a buffer followed by
    a [readArray] of the same address and length gives the bytes written
    back, also when the range crosses page boundaries or the end of the
    memory; [u8] is the identity on bytes.  The entries of the destination
    past the length are untouched. *)
Theorem writeArray_readArray_round_trip (size_bits : Z) (fuel : nat)
    (address : Z) (buffer buf : list Z) (d : Device) :
  9 <= size_bits ->
  buffer <> [] ->
  Z.of_nat (length buffer) <= CAPACITY_BYTES ->
  Z.of_nat (length buffer) < 2 ^ size_bits ->
  (length buffer <= length buf)%nat ->
  dev_ready d ->
  (enough_fuel d + length buffer <= fuel)%nat ->
  exists d' d'' : Device,
    writeArray size_bits fuel address (Some buffer)
      (Z.of_nat (length buffer)) d = Some d' /\
    readArray address (Some buf) (Z.of_nat (length buffer)) d'
    = (Some (map u8 buffer ++ skipn (length buffer) buf), d'').
Proof.
  intros Hsb Hne Hcap Hsz Hbuf Hready Hfuel.
  destruct (writeArray_dev size_bits fuel address buffer d Hsb Hne Hcap Hsz
              Hready Hfuel) as (d' & Hw & Hr & _ & Hcells).
  assert (Hlen : 0 < Z.of_nat (length buffer) <= Z.of_nat (length buf)).
  { destruct buffer; [contradiction | cbn [length] in *; lia]. }
  destruct (readArray_dev address buf _ d' Hr Hlen) as (d'' & Hrd & _).
  exists d', d''. split; [exact Hw |]. rewrite Hrd, Nat2Z.id.
  f_equal. f_equal. f_equal. rewrite <- map_load_upto.
  apply map_ext_in. intros i Hi. apply upto_In_inv in Hi.
  assert (Hx : 0 <= (address + i) mod CAPACITY_BYTES < CAPACITY_BYTES)
    by (apply Z.mod_pos_bound; reflexivity).
  rewrite (Hcells _ Hx).
  assert (E : ((address + i) mod CAPACITY_BYTES - address) mod CAPACITY_BYTES
              = i).
  { rewrite Zminus_mod_idemp_l.
    replace (address + i - address) with i by lia.
    apply Z.mod_small. lia. }
  rewrite E. destruct (Z.ltb_spec i (Z.of_nat (length buffer))); [| lia].
  apply u8_u8.
Qed.

Lemma writeArray_readArray_round_trip_witness :
  9 <= 32 /\ demo_buffer <> [] /\
  Z.of_nat (length demo_buffer) <= CAPACITY_BYTES /\
  Z.of_nat (length demo_buffer) < 2 ^ 32 /\
  (length demo_buffer <= length (repeat 0 24))%nat /\
  dev_ready (blank_device 25) /\
  (enough_fuel (blank_device 25) + length demo_buffer <= 29)%nat /\
  exists d' d'' : Device,
    writeArray 32 29 506 (Some demo_buffer) (Z.of_nat (length demo_buffer))
      (blank_device 25) = Some d' /\
    readArray 506 (Some (repeat 0 24)) (Z.of_nat (length demo_buffer)) d'
    = (Some (map u8 demo_buffer ++ skipn (length demo_buffer) (repeat 0 24)),
       d'').
Proof.
  assert (H1 : 9 <= 32) by lia.
  assert (H2 : demo_buffer <> []) by discriminate.
  assert (H3 : Z.of_nat (length demo_buffer) <= CAPACITY_BYTES)
    by (vm_compute; discriminate).
  assert (H4 : Z.of_nat (length demo_buffer) < 2 ^ 32)
    by (vm_compute; reflexivity).
  assert (H5 : (length demo_buffer <= length (repeat 0 24))%nat)
    by (vm_compute; lia).
  assert (H6 : dev_ready (blank_device 25))
    by (split; [reflexivity | cbn; lia]).
  assert (H7 : (enough_fuel (blank_device 25) + length demo_buffer <= 29)%nat)
    by (vm_compute; lia).
  repeat (split; [assumption |]).
  exact (writeArray_readArray_round_trip 32 29 506 demo_buffer (repeat 0 24)
           (blank_device 25) H1 H2 H3 H4 H5 H6 H7).
Defined.

(** X5.  On any logged driver, a [writeArray] of a non-empty buffer that
    returns has issued exactly as many WRITE frames as there are 16-byte
    pages in which the range lies,
    [(address mod 16 + length + 15) / 16]: one write cycle per page
    touched. *)
Theorem writeArray_page_write_count {L : Type} `{Logging L} (size_bits : Z)
    (fuel : nat) (address : Z) (buffer : list Z) (s s' : L) :
  16 <= size_bits ->
  buffer <> [] ->
  Z.of_nat (length buffer) < 2 ^ size_bits ->
  bus_sel (decode (log_of s)) = false ->
  writeArray size_bits fuel address (Some buffer)
    (Z.of_nat (length buffer)) s = Some s' ->
  exists its : list Item,
    emits (decode (log_of s)) (decode (log_of s')) its /\
    Z.of_nat (page_writes its)
    = pages_touched address (Z.of_nat (length buffer)).
Proof.
  intros Hsb Hne Hsz Hsel. unfold writeArray.
  destruct (Z.eqb_spec (Z.of_nat (length buffer)) 0) as [E | _].
  { destruct buffer; [contradiction | discriminate E]. }
  intros Hloop.
  replace (Z.of_nat (length buffer)) with (Z.of_nat (length buffer) - 0)
    in Hloop by lia.
  destruct (writeArray_loop_chunks size_bits Hsb buffer fuel Hsz address
              address 0 s s' ltac:(lia) eq_refl Hsel Hloop)
    as (polls & Hlen & Hem).
  cbn [Z.to_nat skipn] in Hlen, Hem.
  eexists. split; [exact Hem |].
  rewrite page_writes_chunks by exact Hlen.
  now apply (page_chunks_count (length buffer)).
Qed.

Lemma writeArray_page_write_count_witness :
  16 <= 32 /\ demo_buffer <> [] /\
  Z.of_nat (length demo_buffer) < 2 ^ 32 /\
  bus_sel (decode (log_of demo_chip)) = false /\
  writeArray 32 8 10 (Some demo_buffer) (Z.of_nat (length demo_buffer))
    demo_chip = Some demo_written /\
  exists its : list Item,
    emits (decode (log_of demo_chip)) (decode (log_of demo_written)) its /\
    Z.of_nat (page_writes its) = 2.
Proof.
  assert (H1 : 16 <= 32) by lia.
  assert (H2 : demo_buffer <> []) by discriminate.
  assert (H3 : Z.of_nat (length demo_buffer) < 2 ^ 32)
    by (vm_compute; reflexivity).
  assert (H4 : bus_sel (decode (log_of demo_chip)) = false) by reflexivity.
  assert (H5 : writeArray 32 8 10 (Some demo_buffer)
                 (Z.of_nat (length demo_buffer)) demo_chip
               = Some demo_written)
    by (vm_compute; reflexivity).
  repeat (split; [assumption |]).
  exact (writeArray_page_write_count 32 8 10 demo_buffer demo_chip
           demo_written H1 H2 H3 H4 H5).
Defined.

(** X6.  On any logged driver, a [readBits] of a field of 1 to 32 bits
    at a bit offset of 0 to 7 that returns has put on the bus one READ
    frame of a single byte for each byte in which the field lies, at
    consecutive addresses from [address], and nothing else:
    [(bitOffset + bitCount + 7) / 8] separate commands, no sequential
    read. *)
Theorem readBits_byte_reads {L : Type} `{Logging L} (size_bits : Z)
    (fuel : nat) (address bitOffset bitCount r : Z) (s s' : L) :
  16 <= size_bits ->
  1 <= bitCount <= 32 -> 0 <= bitOffset <= 7 ->
  bus_sel (decode (log_of s)) = false ->
  readBits size_bits fuel address bitOffset bitCount s = Some (r, s') ->
  emits (decode (log_of s)) (decode (log_of s'))
    (read_items address (Z.to_nat (bytes_spanned bitOffset bitCount))).
Proof.
  intros Hsb Hn Hoff Hsel. unfold readBits.
  destruct (Z.eqb_spec bitCount 0) as [E | _]; [lia |].
  destruct (Z.ltb_spec 32 bitCount) as [E | _]; [lia |]. cbn [orb].
  intros Hloop.
  apply (readBits_loop_reads size_bits Hsb bitOffset bitCount fuel Hoff Hn
           0 address address 0 r s s' eq_refl ltac:(lia) Hsel) in Hloop.
  unfold bytes_spanned. unfold start_bit_of in Hloop. cbn [Z.eqb] in Hloop.
  rewrite Z.sub_0_r in Hloop. exact Hloop.
Qed.

Lemma readBits_byte_reads_witness :
  16 <= 32 /\ 1 <= 13 <= 32 /\ 0 <= 3 <= 7 /\
  bus_sel (decode (log_of demo_written)) = false /\
  readBits 32 12 511 3 13 demo_written
  = Some (fst demo_bits_read, snd demo_bits_read) /\
  emits (decode (log_of demo_written))
    (decode (log_of (snd demo_bits_read)))
    [Frame [0x03; 0x01; 0xFF; 0xFF]; Frame [0x03; 0x02; 0x00; 0xFF]].
Proof.
  assert (H1 : 16 <= 32) by lia.
  assert (H2 : 1 <= 13 <= 32) by lia.
  assert (H3 : 0 <= 3 <= 7) by lia.
  assert (H4 : bus_sel (decode (log_of demo_written)) = false)
    by (vm_compute; reflexivity).
  assert (H5 : readBits 32 12 511 3 13 demo_written
               = Some (fst demo_bits_read, snd demo_bits_read))
    by (vm_compute; reflexivity).
  refine (conj H1 (conj H2 (conj H3 (conj H4 (conj H5 _))))).
  exact (readBits_byte_reads 32 12 511 3 13 (fst demo_bits_read)
           demo_written (snd demo_bits_read) H1 H2 H3 H4 H5).
Defined.

(** X7.  On any logged driver, a [writeBits] of a field of 1 to 32 bits
    at a bit offset of 0 to 7 that returns has run one read-modify-write
    cycle for each byte in which the field lies, at consecutive addresses
    from [address]: a READ frame of one byte, a WREN frame, a WRITE frame
    of one byte at the same address and the status polls of one wait.  It
    makes [(bitOffset + bitCount + 7) / 8] write cycles whatever the
    value, also when no bit changes. *)
Theorem writeBits_read_modify_write {L : Type} `{Logging L} (size_bits : Z)
    (fuel : nat) (address bitOffset bitCount value : Z) (s s' : L) :
  16 <= size_bits ->
  1 <= bitCount <= 32 -> 0 <= bitOffset <= 7 ->
  bus_sel (decode (log_of s)) = false ->
  writeBits size_bits fuel address bitOffset bitCount value s = Some s' ->
  exists cycles : list (Z * nat),
    Z.of_nat (length cycles) = bytes_spanned bitOffset bitCount /\
    emits (decode (log_of s)) (decode (log_of s')) (rmw_items address cycles).
Proof.
  intros Hsb Hn Hoff Hsel. unfold writeBits.
  destruct (Z.eqb_spec bitCount 0) as [E | _]; [lia |].
  destruct (Z.ltb_spec 32 bitCount) as [E | _]; [lia |]. cbn [orb].
  intros Hloop.
  apply (writeBits_loop_cycles size_bits Hsb bitOffset bitCount value fuel
           Hoff Hn 0 address address s s' eq_refl ltac:(lia) Hsel) in Hloop.
  destruct Hloop as (cycles & Hlen & Hem).
  exists cycles. split; [| exact Hem].
  rewrite Hlen. unfold bytes_spanned, start_bit_of. cbn [Z.eqb].
  rewrite Z.sub_0_r. apply Z2Nat.id. apply Z.div_pos; lia.
Qed.

Lemma writeBits_read_modify_write_witness :
  16 <= 32 /\ 1 <= 13 <= 32 /\ 0 <= 3 <= 7 /\
  bus_sel (decode (log_of demo_chip)) = false /\
  writeBits 32 12 511 3 13 0x1ABC demo_chip = Some demo_bits_written /\
  exists cycles : list (Z * nat),
    Z.of_nat (length cycles) = 2 /\
    emits (decode (log_of demo_chip)) (decode (log_of demo_bits_written))
      (rmw_items 511 cycles).
Proof.
  assert (H1 : 16 <= 32) by lia.
  assert (H2 : 1 <= 13 <= 32) by lia.
  assert (H3 : 0 <= 3 <= 7) by lia.
  assert (H4 : bus_sel (decode (log_of demo_chip)) = false) by reflexivity.
  assert (H5 : writeBits 32 12 511 3 13 0x1ABC demo_chip
               = Some demo_bits_written)
    by (vm_compute; reflexivity).
  repeat (split; [assumption |]).
  exact (writeBits_read_modify_write 32 12 511 3 13 0x1ABC demo_chip
           demo_bits_written H1 H2 H3 H4 H5).
Defined.

(** X8.  Against the chip model, [readBits] of a field of 1 to 32 bits
    at a bit offset of 0 to 7 returns with fuel for five rounds; bit [i]
    of the result is bit [bitOffset + i] of the string of bits that starts
    at bit 0 of cell [address mod 512], for [i] below [bitCount], and 0
    above; the cells and the write-enable latch are left unchanged. *)
Theorem readBits_reads_field (size_bits : Z) (fuel : nat)
    (address bitOffset bitCount : Z) (d : Device) :
  9 <= size_bits ->
  1 <= bitCount <= 32 -> 0 <= bitOffset <= 7 -> dev_ready d ->
  (5 <= fuel)%nat ->
  exists (r : Z) (d' : Device),
    readBits size_bits fuel address bitOffset bitCount d = Some (r, d') /\
    dev_settles d d' /\
    forall i : Z,
      0 <= i ->
      Z.testbit r i
      = (i <? bitCount) && mem_bit (dev_mem d) address (bitOffset + i).
Proof.
  intros Hsb Hn Hoff Hready Hfuel. now apply readBits_dev.
Qed.

Lemma readBits_reads_field_witness :
  9 <= 32 /\ 1 <= 12 <= 32 /\ 0 <= 4 <= 7 /\ dev_ready (fst demo_written) /\
  (5 <= 5)%nat /\
  exists (r : Z) (d' : Device),
    readBits 32 5 12 4 12 (fst demo_written) = Some (r, d') /\
    dev_settles (fst demo_written) d' /\
    forall i : Z,
      0 <= i ->
      Z.testbit r i
      = (i <? 12) && mem_bit (dev_mem (fst demo_written)) 12 (4 + i).
Proof.
  assert (H1 : 9 <= 32) by lia.
  assert (H2 : 1 <= 12 <= 32) by lia.
  assert (H3 : 0 <= 4 <= 7) by lia.
  assert (H4 : dev_ready (fst demo_written))
    by (split; vm_compute; [reflexivity | discriminate]).
  assert (H5 : (5 <= 5)%nat) by lia.
  repeat (split; [assumption |]).
  exact (readBits_reads_field 32 5 12 4 12 (fst demo_written) H1 H2 H3 H4
           H5).
Defined.

(** X9.  Whatever the driver and the device answer, the result of a
    [readBits] of 1 to 32 bits at a bit offset of 0 to 7 has no bit set at
    or above [bitCount]: it is below [2 ^ bitCount]. *)
Theorem readBits_result_bound {D : Type} `{SPIBitBangingDriver D}
    (size_bits : Z) (fuel : nat) (address bitOffset bitCount r : Z)
    (s s' : D) :
  1 <= bitCount <= 32 -> 0 <= bitOffset <= 7 ->
  readBits size_bits fuel address bitOffset bitCount s = Some (r, s') ->
  0 <= r < 2 ^ bitCount.
Proof.
  intros Hn Hoff. unfold readBits.
  destruct (Z.eqb_spec bitCount 0) as [E | _]; [lia |].
  destruct (Z.ltb_spec 32 bitCount) as [E | _]; [lia |]. cbn [orb].
  intros Hloop.
  apply (readBits_loop_below size_bits bitOffset bitCount fuel Hoff Hn)
    in Hloop.
  - destruct Hloop as [Hpos Hhigh].
    assert (E : r = r mod 2 ^ bitCount).
    { apply Z.bits_inj'. intros i Hi.
      rewrite Z.testbit_mod_pow2 by lia.
      destruct (Z.ltb_spec i bitCount); [reflexivity |].
      now apply Hhigh. }
    rewrite E. apply Z.mod_pos_bound. apply Z.pow_pos_nonneg; lia.
  - lia.
  - lia.
  - intros i _. apply Z.testbit_0_l.
Qed.

Lemma readBits_result_bound_witness :
  1 <= 13 <= 32 /\ 0 <= 3 <= 7 /\
  readBits 32 12 511 3 13 demo_written
  = Some (fst demo_bits_read, snd demo_bits_read) /\
  0 <= fst demo_bits_read < 2 ^ 13.
Proof.
  assert (H2 : 1 <= 13 <= 32) by lia.
  assert (H3 : 0 <= 3 <= 7) by lia.
  assert (H5 : readBits 32 12 511 3 13 demo_written
               = Some (fst demo_bits_read, snd demo_bits_read))
    by (vm_compute; reflexivity).
  repeat (split; [assumption |]).
  exact (readBits_result_bound 32 12 511 3 13 (fst demo_bits_read)
           demo_written (snd demo_bits_read) H2 H3 H5).
Defined.

(** X10.  Against the chip model, [writeBit] of bit 0 to 7 returns with
    enough fuel, a [readBit] of the same bit then returns the value
    written, and the write changes that one bit of cell
    [address mod 512] only: every other bit of every cell keeps its
    value. *)
Theorem writeBit_readBit_round_trip (size_bits : Z) (fuel : nat)
    (address bit : Z) (value : bool) (d : Device) :
  9 <= size_bits -> 0 <= bit <= 7 -> dev_ready d ->
  (enough_fuel d <= fuel)%nat ->
  exists d' d'' : Device,
    writeBit size_bits fuel address bit value d = Some d' /\
    readBit size_bits fuel address bit d' = Some (value, d'') /\
    forall x j : Z,
      0 <= x < CAPACITY_BYTES -> 0 <= j < 8 ->
      Z.testbit (dev_mem d' x) j
      = if (x =? address mod CAPACITY_BYTES) && (j =? bit)
        then value
        else Z.testbit (dev_mem d x) j.
Proof.
  intros Hsb Hbit Hready Hfuel. unfold enough_fuel in Hfuel.
  assert (Htwc : dev_twc d <= 10 * (Z.of_nat fuel - 6))
    by (pose proof (Z.div_mod (dev_twc d) 10 ltac:(lia));
        pose proof (Z.mod_pos_bound (dev_twc d) 10 ltac:(lia)); lia).
  unfold writeBit.
  destruct (writeBits_dev size_bits Hsb fuel address bit 1
              (if value then 1 else 0) d Hready ltac:(lia) Hbit ltac:(lia)
              Htwc)
    as (d' & Hw & Hr' & _ & Hcells).
  assert (Hbits : forall x j : Z,
             0 <= x < CAPACITY_BYTES -> 0 <= j < 8 ->
             Z.testbit (dev_mem d' x) j
             = if (x =? address mod CAPACITY_BYTES) && (j =? bit)
               then value
               else Z.testbit (dev_mem d x) j).
  { intros x j Hx Hj. rewrite (Hcells x j Hx Hj).
    rewrite span_index_one_bit by assumption.
    destruct (Z.eqb_spec x (address mod CAPACITY_BYTES)) as [Ex | _];
      [| reflexivity].
    destruct (Z.eqb_spec j bit) as [Ej | _]; [| reflexivity].
    cbn [andb]. rewrite (span_index_here address x j Ex), Ej, Z.sub_diag.
    destruct value; reflexivity. }
  destruct (readBit_dev size_bits fuel address bit d' Hsb Hbit Hr'
              ltac:(lia)) as (d'' & Hrd & _).
  exists d', d''. split; [exact Hw |]. split; [| exact Hbits].
  rewrite Hrd. do 2 f_equal.
  rewrite Hbits.
  - now rewrite !Z.eqb_refl.
  - apply Z.mod_pos_bound. reflexivity.
  - lia.
Qed.

Lemma writeBit_readBit_round_trip_witness :
  9 <= 32 /\ 0 <= 6 <= 7 /\ dev_ready (blank_device 25) /\
  (enough_fuel (blank_device 25) <= 9)%nat /\
  exists d' d'' : Device,
    writeBit 32 9 300 6 false (blank_device 25) = Some d' /\
    readBit 32 9 300 6 d' = Some (false, d'') /\
    forall x j : Z,
      0 <= x < CAPACITY_BYTES -> 0 <= j < 8 ->
      Z.testbit (dev_mem d' x) j
      = if (x =? 300 mod CAPACITY_BYTES) && (j =? 6)
        then false
        else Z.testbit (dev_mem (blank_device 25) x) j.
Proof.
  assert (H1 : 9 <= 32) by lia.
  assert (H2 : 0 <= 6 <= 7) by lia.
  assert (H3 : dev_ready (blank_device 25))
    by (split; [reflexivity | cbn; lia]).
  assert (H4 : (enough_fuel (blank_device 25) <= 9)%nat)
    by (vm_compute; lia).
  refine (conj H1 (conj H2 (conj H3 (conj H4 _)))).
  exact (writeBit_readBit_round_trip 32 9 300 6 false (blank_device 25)
           H1 H2 H3 H4).
Defined.

(** X11.  Against the chip model, [readBit] of bit 0 to 7 returns the
    bit of that index of cell [address mod 512] and leaves the cells and
    the write-enable latch unchanged. *)
Theorem readBit_reads_cell_bit (size_bits : Z) (fuel : nat)
    (address bit : Z) (d : Device) :
  9 <= size_bits -> 0 <= bit <= 7 -> dev_ready d -> (5 <= fuel)%nat ->
  exists d' : Device,
    readBit size_bits fuel address bit d
    = Some (Z.testbit (dev_mem d (address mod CAPACITY_BYTES)) bit, d') /\
    dev_settles d d'.
Proof. intros Hsb Hbit Hready Hfuel. now apply readBit_dev. Qed.

Lemma readBit_reads_cell_bit_witness :
  9 <= 32 /\ 0 <= 2 <= 7 /\ dev_ready (fst demo_written) /\ (5 <= 5)%nat /\
  exists d' : Device,
    readBit 32 5 (512 + 14) 2 (fst demo_written) = Some (true, d') /\
    dev_settles (fst demo_written) d'.
Proof.
  assert (H1 : 9 <= 32) by lia.
  assert (H2 : 0 <= 2 <= 7) by lia.
  assert (H3 : dev_ready (fst demo_written))
    by (split; vm_compute; [reflexivity | discriminate]).
  assert (H4 : (5 <= 5)%nat) by lia.
  refine (conj H1 (conj H2 (conj H3 (conj H4 _)))).
  exact (readBit_reads_cell_bit 32 5 (512 + 14) 2 (fst demo_written)
           H1 H2 H3 H4).
Defined.

(** X12.  A bit index of 9 to 31 is not rejected.  On any driver,
    [readBit] then reads the byte at [address] once and returns false
    whatever was read, and [writeBit] reads the byte and writes the same
    byte back with a full [writeByte], whatever the value asked for: the
    byte-local mask is empty, because [8 - bit] wraps around as an
    unsigned number. *)
Theorem bit_index_past_byte {D : Type} `{SPIBitBangingDriver D}
    (size_bits : Z) (fuel : nat) (address bit : Z) (value : bool) (s : D) :
  9 <= bit <= 31 ->
  readBit size_bits (S fuel) address bit s
  = Some (false, snd (readByte address s)) /\
  writeBit size_bits (S fuel) address bit value s
  = writeByte fuel address (fst (readByte address s))
      (snd (readByte address s)).
Proof.
  intros Hbit. unfold readBit, writeBit, readBits, writeBits.
  cbn [Z.eqb Z.ltb Z.compare Pos.compare Pos.compare_cont orb].
  cbn [readBits_loop writeBits_loop].
  change (0 <? 1) with true. cbv iota.
  pose proof (readByte_range address s) as Hbyte.
  destruct (readByte address s) as [byte s1]. cbn [fst snd] in *.
  cbv zeta. unfold start_bit_of. cbn [Z.eqb].
  rewrite bits_in_byte_of_past_byte by exact Hbit.
  rewrite mask_of_past_byte by lia.
  change (u32 (0 + 1)) with 1. split.
  - rewrite Z.land_0_r, Z.shiftr_0_l.
    change (Z.lor 0 (u32 (Z.shiftl (u8 0) 0))) with 0.
    destruct fuel; reflexivity.
  - rewrite Z.land_0_r, Z.lor_0_r.
    change (Z.lnot 0) with (-1). rewrite Z.land_m1_r.
    rewrite u8_small by exact Hbyte.
    destruct (writeByte fuel address byte s1) as [s2 |]; [| reflexivity].
    destruct fuel; reflexivity.
Qed.

Lemma bit_index_past_byte_witness :
  9 <= 12 <= 31 /\
  readBit 32 1 5 12 (fst demo_written)
  = Some (false, snd (readByte 5 (fst demo_written))) /\
  writeBit 32 5 5 12 true (fst demo_written)
  = writeByte 4 5 (fst (readByte 5 (fst demo_written)))
      (snd (readByte 5 (fst demo_written))).
Proof.
  assert (H1 : 9 <= 12 <= 31) by lia.
  split; [exact H1 |]. split.
  - exact (proj1 (bit_index_past_byte 32 0 5 12 true (fst demo_written) H1)).
  - exact (proj2 (bit_index_past_byte 32 4 5 12 true (fst demo_written) H1)).
Defined.

(** X13.  No address is checked against the capacity: [readByte],
    [writeByte] and [readArray] send the low 16 bits of the address and
    nothing else of it, so that two addresses equal modulo [2 ^ 16] make
    the same calls on the driver and give the same results. *)
Theorem address_high_bits_ignored {D : Type} `{SPIBitBangingDriver D}
    (fuel : nat) (address address' value : Z) (buffer : option (list Z))
    (length : Z) (s : D) :
  address mod 2 ^ 16 = address' mod 2 ^ 16 ->
  readByte address s = readByte address' s /\
  writeByte fuel address value s = writeByte fuel address' value s /\
  readArray address buffer length s = readArray address' buffer length s.
Proof.
  intros Hlow. destruct (addr_bytes_low16 _ _ Hlow) as [Hhi Hlo].
  unfold addr_hi, addr_lo in Hhi, Hlo.
  unfold readByte, writeByte, readArray. rewrite Hhi, Hlo. auto.
Qed.

Lemma address_high_bits_ignored_witness :
  (65536 + 5) mod 2 ^ 16 = 5 mod 2 ^ 16 /\
  readByte (65536 + 5) (fst demo_written) = readByte 5 (fst demo_written) /\
  writeByte 9 (65536 + 5) 0xAA (fst demo_written)
  = writeByte 9 5 0xAA (fst demo_written) /\
  readArray (65536 + 5) (Some [0; 0]) 2 (fst demo_written)
  = readArray 5 (Some [0; 0]) 2 (fst demo_written).
Proof.
  assert (H1 : (65536 + 5) mod 2 ^ 16 = 5 mod 2 ^ 16) by reflexivity.
  split; [exact H1 |].
  exact (address_high_bits_ignored 9 (65536 + 5) 5 0xAA (Some [0; 0]) 2
           (fst demo_written) H1).
Defined.

(** X14.  Against the chip model, [writeByte] returns once its fuel
    covers the polls of a write cycle, leaves the chip ready, and changes
    cell [address mod 512] only, which holds the value reduced to a
    byte. *)
Theorem writeByte_writes_one_cell (fuel : nat) (address value : Z)
    (d : Device) :
  dev_ready d -> (enough_fuel d <= fuel)%nat ->
  exists d' : Device,
    writeByte fuel address value d = Some d' /\
    dev_ready d' /\
    forall x : Z,
      dev_mem d' x
      = if x =? address mod CAPACITY_BYTES then u8 value else dev_mem d x.
Proof.
  intros Hready Hfuel. unfold enough_fuel in Hfuel.
  destruct (writeByte_dev fuel address value d Hready)
    as (d' & Hw & Hr & Hm & _).
  - pose proof (Z.div_mod (dev_twc d) 10 ltac:(lia)).
    pose proof (Z.mod_pos_bound (dev_twc d) 10 ltac:(lia)). lia.
  - lia.
  - exists d'. split; [exact Hw |]. split; [exact Hr |].
    intros x. rewrite Hm. reflexivity.
Qed.

Lemma writeByte_writes_one_cell_witness :
  dev_ready (fst demo_written) /\
  (enough_fuel (fst demo_written) <= 9)%nat /\
  exists d' : Device,
    writeByte 9 (512 + 12) 0x1A5 (fst demo_written) = Some d' /\
    dev_ready d' /\
    forall x : Z,
      dev_mem d' x
      = if x =? (512 + 12) mod CAPACITY_BYTES then u8 0x1A5
        else dev_mem (fst demo_written) x.
Proof.
  assert (H1 : dev_ready (fst demo_written))
    by (split; vm_compute; [reflexivity | discriminate]).
  assert (H2 : (enough_fuel (fst demo_written) <= 9)%nat)
    by (vm_compute; lia).
  refine (conj H1 (conj H2 _)).
  exact (writeByte_writes_one_cell 9 (512 + 12) 0x1A5 (fst demo_written)
           H1 H2).
Defined.

(** X15.  Against the chip model, [readByte] returns the content of
    cell [address mod 512] and leaves the cells, the write-enable latch
    and the readiness of the chip unchanged. *)
Theorem readByte_reads_cell (address : Z) (d : Device) :
  dev_ready d ->
  exists d' : Device,
    readByte address d
    = (u8 (dev_mem d (address mod CAPACITY_BYTES)), d') /\
    dev_settles d d'.
Proof. intros Hready. now apply readByte_dev. Qed.

Lemma readByte_reads_cell_witness :
  dev_ready (fst demo_written) /\
  exists d' : Device,
    readByte (512 + 12) (fst demo_written) = (2, d') /\
    dev_settles (fst demo_written) d'.
Proof.
  assert (H1 : dev_ready (fst demo_written))
    by (split; vm_compute; [reflexivity | discriminate]).
  refine (conj H1 _).
  exact (readByte_reads_cell (512 + 12) (fst demo_written) H1).
Defined.

(** X16.  There is no time-out.  On a driver whose MISO line reads high
    in every state, as a pulled-up line with no chip answering does,
    [readByte] returns 0xFF, and [waitUntilWriteComplete], [writeByte],
    [writeArray] of a positive length and [writeBits] of 1 to 32 bits
    return with no amount of fuel: every status byte has WIP set. *)
Theorem miso_stuck_high_hangs_writes {D : Type} `{SPIBitBangingDriver D}
    (size_bits : Z) (fuel : nat) (address value : Z) (s : D) :
  (forall t : D, fst (read_miso t) = true) ->
  fst (readByte address s) = 0xFF /\
  waitUntilWriteComplete fuel s = None /\
  writeByte fuel address value s = None /\
  (forall (buffer : list Z) (length : Z),
      0 < length ->
      writeArray size_bits fuel address (Some buffer) length s = None) /\
  (forall bitOffset bitCount : Z,
      1 <= bitCount <= 32 ->
      writeBits size_bits fuel address bitOffset bitCount value s = None).
Proof.
  intros Hhigh. split; [now apply readByte_high |].
  split; [now apply waitUntilWriteComplete_high |].
  split; [now apply writeByte_high |]. split.
  - intros buffer length Hlen. unfold writeArray.
    destruct (Z.eqb_spec length 0) as [E | _]; [lia |].
    destruct fuel as [| fuel]; cbn [writeArray_loop];
      destruct (Z.ltb_spec 0 length) as [_ | E]; try lia; [reflexivity |].
    cbv zeta.
    destruct (transferByte _ _) as [r1 s1].
    destruct (transferByte _ s1) as [r2 s2].
    destruct (transferByte _ s2) as [r3 s3].
    now rewrite waitUntilWriteComplete_high.
  - intros bitOffset bitCount Hn. unfold writeBits.
    destruct (Z.eqb_spec bitCount 0) as [E | _]; [lia |].
    destruct (Z.ltb_spec 32 bitCount) as [E | _]; [lia |]. cbn [orb].
    destruct fuel as [| fuel]; cbn [writeBits_loop];
      destruct (Z.ltb_spec 0 bitCount) as [_ | E]; try lia; [reflexivity |].
    destruct (readByte address s) as [byte s1]. cbv zeta.
    now rewrite writeByte_high.
Qed.

Lemma miso_stuck_high_hangs_writes_witness :
  (forall t : PulledUp, fst (read_miso t) = true) /\
  fst (readByte 5 pulled_up) = 0xFF /\
  waitUntilWriteComplete 1000 pulled_up = None /\
  writeByte 1000 5 0xAA pulled_up = None.
Proof.
  assert (H1 : forall t : PulledUp, fst (read_miso t) = true)
    by (intros t; reflexivity).
  pose proof (miso_stuck_high_hangs_writes 32 1000 5 0xAA pulled_up H1)
    as (Q1 & Q2 & Q3 & _).
  exact (conj H1 (conj Q1 (conj Q2 Q3))).
Defined.
